(** * Server pooling of ldap3 ([ldap3/core/pooling.py])

    A shallow embedding of [ServerPoolState] (the per-connection selection
    cursor) and [ServerPool] (the registry of servers), and the properties
    of the selection strategies proved about them.

    Python objects are mutated in place and exceptions leave every earlier
    mutation behind; the embedding therefore uses a state monad whose state
    survives a raised exception.  The two sources of non-determinism of the
    module, [random.randint] and [Server.check_availability], are read from
    an explicit [World], and every probe made is recorded in a trace.  The
    two [while True] loops take fuel; every other loop is bounded by a
    list length.  Logging is off ([log_enabled] answers [False]); the
    attributes [initialize_time] and [ServerPoolState.strategy], written
    once and read by no method but [__str__], are left out.

    The file has three parts: the embedding and the vocabulary of the
    statements; the lemmas about scans, cursors and the registry; the
    theorems of the claims, each with its instance on concrete servers. *)

From Stdlib Require Import ZArith List String Bool Lia Permutation.
Import ListNotations.
Local Open Scope string_scope.
Local Open Scope list_scope.
Local Open Scope Z_scope.

Set Implicit Arguments.

(** ** Exceptions and the state monad *)

Inductive Exn : Type :=
| LDAPUnknownStrategyError (msg : string)
| LDAPServerPoolError (msg : string)
| LDAPServerPoolExhaustedError (msg : string)
| ValueError
| IndexError
| KeyError.

(** The result of running a piece of code: it returns, it raises, or the
    fuel given to an unbounded loop ran out before it did either. *)
Inductive Outcome (A : Type) : Type :=
| Return (a : A)
| Raise (e : Exn)
| OutOfFuel.

Arguments Raise {A} e.
Arguments OutOfFuel {A}.

Definition M (S A : Type) : Type := S -> Outcome A * S.

Definition ret {S A : Type} (a : A) : M S A := fun s => (Return a, s).

Definition bind {S A B : Type} (m : M S A) (k : A -> M S B) : M S B :=
  fun s =>
    match m s with
    | (Return a, s') => k a s'
    | (Raise e, s') => (Raise e, s')
    | (OutOfFuel, s') => (OutOfFuel, s')
    end.

Definition raise {S A : Type} (e : Exn) : M S A := fun s => (Raise e, s).

Definition out_of_fuel {S A : Type} : M S A := fun s => (OutOfFuel, s).

Definition gets {S A : Type} (f : S -> A) : M S A := fun s => (Return (f s), s).

Definition modify {S : Type} (f : S -> S) : M S unit := fun s => (Return tt, f s).

Declare Scope monad_scope.
Delimit Scope monad_scope with monad.

Notation "x <- c ;; k" := (bind c (fun x => k))
  (at level 100, c at next level, right associativity) : monad_scope.
Notation "c ;; k" := (bind c (fun _ => k))
  (at level 100, right associativity) : monad_scope.

Local Open Scope monad_scope.

(** ** Python lists *)

Module Py.

Section Lists.
Variable A : Type.
Variable eqb : A -> A -> bool.

Definition len (l : list A) : Z := Z.of_nat (List.length l).

(** A negative index counts from the end of the list. *)
Definition norm (l : list A) (i : Z) : Z := if i <? 0 then i + len l else i.

(** [l[i]] *)
Definition getitem (l : list A) (i : Z) : option A :=
  let j := norm l i in
  if (0 <=? j) && (j <? len l) then nth_error l (Z.to_nat j) else None.

(** [l.pop(i)]: the element removed and the list without it. *)
Definition pop (l : list A) (i : Z) : option (A * list A) :=
  let j := norm l i in
  match getitem l i with
  | Some x => Some (x, firstn (Z.to_nat j) l ++ skipn (S (Z.to_nat j)) l)
  | None => None
  end.

(** [x in l] *)
Definition contains (x : A) (l : list A) : bool :=
  existsb (fun y => eqb y x) l.

(** [l.index(x)]: the position of the first element equal to [x]. *)
Fixpoint index (l : list A) (x : A) : option Z :=
  match l with
  | [] => None
  | y :: l' =>
      if eqb y x then Some 0
      else match index l' x with
           | Some i => Some (i + 1)
           | None => None
           end
  end.

(** [l.remove(x)]: the list without the first element equal to [x]. *)
Fixpoint remove (l : list A) (x : A) : option (list A) :=
  match l with
  | [] => None
  | y :: l' =>
      if eqb y x then Some l'
      else match remove l' x with
           | Some r => Some (y :: r)
           | None => None
           end
  end.
End Lists.

(** [r[:-2]] on a string: all but the last two characters. *)
Definition drop_last2 (r : string) : string :=
  substring 0 (String.length r - 2) r.

End Py.

(** ** Servers, strategies and dynamically typed arguments *)

(** Modelled from the spec: the class [Server] lives in
    [ldap3/core/server.py].  An endpoint is an opaque identity, its logical
    address, and two endpoints are equal when their addresses are;
    [Server(address)] builds the endpoint of an address. *)
Record Server : Type := { address : string }.

Definition Server_eqb (a b : Server) : bool := String.eqb (address a) (address b).

(** Modelled from the spec: the constants [FIRST], [ROUND_ROBIN], [RANDOM]
    and the tuple [POOLING_STRATEGIES] are declared in [ldap3/__init__.py].
    [UNKNOWN] stands for any value that is none of the three. *)
Inductive Strategy : Type :=
| FIRST
| ROUND_ROBIN
| RANDOM
| UNKNOWN (tag : string).

Definition POOLING_STRATEGIES : list Strategy := [FIRST; ROUND_ROBIN; RANDOM].

Definition Strategy_eqb (a b : Strategy) : bool :=
  match a, b with
  | FIRST, FIRST | ROUND_ROBIN, ROUND_ROBIN | RANDOM, RANDOM => true
  | UNKNOWN s, UNKNOWN t => String.eqb s t
  | _, _ => false
  end.

(** What a caller can pass as [servers]: [isinstance] sorts it into a
    [Server], a string ([STRING_TYPES]), a sequence ([SEQUENCE_TYPES]) or
    none of them. *)
#[local] Unset Elimination Schemes.
Inductive PyObj : Type :=
| PyNone
| PyServer (s : Server)
| PyStr (a : string)
| PySeq (xs : list PyObj)
| PyOther.
#[local] Set Elimination Schemes.

(** A connection is a dictionary key; only its identity matters. *)
Definition Conn : Type := nat.

(** ** The world: random numbers and liveness probes *)

(** [entropy n] is the raw value behind the [n]-th call of [randint];
    [alive t s] is what [s.check_availability()] answers when it is the
    [t]-th probe made. *)
Record World : Type := {
  entropy : nat -> Z;
  alive : nat -> Server -> bool
}.

(** A probe that was made: the index used to fetch the server (into
    [self.servers] for the circular scan, into [temp_list] for the random
    scan), the server and the answer. *)
Record Event : Type := {
  ev_index : Z;
  ev_server : Server;
  ev_live : bool
}.

Record Env : Type := {
  clock : nat;
  draws : nat;
  trace : list Event
}.

(** ** The two classes' attributes *)

Module State.
Record t : Type := {
    servers : list Server;
    last_used_server : Z
  }.
End State.

Module Pool.
Record t : Type := {
    servers : list Server;
    pool_states : list (Conn * State.t);
    active : bool;
    exhaust : bool;
    strategy : Strategy
  }.
End Pool.

(** A method of [ServerPoolState] runs on its object and the environment;
    a method of [ServerPool] on the pool, the cursors it owns included. *)
Record CState : Type := { self : State.t; cenv : Env }.
Record PState : Type := { pool : Pool.t; penv : Env }.

(** ** The primitives the methods call *)

Section Primitives.
Variable w : World.

Definition map_env (f : Env -> Env) (s : CState) : CState :=
  {| self := self s; cenv := f (cenv s) |}.

Definition map_self (f : State.t -> State.t) (s : CState) : CState :=
  {| self := f (self s); cenv := cenv s |}.

(** [random.randint(a, b)]: an integer of the closed range [a..b];
    [ValueError] when the range is empty. *)
Definition randint (a b : Z) : M CState Z :=
  if b <? a then raise ValueError
  else
    n <- gets (fun s => draws (cenv s));;
    modify (map_env (fun e =>
      {| clock := clock e; draws := S (draws e); trace := trace e |}));;
    ret (a + entropy w n mod (b - a + 1)).

(** [server.check_availability()], for the server fetched at [index]. *)
Definition check_availability (index : Z) (server : Server) : M CState bool :=
  t <- gets (fun s => clock (cenv s));;
  let live := alive w t server in
  modify (map_env (fun e =>
    {| clock := S (clock e); draws := draws e;
       trace := trace e ++ [{| ev_index := index; ev_server := server;
                               ev_live := live |}] |}));;
  ret live.

Definition list_getitem {S : Type} (l : list Server) (i : Z) : M S Server :=
  match Py.getitem l i with
  | Some x => ret x
  | None => raise IndexError
  end.

Definition list_pop {S : Type} (l : list Server) (i : Z) : M S (Server * list Server) :=
  match Py.pop l i with
  | Some r => ret r
  | None => raise IndexError
  end.

Definition list_index {S : Type} (l : list Server) (x : Server) : M S Z :=
  match Py.index Server_eqb l x with
  | Some i => ret i
  | None => raise ValueError
  end.

Definition list_remove {S : Type} (l : list Server) (x : Server) : M S (list Server) :=
  match Py.remove Server_eqb l x with
  | Some r => ret r
  | None => raise ValueError
  end.
End Primitives.

(** ** class ServerPoolState *)

Module ServerPoolState.

Section Methods.
Variable w : World.

Definition set_servers (l : list Server) : M CState unit :=
  modify (map_self (fun st =>
    {| State.servers := l; State.last_used_server := State.last_used_server st |})).

Definition set_last_used_server (i : Z) : M CState unit :=
  modify (map_self (fun st =>
    {| State.servers := State.servers st; State.last_used_server := i |})).

Definition get_servers : M CState (list Server) :=
  gets (fun s => State.servers (self s)).

Definition get_last_used_server : M CState Z :=
  gets (fun s => State.last_used_server (self s)).

(** [refresh]: the copy loop appends every server of the pool to the
    emptied list, then the cursor is drawn again. *)
Definition refresh (server_pool : Pool.t) : M CState unit :=
  set_servers [];;
  set_servers (Pool.servers server_pool);;
  servers <- get_servers;;
  r <- randint w 0 (Py.len servers - 1);;
  set_last_used_server r.

(** The object [__init__] starts from: [servers] is empty and
    [last_used_server] not assigned yet ([-1] is the value [__str__]
    prints as [None]); it is assigned by [refresh] before it is read. *)
Definition blank : State.t :=
  {| State.servers := []; State.last_used_server := -1 |}.

(** [__init__], run on [blank]. *)
Definition init (server_pool : Pool.t) : M CState unit :=
  set_servers [];;
  refresh server_pool;;
  servers <- get_servers;;
  r <- randint w 0 (Py.len servers - 1);;
  set_last_used_server r.

Definition get_current_server : M CState Server :=
  servers <- get_servers;;
  last <- get_last_used_server;;
  list_getitem servers last.

(** [while index < bound: if self.servers[index].check_availability():
    break; index += 1]: the answer says whether the loop was left by
    [break], and with which [index].  [n] bounds the iterations; the
    callers pass [bound - index]. *)
Fixpoint scan (n : nat) (index bound : Z) : M CState (bool * Z) :=
  if index <? bound then
    match n with
    | O => out_of_fuel
    | S n' =>
        servers <- get_servers;;
        server <- list_getitem servers index;;
        live <- check_availability w index server;;
        if live then ret (true, index) else scan n' (index + 1) bound
    end
  else ret (false, index).

Fixpoint find_active_server (fuel : nat) (starting : Z) (exhaust : bool)
  : M CState Z :=
  match fuel with
  | O => out_of_fuel
  | S fuel' =>
      servers <- get_servers;;
      r <- scan (Z.to_nat (Py.len servers - starting)) starting (Py.len servers);;
      if fst r then ret (snd r)
      else
        r0 <- scan (Z.to_nat starting) 0 starting;;
        if fst r0 then ret (snd r0)
        else if exhaust then
          raise (LDAPServerPoolExhaustedError
                   "no active server available in server pool")
        else find_active_server fuel' starting exhaust
  end.

(** [while temp_list: ...]: one pass over the working copy; [Some i] when
    a live server was found.  [n] bounds the iterations; the caller
    passes the length of the copy. *)
Fixpoint sample (n : nat) (temp_list : list Server) : M CState (option Z) :=
  match temp_list with
  | [] => ret None
  | _ :: _ =>
      match n with
      | O => out_of_fuel
      | S n' =>
          i <- randint w 0 (Py.len temp_list - 1);;
          p <- list_pop temp_list i;;
          let server := fst p in
          live <- check_availability w i server;;
          if live then
            servers <- get_servers;;
            r <- list_index servers server;;
            ret (Some r)
          else sample n' (snd p)
      end
  end.

Fixpoint find_active_random_server (fuel : nat) (exhaust : bool) : M CState Z :=
  match fuel with
  | O => out_of_fuel
  | S fuel' =>
      temp_list <- get_servers;;
      r <- sample (List.length temp_list) temp_list;;
      match r with
      | Some i => ret i
      | None =>
          if exhaust then
            raise (LDAPServerPoolExhaustedError
                     "no random active server in server pool")
          else find_active_random_server fuel' exhaust
      end
  end.

Definition get_server (fuel : nat) (server_pool : Pool.t) : M CState Server :=
  servers <- get_servers;;
  match servers with
  | _ :: _ =>
      match Pool.strategy server_pool with
      | FIRST =>
          if Pool.active server_pool then
            r <- find_active_server fuel 0 (Pool.exhaust server_pool);;
            set_last_used_server r
          else set_last_used_server 0
      | ROUND_ROBIN =>
          if Pool.active server_pool then
            last <- get_last_used_server;;
            r <- find_active_server fuel (last + 1) (Pool.exhaust server_pool);;
            set_last_used_server r
          else
            last <- get_last_used_server;;
            set_last_used_server
              (if last + 1 <? Py.len servers then last + 1 else 0)
      | RANDOM =>
          if Pool.active server_pool then
            r <- find_active_random_server fuel (Pool.exhaust server_pool);;
            set_last_used_server r
          else
            r <- randint w 0 (Py.len servers);;
            set_last_used_server r
      | UNKNOWN _ =>
          raise (LDAPUnknownStrategyError "unknown server pooling strategy")
      end;;
      servers <- get_servers;;
      last <- get_last_used_server;;
      list_getitem servers last
  | [] => raise (LDAPServerPoolError "no servers in server pool")
  end.

Definition len : M CState Z :=
  servers <- get_servers;;
  ret (Py.len servers).
End Methods.

(** [__str__]; [str(server)], [str(strategy)] and [os.linesep] are what
    the interpreter and the class [Server] make them.  [self.strategy] is
    the strategy of the pool, copied by [__init__]. *)
Section Display.
Variable linesep : string.
Variable str_server : Server -> string.
Variable str_strategy : Strategy -> string.

(** [for server in self.servers: s += str(server) + linesep] *)
Fixpoint str_lines (servers : list Server) (s : string) : string :=
  match servers with
  | [] => s
  | server :: rest => str_lines rest (s ++ (str_server server ++ linesep))%string
  end.

Definition str (server_pool : Pool.t) : M CState string :=
  let s := ("servers: " ++ linesep)%string in
  servers <- get_servers;;
  let s := match servers with
           | _ :: _ => str_lines servers s
           | [] => (s ++ ("None" ++ linesep))%string
           end in
  let s := (s ++ (("Pool strategy: " ++ str_strategy (Pool.strategy server_pool))
                  ++ linesep))%string in
  last <- get_last_used_server;;
  shown <- (if last =? -1 then ret "None"
            else
              servers <- get_servers;;
              server <- list_getitem servers last;;
              ret (str_server server));;
  ret (s ++ (" - Last used server: " ++ shown))%string.
End Display.

End ServerPoolState.

(** ** class ServerPool *)

Module ServerPool.

Section Methods.
Variable w : World.

Definition map_pool (f : Pool.t -> Pool.t) (s : PState) : PState :=
  {| pool := f (pool s); penv := penv s |}.

Definition with_servers (l : list Server) (p : Pool.t) : Pool.t :=
  {| Pool.servers := l; Pool.pool_states := Pool.pool_states p;
     Pool.active := Pool.active p; Pool.exhaust := Pool.exhaust p;
     Pool.strategy := Pool.strategy p |}.

Definition with_pool_states (d : list (Conn * State.t)) (p : Pool.t) : Pool.t :=
  {| Pool.servers := Pool.servers p; Pool.pool_states := d;
     Pool.active := Pool.active p; Pool.exhaust := Pool.exhaust p;
     Pool.strategy := Pool.strategy p |}.

Definition with_strategy (g : Strategy) (p : Pool.t) : Pool.t :=
  {| Pool.servers := Pool.servers p; Pool.pool_states := Pool.pool_states p;
     Pool.active := Pool.active p; Pool.exhaust := Pool.exhaust p;
     Pool.strategy := g |}.

Definition get_servers : M PState (list Server) :=
  gets (fun s => Pool.servers (pool s)).

Definition get_pool_states : M PState (list (Conn * State.t)) :=
  gets (fun s => Pool.pool_states (pool s)).

(** The dictionary [pool_states] keeps its keys in insertion order. *)
Fixpoint lookup (c : Conn) (d : list (Conn * State.t)) : option State.t :=
  match d with
  | [] => None
  | (k, v) :: d' => if Nat.eqb k c then Some v else lookup c d'
  end.

(** [d[c] = v]: in place when the key exists, at the end otherwise. *)
Fixpoint store (c : Conn) (v : State.t) (d : list (Conn * State.t))
  : list (Conn * State.t) :=
  match d with
  | [] => [(c, v)]
  | (k, x) :: d' => if Nat.eqb k c then (c, v) :: d' else (k, x) :: store c v d'
  end.

(** [self.pool_states[connection].m()]: the method runs on the object
    the dictionary holds, which keeps whatever the method did to it,
    also when the method raises. *)
Definition on_state {A : Type} (connection : Conn) (m : M CState A) : M PState A :=
  fun s =>
    match lookup connection (Pool.pool_states (pool s)) with
    | None => (Raise KeyError, s)
    | Some st =>
        let r := m {| self := st; cenv := penv s |} in
        (fst r,
         {| pool := with_pool_states
                      (store connection (self (snd r)) (Pool.pool_states (pool s)))
                      (pool s);
            penv := cenv (snd r) |})
    end.

(** [ServerPoolState(self)]: [__init__] runs on a new object, which
    exists for the caller only when [__init__] returns. *)
Definition construct (m : M CState unit) : M PState State.t :=
  fun s =>
    let r := m {| self := ServerPoolState.blank; cenv := penv s |} in
    let s' := {| pool := pool s; penv := cenv (snd r) |} in
    match fst r with
    | Return _ => (Return (self (snd r)), s')
    | Raise e => (Raise e, s')
    | OutOfFuel => (OutOfFuel, s')
    end.

(** [for connection in self.pool_states:
       self.pool_states[connection].refresh()] *)
Fixpoint refresh_each (connections : list Conn) : M PState unit :=
  match connections with
  | [] => ret tt
  | connection :: rest =>
      p <- gets pool;;
      on_state connection (ServerPoolState.refresh w p);;
      refresh_each rest
  end.

Definition notify : M PState unit :=
  d <- get_pool_states;;
  refresh_each (map fst d).

(** [self.servers.append(s)] *)
Definition append (s : Server) : M PState unit :=
  modify (map_pool (fun p => with_servers (Pool.servers p ++ [s]) p)).

(** The [for server in servers] loop of [add]. *)
Fixpoint add_each (servers : list PyObj) : M PState unit :=
  match servers with
  | [] => ret tt
  | server :: rest =>
      match server with
      | PyServer s => append s
      | PyStr a => append {| address := a |}
      | _ => raise (LDAPServerPoolError "server in ServerPool must be a Server")
      end;;
      add_each rest
  end.

Definition add (servers : PyObj) : M PState unit :=
  match servers with
  | PyServer s =>
      cur <- get_servers;;
      if negb (Py.contains Server_eqb s cur) then append s else ret tt
  | PyStr a => append {| address := a |}
  | PySeq xs => add_each xs
  | _ => raise (LDAPServerPoolError "server must be a Server or a list of Server")
  end;;
  notify.

Definition remove (server : Server) : M PState unit :=
  cur <- get_servers;;
  (if Py.contains Server_eqb server cur then
     r <- list_remove cur server;;
     modify (map_pool (with_servers r))
   else raise (LDAPServerPoolError "server not in server pool"));;
  notify.

(** The object [__init__] starts from; [strategy] is assigned last and
    not read before. *)
Definition blank : Pool.t :=
  {| Pool.servers := []; Pool.pool_states := []; Pool.active := true;
     Pool.exhaust := false; Pool.strategy := UNKNOWN "unset" |}.

(** [__init__], run on [blank]. *)
Definition init (servers : PyObj) (pool_strategy : Strategy)
                (active exhaust : bool) : M PState unit :=
  if negb (existsb (Strategy_eqb pool_strategy) POOLING_STRATEGIES) then
    raise (LDAPUnknownStrategyError "unknown pooling strategy")
  else if exhaust && negb active then
    raise (LDAPServerPoolError
             "pools can be exhausted only when checking for active servers")
  else
    modify (map_pool (fun p =>
      {| Pool.servers := []; Pool.pool_states := [];
         Pool.active := active; Pool.exhaust := exhaust;
         Pool.strategy := Pool.strategy p |}));;
    match servers with
    | PySeq _ | PyServer _ => add servers
    | PyStr a => add (PyServer {| address := a |})
    | _ => ret tt
    end;;
    modify (map_pool (with_strategy pool_strategy)).

(** [ServerPool(servers, pool_strategy, active, exhaust)] *)
Definition new (servers : PyObj) (pool_strategy : Strategy)
               (active exhaust : bool) (e : Env) : Outcome Pool.t * Env :=
  let r := init servers pool_strategy active exhaust {| pool := blank; penv := e |} in
  match fst r with
  | Return _ => (Return (pool (snd r)), penv (snd r))
  | Raise x => (Raise x, penv (snd r))
  | OutOfFuel => (OutOfFuel, penv (snd r))
  end.

Definition len : M PState Z :=
  servers <- get_servers;;
  ret (Py.len servers).

Definition initialize (connection : Conn) : M PState unit :=
  p <- gets pool;;
  pool_state <- construct (ServerPoolState.init w p);;
  modify (map_pool (fun p =>
    with_pool_states (store connection pool_state (Pool.pool_states p)) p)).

Definition get_server (fuel : nat) (connection : Conn) : M PState Server :=
  d <- get_pool_states;;
  match lookup connection d with
  | Some _ =>
      p <- gets pool;;
      on_state connection (ServerPoolState.get_server w fuel p)
  | None => raise (LDAPServerPoolError "connection not in ServerPoolState")
  end.

Definition get_current_server (connection : Conn) : M PState Server :=
  d <- get_pool_states;;
  match lookup connection d with
  | Some _ => on_state connection ServerPoolState.get_current_server
  | None => raise (LDAPServerPoolError "connection not in ServerPoolState")
  end.
(** [__getitem__] *)
Definition getitem (item : Z) : M PState Server :=
  servers <- get_servers;;
  list_getitem servers item.
End Methods.

(** [__repr__]; [server.__repr__()] and [repr(strategy)] are what the
    class [Server] and the interpreter make them. *)
Section Display.
Variable repr_server : Server -> string.
Variable repr_strategy : Strategy -> string.

Definition repr_bool (b : bool) : string := if b then "True" else "False".

(** [for server in self.servers: r += server.__repr__() + ', '] *)
Fixpoint repr_items (servers : list Server) (r : string) : string :=
  match servers with
  | [] => r
  | server :: rest => repr_items rest (r ++ (repr_server server ++ ", "))%string
  end.

Definition repr : M PState string :=
  let r := "ServerPool(servers=" in
  servers <- get_servers;;
  let r := match servers with
           | _ :: _ =>
               (Py.drop_last2 (repr_items servers (r ++ "[")) ++ "]")%string
           | [] => (r ++ "None")%string
           end in
  p <- gets pool;;
  let r := (r ++ (", pool_strategy=" ++ repr_strategy (Pool.strategy p)))%string in
  let r := (r ++ (", active=" ++ repr_bool (Pool.active p)))%string in
  let r := (r ++ (", exhaust=" ++ repr_bool (Pool.exhaust p)))%string in
  ret (r ++ ")")%string.
End Display.

End ServerPool.

(** ** Vocabulary of the statements *)

(** [zseq a k] is [a, a+1, ..., a+k-1]. *)
Fixpoint zseq (a : Z) (k : nat) : list Z :=
  match k with
  | O => []
  | S k' => a :: zseq (a + 1) k'
  end.

(** The circular index order of a list of length [n] entered at [s]:
    [s, s+1, ..., n-1, 0, ..., s-1]. *)
Definition circular (s n : Z) : list Z :=
  zseq s (Z.to_nat (n - s)) ++ zseq 0 (Z.to_nat s).

(** The events of probing the servers of [l] at the indices [idxs], one
    after the other, the first probe being the [t]-th of the world. *)
Fixpoint probes (w : World) (l : list Server) (t : nat) (idxs : list Z)
  : list Event :=
  match idxs with
  | [] => []
  | i :: rest =>
      match Py.getitem l i with
      | Some sv =>
          {| ev_index := i; ev_server := sv; ev_live := alive w t sv |}
            :: probes w l (S t) rest
      | None => []
      end
  end.

(** The index of the first live probe of a run of probes. *)
Fixpoint hit (evs : list Event) : option Z :=
  match evs with
  | [] => None
  | e :: rest => if ev_live e then Some (ev_index e) else hit rest
  end.

(** The run of probes cut after its first live probe. *)
Fixpoint cut (evs : list Event) : list Event :=
  match evs with
  | [] => []
  | e :: rest => if ev_live e then [e] else e :: cut rest
  end.

(** The state after the probes [evs] were made. *)
Definition advance (evs : list Event) (s : CState) : CState :=
  {| self := self s;
     cenv := {| clock := (clock (cenv s) + List.length evs)%nat;
                draws := draws (cenv s);
                trace := trace (cenv s) ++ evs |} |}.

Definition dead (e : Event) : Prop := ev_live e = false.

(** The state after [k] random numbers were drawn. *)
Definition drawn (k : nat) (s : CState) : CState :=
  {| self := self s;
     cenv := {| clock := clock (cenv s);
                draws := (draws (cenv s) + k)%nat;
                trace := trace (cenv s) |} |}.

(** The probes [evs], made from time [t] on, report what the world
    answered. *)
Fixpoint honest (w : World) (t : nat) (evs : list Event) : Prop :=
  match evs with
  | [] => True
  | e :: rest => ev_live e = alive w t (ev_server e) /\ honest w (S t) rest
  end.

(** ** Concrete servers, worlds and states used by the examples *)

Definition srvA : Server := {| address := "ldap-a" |}.
Definition srvB : Server := {| address := "ldap-b" |}.
Definition srvC : Server := {| address := "ldap-c" |}.

Definition env0 : Env := {| clock := 0; draws := 0; trace := [] |}.

(** No server ever answers; the raw random values count 1, 2, 3, ... *)
Definition world_dead : World :=
  {| entropy := fun n => Z.of_nat n + 1; alive := fun _ _ => false |}.

(** Only [srvC] answers; every raw random value is 1. *)
Definition world_only_c : World :=
  {| entropy := fun _ => 1; alive := fun _ s => Server_eqb s srvC |}.

(** Every server answers; every raw random value is 1. *)
Definition world_live : World :=
  {| entropy := fun _ => 1; alive := fun _ _ => true |}.

(** No server answers before the [T]-th probe, every server from then on;
    every raw random value is 0. *)
Definition world_back_at (T : nat) : World :=
  {| entropy := fun _ => 0; alive := fun t _ => Nat.leb T t |}.

Definition cursor (l : list Server) (i : Z) : CState :=
  {| self := {| State.servers := l; State.last_used_server := i |};
     cenv := env0 |}.

Definition policy (l : list Server) (d : list (Conn * State.t))
                  (g : Strategy) (a e : bool) : Pool.t :=
  {| Pool.servers := l; Pool.pool_states := d; Pool.active := a;
     Pool.exhaust := e; Pool.strategy := g |}.

(** ** What a full application of [add] amounts to *)

(** The server an element of a sequence stands for, if any. *)
Definition as_server (x : PyObj) : option Server :=
  match x with
  | PyServer s => Some s
  | PyStr a => Some {| address := a |}
  | _ => None
  end.

(** The servers of the elements that precede the first invalid one. *)
Fixpoint accepted (xs : list PyObj) : list Server :=
  match xs with
  | [] => []
  | x :: rest =>
      match as_server x with
      | Some s => s :: accepted rest
      | None => []
      end
  end.

(** The servers of all the elements, when all are valid. *)
Fixpoint convert (xs : list PyObj) : option (list Server) :=
  match xs with
  | [] => Some []
  | x :: rest =>
      match as_server x, convert rest with
      | Some s, Some r => Some (s :: r)
      | _, _ => None
      end
  end.

(** The endpoint list [add x] is to produce from [cur]; [None] when [x]
    cannot be applied in full. *)
Definition expected (cur : list Server) (x : PyObj) : option (list Server) :=
  match x with
  | PyServer e => Some (if Py.contains Server_eqb e cur then cur else cur ++ [e])
  | PyStr a => Some (cur ++ [{| address := a |}])
  | PySeq xs =>
      match convert xs with
      | Some svs => Some (cur ++ svs)
      | None => None
      end
  | _ => None
  end.

(** Every cursor registered in [s] is still registered in [s'], holds the
    endpoint list of [s'] as its snapshot and has a valid index; no other
    connection got a cursor. *)
Definition all_refreshed (s s' : PState) : Prop :=
  forall c,
    (ServerPool.lookup c (Pool.pool_states (pool s)) = None ->
     ServerPool.lookup c (Pool.pool_states (pool s')) = None) /\
    (ServerPool.lookup c (Pool.pool_states (pool s)) <> None ->
     exists st,
       ServerPool.lookup c (Pool.pool_states (pool s')) = Some st /\
       State.servers st = Pool.servers (pool s') /\
       0 <= State.last_used_server st < Py.len (State.servers st)).

(** [n] consecutive calls of [get_server] on one connection. *)
Fixpoint calls (w : World) (fuel : nat) (connection : Conn) (n : nat)
  : M PState (list Server) :=
  match n with
  | O => ret []
  | S n' =>
      x <- ServerPool.get_server w fuel connection;;
      xs <- calls w fuel connection n';;
      ret (x :: xs)
  end.

(** The list [l] read from index [i] on, wrapping around. *)
Definition rotation (l : list Server) (i : Z) : list Server :=
  skipn (Z.to_nat i) l ++ firstn (Z.to_nat i) l.

Definition registry (l : list Server) (d : list (Conn * State.t))
                    (g : Strategy) (a e : bool) : PState :=
  {| pool := policy l d g a e; penv := env0 |}.

(** A registry of two servers with one cursor, owned by connection 1. *)
Definition registry_ab : PState :=
  registry [srvA; srvB]
    [(1%nat, {| State.servers := [srvA; srvB]; State.last_used_server := 0 |})]
    ROUND_ROBIN true false.

(** The registry in which the cursor of connection [c] is [st]. *)
Definition set_cursor (c : Conn) (st : State.t) (s : PState) : PState :=
  {| pool := ServerPool.with_pool_states
               (ServerPool.store c st (Pool.pool_states (pool s))) (pool s);
     penv := penv s |}.

(** The cursor over the snapshot [l] that stands at index [i]. *)
Definition at_index (l : list Server) (i : Z) : State.t :=
  {| State.servers := l; State.last_used_server := i |}.

(** ** Python lists: facts *)

Section PyFacts.
Variable A : Type.
Implicit Types (l : list A) (i : Z).

Lemma getitem_in_range l i :
  0 <= i < Py.len l -> Py.getitem l i = nth_error l (Z.to_nat i).
Proof.
  intros H. unfold Py.getitem, Py.norm.
  destruct (i <? 0) eqn:E; [apply Z.ltb_lt in E; lia|].
  replace (0 <=? i) with true by (symmetry; apply Z.leb_le; lia).
  replace (i <? Py.len l) with true by (symmetry; apply Z.ltb_lt; lia).
  reflexivity.
Qed.

Lemma getitem_some l i :
  0 <= i < Py.len l -> exists x, Py.getitem l i = Some x.
Proof.
  intros H. rewrite getitem_in_range by exact H.
  destruct (nth_error l (Z.to_nat i)) eqn:E; [eauto|].
  apply nth_error_None in E. unfold Py.len in H. lia.
Qed.

Lemma getitem_out_of_range l i :
  Py.len l <= i -> Py.getitem l i = None.
Proof.
  intros H. unfold Py.getitem, Py.norm.
  assert (0 <= Py.len l) by (unfold Py.len; lia).
  destruct (i <? 0) eqn:E; [apply Z.ltb_lt in E; lia|].
  replace (i <? Py.len l) with false by (symmetry; apply Z.ltb_ge; lia).
  rewrite andb_false_r. reflexivity.
Qed.

Lemma getitem_cons x l i :
  0 <= i -> Py.getitem (x :: l) (i + 1) = Py.getitem l i.
Proof.
  intros H. unfold Py.getitem, Py.norm, Py.len. cbn [List.length].
  destruct (i <? 0) eqn:E; [apply Z.ltb_lt in E; lia|].
  destruct (i + 1 <? 0) eqn:E1; [apply Z.ltb_lt in E1; lia|].
  replace (0 <=? i + 1) with true by (symmetry; apply Z.leb_le; lia).
  replace (0 <=? i) with true by (symmetry; apply Z.leb_le; lia).
  cbn [andb].
  destruct (i <? Z.of_nat (List.length l)) eqn:E2.
  - replace (i + 1 <? Z.of_nat (S (List.length l))) with true
      by (symmetry; apply Z.ltb_lt; apply Z.ltb_lt in E2; lia).
    replace (Z.to_nat (i + 1)) with (S (Z.to_nat i)) by lia. reflexivity.
  - replace (i + 1 <? Z.of_nat (S (List.length l))) with false
      by (symmetry; apply Z.ltb_ge; apply Z.ltb_ge in E2; lia).
    reflexivity.
Qed.

End PyFacts.

(** ** The circular scan *)

Ltac munfold :=
  unfold ServerPoolState.get_servers, ServerPoolState.get_last_used_server,
         ServerPoolState.set_servers, ServerPoolState.set_last_used_server,
         list_getitem, list_pop, list_index, list_remove,
         bind, ret, gets, modify, raise, out_of_fuel in *.

Section ScanFacts.
Variable w : World.

Lemma advance_nil s : advance [] s = s.
Proof.
  destruct s as [st [c d t]]. unfold advance. cbn.
  rewrite Nat.add_0_r, app_nil_r. reflexivity.
Qed.

Lemma advance_app evs evs' s :
  advance evs' (advance evs s) = advance (evs ++ evs') s.
Proof.
  unfold advance. cbn. rewrite length_app, Nat.add_assoc, app_assoc. reflexivity.
Qed.

Lemma check_availability_run i sv s :
  check_availability w i sv s =
    (Return (alive w (clock (cenv s)) sv),
     advance [{| ev_index := i; ev_server := sv;
                 ev_live := alive w (clock (cenv s)) sv |}] s).
Proof.
  unfold check_availability, advance, map_env, bind, gets, modify, ret. cbn.
  rewrite Nat.add_1_r. reflexivity.
Qed.

Lemma zseq_length a k : List.length (zseq a k) = k.
Proof. revert a. induction k; intros; cbn; auto. Qed.

Lemma scan_spec n : forall index bound s,
  0 <= index <= bound -> bound <= Py.len (State.servers (self s)) ->
  (Z.to_nat (bound - index) <= n)%nat ->
  let evs := probes w (State.servers (self s)) (clock (cenv s))
               (zseq index (Z.to_nat (bound - index))) in
  ServerPoolState.scan w n index bound s =
    (Return (match hit evs with
             | Some i => (true, i)
             | None => (false, bound)
             end),
     advance (cut evs) s).
Proof.
  induction n as [|n IH]; intros index bound s Hi Hb Hn evs; subst evs.
  - assert (index = bound) by lia. subst.
    cbn. rewrite Z.ltb_irrefl, Z.sub_diag. cbn. rewrite advance_nil. reflexivity.
  - cbn [ServerPoolState.scan].
    destruct (index <? bound) eqn:E.
    + apply Z.ltb_lt in E.
      replace (Z.to_nat (bound - index)) with (S (Z.to_nat (bound - (index + 1)))) by lia.
      cbn [zseq probes].
      destruct (getitem_some (State.servers (self s)) (i:=index)) as [sv Hsv]; [lia|].
      munfold. rewrite Hsv, check_availability_run. cbn [hit cut ev_live ev_index].
      destruct (alive w (clock (cenv s)) sv) eqn:L.
      * reflexivity.
      * rewrite IH by (cbn; lia). rewrite advance_app. cbn.
        rewrite Nat.add_1_r. reflexivity.
    + apply Z.ltb_ge in E. assert (index = bound) by lia. subst.
      rewrite Z.sub_diag. cbn. rewrite advance_nil. reflexivity.
Qed.

Lemma zseq_range a k i : In i (zseq a k) -> a <= i < a + Z.of_nat k.
Proof.
  revert a. induction k as [|k IH]; intros a; cbn; [tauto|].
  intros [<-|H]; [lia|]. apply IH in H. lia.
Qed.

Lemma probes_length l t idxs :
  (forall i, In i idxs -> 0 <= i < Py.len l) ->
  List.length (probes w l t idxs) = List.length idxs.
Proof.
  revert t. induction idxs as [|i r IH]; intros t H; cbn; [reflexivity|].
  destruct (getitem_some l (i:=i)) as [sv ->]; [apply H; now left|].
  cbn. rewrite IH; [reflexivity|]. intros; apply H; now right.
Qed.

Lemma probes_app l t xs ys :
  (forall i, In i xs -> 0 <= i < Py.len l) ->
  probes w l t (xs ++ ys) =
    probes w l t xs ++ probes w l (t + List.length xs) ys.
Proof.
  revert t. induction xs as [|i r IH]; intros t H; cbn.
  - rewrite Nat.add_0_r. reflexivity.
  - destruct (getitem_some l (i:=i)) as [sv ->]; [apply H; now left|].
    cbn. rewrite IH by (intros; apply H; now right).
    rewrite Nat.add_succ_r. reflexivity.
Qed.

Lemma hit_app evs evs' :
  hit (evs ++ evs') = match hit evs with Some i => Some i | None => hit evs' end.
Proof.
  induction evs as [|e r IH]; cbn; [reflexivity|].
  destruct (ev_live e); auto.
Qed.

Lemma cut_app evs evs' :
  cut (evs ++ evs') =
    match hit evs with Some _ => cut evs | None => evs ++ cut evs' end.
Proof.
  induction evs as [|e r IH]; cbn; [reflexivity|].
  destruct (ev_live e); [reflexivity|]. rewrite IH.
  destruct (hit r); reflexivity.
Qed.

Lemma cut_no_hit evs : hit evs = None -> cut evs = evs.
Proof.
  induction evs as [|e r IH]; cbn; [reflexivity|].
  destruct (ev_live e); [discriminate|]. intros H. now rewrite IH.
Qed.

Lemma find_active_server_pass fuel starting exhaust s :
  0 <= starting <= Py.len (State.servers (self s)) ->
  let l := State.servers (self s) in
  let evs := probes w l (clock (cenv s)) (circular starting (Py.len l)) in
  ServerPoolState.find_active_server w (S fuel) starting exhaust s =
    match hit evs with
    | Some i => (Return i, advance (cut evs) s)
    | None =>
        if exhaust then
          (Raise (LDAPServerPoolExhaustedError
                    "no active server available in server pool"),
           advance evs s)
        else ServerPoolState.find_active_server w fuel starting exhaust
               (advance evs s)
    end.
Proof.
  intros Hs l evs. subst evs l. unfold circular.
  rewrite probes_app by (intros i Hi; apply zseq_range in Hi; lia).
  rewrite hit_app, cut_app, zseq_length.
  cbn [ServerPoolState.find_active_server].
  unfold bind at 1. unfold ServerPoolState.get_servers at 1. unfold gets at 1.
  unfold bind at 1.
  rewrite scan_spec by lia.
  set (evs1 := probes w _ (clock (cenv s)) _).
  destruct (hit evs1) eqn:H1; [reflexivity|].
  cbn [fst snd]. rewrite (cut_no_hit _ H1).
  unfold bind at 1.
  rewrite scan_spec by (cbn; lia).
  rewrite Z.sub_0_r. cbn [advance self cenv clock].
  replace (List.length evs1) with (Z.to_nat (Py.len (State.servers (self s)) - starting)).
  2:{ subst evs1. rewrite probes_length, zseq_length; [reflexivity|].
      intros i Hi; apply zseq_range in Hi; lia. }
  set (evs2 := probes w _ (_ + _)%nat _).
  assert (E : advance evs2 (advance evs1 s) = advance (evs1 ++ evs2) s)
    by apply advance_app.
  unfold advance at 2 in E. cbn [self cenv] in E.
  destruct (hit evs2) eqn:H2.
  - cbn [fst snd]. f_equal. unfold advance; cbn.
    rewrite length_app, Nat.add_assoc, app_assoc. reflexivity.
  - cbn [fst snd]. rewrite (cut_no_hit _ H2).
    destruct exhaust.
    + unfold raise. f_equal. exact E.
    + rewrite <- E. reflexivity.
Qed.
End ScanFacts.

(** ** The random scan *)

Section RandomFacts.
Variable w : World.

Lemma Server_eqb_eq a b : Server_eqb a b = true <-> a = b.
Proof.
  unfold Server_eqb. rewrite String.eqb_eq.
  destruct a, b; cbn; split; congruence.
Qed.

Lemma randint_run a b s :
  a <= b ->
  randint w a b s =
    (Return (a + entropy w (draws (cenv s)) mod (b - a + 1)), drawn 1 s).
Proof.
  intros H. unfold randint.
  replace (b <? a) with false by (symmetry; apply Z.ltb_ge; lia).
  unfold bind, gets, modify, ret, map_env, drawn. cbn.
  rewrite Nat.add_1_r. reflexivity.
Qed.

Lemma randint_range a b n : a <= b -> a <= a + entropy w n mod (b - a + 1) <= b.
Proof.
  intros H. pose proof (Z.mod_pos_bound (entropy w n) (b - a + 1)). lia.
Qed.

Lemma pop_in_range (l : list Server) i :
  0 <= i < Py.len l ->
  exists x rest, Py.pop l i = Some (x, rest) /\ Permutation l (x :: rest).
Proof.
  intros H. unfold Py.pop.
  rewrite getitem_in_range by exact H.
  destruct (nth_error l (Z.to_nat i)) as [x|] eqn:E.
  - exists x. eexists. split; [reflexivity|].
    unfold Py.norm. replace (i <? 0) with false by (symmetry; apply Z.ltb_ge; lia).
    apply nth_error_split in E. destruct E as (l1 & l2 & -> & <-).
    rewrite firstn_app, firstn_all, Nat.sub_diag. cbn [firstn].
    rewrite app_nil_r.
    replace (S (List.length l1)) with (List.length l1 + 1)%nat by lia.
    rewrite skipn_app, skipn_all2 by lia.
    replace (List.length l1 + 1 - List.length l1)%nat with 1%nat by lia.
    cbn. symmetry. apply Permutation_middle.
  - apply nth_error_None in E. unfold Py.len in H. lia.
Qed.

Lemma index_found (l : list Server) x : In x l -> exists r, Py.index Server_eqb l x = Some r.
Proof.
  induction l as [|y l IH]; cbn; [tauto|].
  intros [->|H].
  - replace (Server_eqb x x) with true by (symmetry; now apply Server_eqb_eq). eauto.
  - destruct (Server_eqb y x); [eauto|]. destruct (IH H) as [r ->]. eauto.
Qed.

Lemma index_first (l : list Server) x r :
  Py.index Server_eqb l x = Some r ->
  0 <= r < Py.len l /\ Py.getitem l r = Some x /\
  forall j, 0 <= j < r -> Py.getitem l j <> Some x.
Proof.
  revert r. induction l as [|y l IH]; cbn; [discriminate|].
  intros r. destruct (Server_eqb y x) eqn:E.
  - intros [= <-]. apply Server_eqb_eq in E. subst y.
    split; [unfold Py.len; cbn; lia|]. split; [reflexivity|]. intros; lia.
  - destruct (Py.index Server_eqb l x) as [i|]; [|discriminate].
    intros [= <-]. destruct (IH i eq_refl) as (Hr & Hg & Hf).
    split; [unfold Py.len in *; cbn [List.length]; lia|].
    split; [rewrite getitem_cons by lia; exact Hg|].
    intros j Hj. destruct (Z.eq_dec j 0) as [->|Hn].
    + cbn. intros [= ->].
      assert (Server_eqb x x = true) by now apply Server_eqb_eq. congruence.
    + replace j with ((j - 1) + 1) by lia. rewrite getitem_cons by lia.
      apply Hf. lia.
Qed.
End RandomFacts.

Section SampleFacts.
Variable w : World.

Lemma sample_spec n : forall temp s,
  (List.length temp <= n)%nat ->
  incl temp (State.servers (self s)) ->
  exists evs rest,
    snd (ServerPoolState.sample w n temp s) = drawn (List.length evs) (advance evs s) /\
    honest w (clock (cenv s)) evs /\
    Permutation (map ev_server evs ++ rest) temp /\
    ((fst (ServerPoolState.sample w n temp s) = Return None /\
      Forall dead evs /\ rest = []) \/
     (exists r ds e,
        fst (ServerPoolState.sample w n temp s) = Return (Some r) /\
        evs = ds ++ [e] /\ Forall dead ds /\ ev_live e = true /\
        Py.index Server_eqb (State.servers (self s)) (ev_server e) = Some r)).
Proof.
  induction n as [|n IH]; intros temp s Hn Hin.
  - destruct temp; [|cbn in Hn; lia].
    exists [], []. cbn. rewrite advance_nil. unfold drawn; cbn.
    rewrite Nat.add_0_r. destruct s as [st [c d t]]; cbn.
    split; [reflexivity|]. split; [exact I|]. split; [constructor|].
    left. repeat split; constructor.
  - destruct temp as [|x0 t0].
    { exists [], []. cbn. rewrite advance_nil. unfold drawn; cbn.
      rewrite Nat.add_0_r. destruct s as [st [c d t]]; cbn.
      split; [reflexivity|]. split; [exact I|]. split; [constructor|].
      left. repeat split; constructor. }
    destruct (ServerPoolState.sample w (S n) (x0 :: t0) s) as [o s'] eqn:Hrun.
    cbn [ServerPoolState.sample] in Hrun.
    set (temp := x0 :: t0) in *.
    assert (Hlen : 0 <= Py.len temp - 1) by (unfold Py.len, temp; cbn [List.length]; lia).
    unfold bind at 1 in Hrun. rewrite randint_run in Hrun by lia.
    set (i := 0 + entropy w (draws (cenv s)) mod (Py.len temp - 1 - 0 + 1)) in *.
    assert (Hi : 0 <= i <= Py.len temp - 1) by apply randint_range, Hlen.
    destruct (pop_in_range temp (i:=i)) as (y & rest & Hpop & Hperm); [lia|].
    unfold bind at 1 in Hrun. unfold list_pop in Hrun. rewrite Hpop in Hrun.
    unfold ret at 1 in Hrun.
    cbn [fst snd] in Hrun. unfold bind at 1 in Hrun.
    rewrite check_availability_run in Hrun.
    set (e := {| ev_index := i; ev_server := y; ev_live := _ |}) in *.
    assert (Hy : In y (State.servers (self s))).
    { apply Hin. eapply Permutation_in; [symmetry; exact Hperm|]. now left. }
    assert (He : ev_live e = alive w (clock (cenv s)) y) by reflexivity.
    destruct (alive w (clock (cenv (drawn 1 s))) y) eqn:L.
    + destruct (index_found _ _ Hy) as [r Hr].
      unfold bind, ServerPoolState.get_servers, gets, list_index, ret in Hrun.
      cbn [self advance drawn] in Hrun. rewrite Hr in Hrun.
      injection Hrun as <- <-.
      exists [e], rest. cbn [fst snd].
      split; [reflexivity|]. split; [cbn; split; [exact He|exact I]|].
      split; [cbn; symmetry; exact Hperm|].
      right. exists r, [], e. cbn [app].
      split; [reflexivity|]. split; [reflexivity|]. split; [constructor|].
      split; [rewrite He; exact L|exact Hr].
    + assert (Hrest : (List.length rest <= n)%nat).
      { apply Permutation_length in Hperm. cbn in Hperm. cbn in Hn. lia. }
      assert (Hin' : incl rest (State.servers (self (advance [e] (drawn 1 s))))).
      { intros z Hz. apply Hin. eapply Permutation_in; [symmetry; exact Hperm|]. now right. }
      destruct (IH rest (advance [e] (drawn 1 s)) Hrest Hin')
        as (evs & rest' & Hs & Hh & Hp & Hcase).
      rewrite Hrun in Hs, Hcase. cbn [fst snd] in *.
      exists (e :: evs), rest'.
      split.
      { rewrite Hs. unfold drawn, advance. cbn.
        rewrite <- app_assoc, <- !Nat.add_assoc. reflexivity. }
      split.
      { cbn. split; [exact He|].
        cbn in Hh. rewrite Nat.add_1_r in Hh. exact Hh. }
      split.
      { cbn. rewrite Hperm. now constructor. }
      destruct Hcase as [(Hf & Hd & ->)|(r & ds & e' & Hf & -> & Hd & Hl & Hidx)].
      * left. split; [exact Hf|]. split; [|reflexivity].
        constructor; [unfold dead; rewrite He; exact L|exact Hd].
      * right. exists r, (e :: ds), e'.
        split; [exact Hf|]. split; [reflexivity|].
        split; [constructor; [unfold dead; rewrite He; exact L|exact Hd]|].
        split; [exact Hl|exact Hidx].
Qed.
End SampleFacts.

(** ** The circular order *)

Section CircularOrder.
Variable w : World.

Lemma zseq_In a k i : In i (zseq a k) <-> a <= i < a + Z.of_nat k.
Proof.
  revert a. induction k as [|k IH]; intros a; cbn [zseq In].
  - lia.
  - rewrite IH. lia.
Qed.

Lemma zseq_NoDup a k : NoDup (zseq a k).
Proof.
  revert a. induction k as [|k IH]; intros a; cbn; constructor; [|apply IH].
  rewrite zseq_In. lia.
Qed.

Lemma circular_In s n i : 0 <= s <= n -> In i (circular s n) <-> 0 <= i < n.
Proof.
  intros H. unfold circular. rewrite in_app_iff, !zseq_In. lia.
Qed.

Lemma circular_NoDup s n : 0 <= s <= n -> NoDup (circular s n).
Proof.
  intros H. unfold circular. apply NoDup_app; try apply zseq_NoDup.
  intros i. rewrite !zseq_In. lia.
Qed.

Lemma probes_index l t idxs :
  (forall i, In i idxs -> 0 <= i < Py.len l) ->
  map ev_index (probes w l t idxs) = idxs.
Proof.
  revert t. induction idxs as [|i r IH]; intros t H; cbn; [reflexivity|].
  destruct (getitem_some l (i:=i)) as [sv ->]; [apply H; now left|].
  cbn. rewrite IH; [reflexivity|]. intros; apply H; now right.
Qed.

(** A run of probes whose first [k] answers are dead and whose next one
    is live is cut after [k + 1] probes, at the index probed last. *)
Lemma probes_first_live l idxs : forall t k live,
  (forall i, In i idxs -> 0 <= i < Py.len l) ->
  (forall j sv, (j < k)%nat -> Py.getitem l (nth j idxs 0) = Some sv ->
                alive w (t + j) sv = false) ->
  (k < List.length idxs)%nat ->
  Py.getitem l (nth k idxs 0) = Some live -> alive w (t + k) live = true ->
  hit (probes w l t idxs) = Some (nth k idxs 0) /\
  cut (probes w l t idxs) = probes w l t (firstn (S k) idxs).
Proof.
  induction idxs as [|i r IH]; intros t k live Hv Hd Hk Hg Hl; [cbn in Hk; lia|].
  destruct (getitem_some l (i:=i)) as [sv Hsv]; [apply Hv; now left|].
  cbn [probes firstn]. rewrite Hsv. cbn [hit cut ev_live ev_index].
  destruct k as [|k].
  - cbn in Hg. rewrite Hsv in Hg. injection Hg as ->.
    rewrite Nat.add_0_r in Hl. rewrite Hl. cbn. auto.
  - pose proof (Hd 0%nat sv ltac:(lia) Hsv) as Hd0.
    rewrite Nat.add_0_r in Hd0. rewrite Hd0.
    destruct (IH (S t) k live) as [H1 H2]; auto.
    + intros; apply Hv; now right.
    + intros j sv' Hj Hg'. rewrite Nat.add_succ_comm.
      apply Hd; [lia|exact Hg'].
    + cbn in Hk. lia.
    + rewrite Nat.add_succ_comm. exact Hl.
    + cbn [nth]. rewrite H1, H2. auto.
Qed.

(** A run of probes all of whose answers are dead. *)
Lemma probes_all_dead l idxs : forall t,
  (forall j sv, (j < List.length idxs)%nat ->
                Py.getitem l (nth j idxs 0) = Some sv ->
                alive w (t + j) sv = false) ->
  Forall dead (probes w l t idxs).
Proof.
  induction idxs as [|i r IH]; intros t Hd; cbn [probes]; [constructor|].
  destruct (Py.getitem l i) as [sv|] eqn:G; [|constructor].
  constructor.
  - cbn. pose proof (Hd 0%nat sv ltac:(cbn; lia) G) as H.
    now rewrite Nat.add_0_r in H.
  - apply IH. intros j sv' Hj Hg. rewrite Nat.add_succ_comm.
    apply Hd; [cbn; lia|exact Hg].
Qed.

Lemma firstn_In (A : Type) (x : A) n (l : list A) : In x (firstn n l) -> In x l.
Proof.
  intros H. rewrite <- (firstn_skipn n l). apply in_or_app. now left.
Qed.
End CircularOrder.

(** ** Runs of probes *)

Section TraceFacts.
Variable w : World.

Lemma hit_cut_some evs i :
  hit evs = Some i ->
  exists ds e, cut evs = ds ++ [e] /\ Forall dead ds /\
               ev_live e = true /\ ev_index e = i.
Proof.
  induction evs as [|e r IH]; cbn; [discriminate|].
  destruct (ev_live e) eqn:L.
  - intros [= <-]. exists [], e. repeat split; auto.
  - intros H. destruct (IH H) as (ds & e' & -> & Hd & Hl & Hi).
    exists (e :: ds), e'. repeat split; auto.
Qed.

Lemma hit_none_dead evs : hit evs = None -> Forall dead evs.
Proof.
  induction evs as [|e r IH]; cbn; [constructor|].
  destruct (ev_live e) eqn:L; [discriminate|]. intros H.
  constructor; auto.
Qed.

Lemma dead_no_hit evs : Forall dead evs -> hit evs = None.
Proof.
  induction 1 as [|e r He _ IH]; cbn; [reflexivity|].
  unfold dead in He. now rewrite He.
Qed.

Lemma cut_prefix evs : exists rest, evs = cut evs ++ rest.
Proof.
  induction evs as [|e r [rest IH]]; cbn; [now exists []|].
  destruct (ev_live e).
  - now exists r.
  - exists rest. cbn. now rewrite <- IH.
Qed.

Lemma honest_app t evs evs' :
  honest w t (evs ++ evs') <->
  honest w t evs /\ honest w (t + List.length evs) evs'.
Proof.
  revert t. induction evs as [|e r IH]; intros t; cbn.
  - rewrite Nat.add_0_r. tauto.
  - rewrite IH, Nat.add_succ_r. cbn. tauto.
Qed.

Lemma probes_honest l t idxs : honest w t (probes w l t idxs).
Proof.
  revert t. induction idxs as [|i r IH]; intros t; cbn; [exact I|].
  destruct (Py.getitem l i); cbn; auto.
Qed.

Lemma probes_getitem l t idxs e :
  In e (probes w l t idxs) -> Py.getitem l (ev_index e) = Some (ev_server e).
Proof.
  revert t. induction idxs as [|i r IH]; intros t; cbn; [tauto|].
  destruct (Py.getitem l i) eqn:G; cbn; [|tauto].
  intros [<-|H]; cbn; eauto.
Qed.

Lemma dead_world_probes l t idxs :
  (forall t' sv, alive w t' sv = false) -> Forall dead (probes w l t idxs).
Proof.
  intros Hw. revert t. induction idxs as [|i r IH]; intros t; cbn; [constructor|].
  destruct (Py.getitem l i); constructor; auto. apply Hw.
Qed.

Lemma skipn_nth_error (A : Type) (l : list A) n x :
  nth_error l n = Some x -> skipn n l = x :: skipn (S n) l.
Proof.
  revert n. induction l as [|y l IH]; intros [|n]; cbn; try discriminate.
  - intros [= ->]. reflexivity.
  - intros H. rewrite (IH n H). reflexivity.
Qed.

Lemma probes_servers_zseq l k : forall a t,
  0 <= a -> a + Z.of_nat k <= Py.len l ->
  map ev_server (probes w l t (zseq a k)) = firstn k (skipn (Z.to_nat a) l).
Proof.
  induction k as [|k IH]; intros a t Ha Hk; cbn [zseq probes]; [reflexivity|].
  rewrite getitem_in_range by lia.
  destruct (nth_error l (Z.to_nat a)) as [sv|] eqn:E.
  - rewrite (skipn_nth_error _ _ E). cbn. f_equal.
    rewrite IH by lia. replace (Z.to_nat (a + 1)) with (S (Z.to_nat a)) by lia.
    reflexivity.
  - apply nth_error_None in E. unfold Py.len in Hk. lia.
Qed.

Lemma probes_servers_circular l t s :
  0 <= s <= Py.len l ->
  map ev_server (probes w l t (circular s (Py.len l))) =
    skipn (Z.to_nat s) l ++ firstn (Z.to_nat s) l.
Proof.
  intros Hs. unfold circular.
  rewrite probes_app by (intros i Hi; apply zseq_range in Hi; lia).
  rewrite map_app, !probes_servers_zseq by lia.
  cbn [Z.to_nat skipn]. f_equal.
  apply firstn_all2. rewrite length_skipn. unfold Py.len. lia.
Qed.

Lemma rotation_Permutation (A : Type) (l : list A) n :
  Permutation (skipn n l ++ firstn n l) l.
Proof.
  rewrite Permutation_app_comm, firstn_skipn. reflexivity.
Qed.
End TraceFacts.

(** ** A pass that must exhaust *)

Section Selection.
Variable w : World.

(** One pass of the circular scan that must exhaust. *)
Lemma find_active_server_exhaust fuel starting s :
  0 <= starting <= Py.len (State.servers (self s)) ->
  exists evs rest,
    snd (ServerPoolState.find_active_server w (S fuel) starting true s) = advance evs s /\
    honest w (clock (cenv s)) evs /\
    Permutation (map ev_server evs ++ rest) (State.servers (self s)) /\
    ((exists i ds e,
        fst (ServerPoolState.find_active_server w (S fuel) starting true s) = Return i /\
        evs = ds ++ [e] /\ Forall dead ds /\ ev_live e = true /\
        Py.getitem (State.servers (self s)) i = Some (ev_server e)) \/
     (exists msg,
        fst (ServerPoolState.find_active_server w (S fuel) starting true s) =
          Raise (LDAPServerPoolExhaustedError msg) /\
        Forall dead evs /\ rest = [])).
Proof.
  intros Hs. rewrite find_active_server_pass by exact Hs. cbv zeta.
  set (l := State.servers (self s)).
  set (all := probes w l (clock (cenv s)) (circular starting (Py.len l))).
  assert (Hservers : Permutation (map ev_server all) l).
  { subst all. rewrite probes_servers_circular by exact Hs.
    apply rotation_Permutation. }
  destruct (hit all) as [i|] eqn:H.
  - destruct (hit_cut_some _ H) as (ds & e & Hc & Hd & Hl & Hi).
    destruct (cut_prefix all) as [rest Hrest].
    exists (cut all), (map ev_server rest). cbn [fst snd].
    split; [reflexivity|].
    split.
    { pose proof (probes_honest w l (clock (cenv s)) (circular starting (Py.len l))) as Hh.
      fold all in Hh. rewrite Hrest in Hh. apply honest_app in Hh. tauto. }
    split; [rewrite <- map_app, <- Hrest; exact Hservers|].
    left. exists i, ds, e. repeat split; auto.
    rewrite <- Hi. apply (@probes_getitem w l (clock (cenv s)) (circular starting (Py.len l))).
    fold all. rewrite Hrest, Hc. apply in_or_app. left. apply in_or_app. right. now left.
  - exists all, []. cbn [fst snd].
    split; [reflexivity|]. split; [apply probes_honest|].
    split; [rewrite app_nil_r; exact Hservers|].
    right. eexists. split; [reflexivity|]. split; [apply hit_none_dead; exact H|reflexivity].
Qed.

(** One pass of the random scan that must exhaust. *)
Lemma find_active_random_server_exhaust fuel s :
  exists evs rest,
    snd (ServerPoolState.find_active_random_server w (S fuel) true s) =
      drawn (List.length evs) (advance evs s) /\
    honest w (clock (cenv s)) evs /\
    Permutation (map ev_server evs ++ rest) (State.servers (self s)) /\
    ((exists i ds e,
        fst (ServerPoolState.find_active_random_server w (S fuel) true s) = Return i /\
        evs = ds ++ [e] /\ Forall dead ds /\ ev_live e = true /\
        Py.index Server_eqb (State.servers (self s)) (ev_server e) = Some i) \/
     (exists msg,
        fst (ServerPoolState.find_active_random_server w (S fuel) true s) =
          Raise (LDAPServerPoolExhaustedError msg) /\
        Forall dead evs /\ rest = [])).
Proof.
  cbn [ServerPoolState.find_active_random_server].
  unfold bind at 1 3 5. unfold ServerPoolState.get_servers, gets.
  unfold bind.
  destruct (@sample_spec w (List.length (State.servers (self s)))
              (State.servers (self s)) s (le_n _) (incl_refl _))
    as (evs & rest & Hs & Hh & Hp & Hcase).
  destruct (ServerPoolState.sample w _ _ s) as [o s'] eqn:Hrun.
  cbn [fst snd] in *. subst s'.
  exists evs, rest.
  destruct Hcase as [(-> & Hd & ->)|(r & ds & e & -> & -> & Hd & Hl & Hidx)].
  - cbn [fst snd]. unfold raise. cbn [fst snd].
    split; [reflexivity|]. split; [exact Hh|]. split; [exact Hp|].
    right. eexists. split; [reflexivity|]. split; [exact Hd|reflexivity].
  - cbn [fst snd]. unfold ret. cbn [fst snd].
    split; [reflexivity|]. split; [exact Hh|]. split; [exact Hp|].
    left. exists r, ds, e. repeat split; auto.
Qed.
End Selection.

(** ** A world in which no server ever answers *)

Section Divergence.
Variable w : World.
Hypothesis never_alive : forall t sv, alive w t sv = false.

Lemma find_active_server_diverges fuel : forall starting s,
  0 <= starting <= Py.len (State.servers (self s)) ->
  fst (ServerPoolState.find_active_server w fuel starting false s) = OutOfFuel.
Proof.
  induction fuel as [|fuel IH]; intros starting s Hs; [reflexivity|].
  rewrite find_active_server_pass by exact Hs. cbv zeta.
  rewrite dead_no_hit by (apply dead_world_probes; exact never_alive).
  apply IH. exact Hs.
Qed.

Lemma honest_dead t evs : honest w t evs -> Forall dead evs.
Proof.
  revert t. induction evs as [|e r IH]; intros t; cbn; [constructor|].
  intros [He Hr]. constructor; [|eapply IH; eauto].
  unfold dead. rewrite He. apply never_alive.
Qed.

Lemma find_active_random_server_diverges fuel : forall s,
  fst (ServerPoolState.find_active_random_server w fuel false s) = OutOfFuel.
Proof.
  induction fuel as [|fuel IH]; intros s; [reflexivity|].
  cbn [ServerPoolState.find_active_random_server].
  unfold bind at 1. unfold ServerPoolState.get_servers, gets. unfold bind.
  destruct (@sample_spec w (List.length (State.servers (self s)))
              (State.servers (self s)) s (le_n _) (incl_refl _))
    as (evs & rest & Hs & Hh & Hp & Hcase).
  destruct (ServerPoolState.sample w _ _ s) as [o s'] eqn:Hrun.
  cbn [fst snd] in *.
  destruct Hcase as [(-> & Hd & ->)|(r & ds & e & -> & -> & Hd & Hl & Hidx)].
  - apply IH.
  - apply honest_dead in Hh. apply Forall_app in Hh. destruct Hh as [_ He].
    inversion He as [|? ? He' _]; subst. unfold dead in He'. congruence.
Qed.
End Divergence.

(** ** [get_server] with the liveness filter *)

Section GetServer.
Variable w : World.

Lemma get_server_active fuel p s x rest :
  State.servers (self s) = x :: rest ->
  Pool.active p = true ->
  ServerPoolState.get_server w fuel p s =
    match
      match Pool.strategy p with
      | FIRST => ServerPoolState.find_active_server w fuel 0 (Pool.exhaust p) s
      | ROUND_ROBIN =>
          ServerPoolState.find_active_server w fuel
            (State.last_used_server (self s) + 1) (Pool.exhaust p) s
      | RANDOM => ServerPoolState.find_active_random_server w fuel (Pool.exhaust p) s
      | UNKNOWN _ =>
          (Raise (LDAPUnknownStrategyError "unknown server pooling strategy"), s)
      end
    with
    | (Return i, s') =>
        (match Py.getitem (State.servers (self s')) i with
         | Some sv => Return sv
         | None => Raise IndexError
         end,
         map_self (fun st => {| State.servers := State.servers st;
                                State.last_used_server := i |}) s')
    | (Raise e, s') => (Raise e, s')
    | (OutOfFuel, s') => (OutOfFuel, s')
    end.
Proof.
  intros Hl Ha. unfold ServerPoolState.get_server.
  unfold bind at 1. unfold ServerPoolState.get_servers at 1. unfold gets at 1.
  rewrite Hl, Ha. unfold bind at 1.
  destruct (Pool.strategy p).
  - unfold bind at 1.
    destruct (ServerPoolState.find_active_server w fuel 0 (Pool.exhaust p) s)
      as [[i|e|] s']; try reflexivity.
    cbn. unfold list_getitem. cbn. destruct (Py.getitem _ i); reflexivity.
  - unfold bind at 1. unfold ServerPoolState.get_last_used_server at 1.
    unfold gets at 1. unfold bind at 1.
    destruct (ServerPoolState.find_active_server w fuel _ (Pool.exhaust p) s)
      as [[i|e|] s']; try reflexivity.
    cbn. unfold list_getitem. cbn. destruct (Py.getitem _ i); reflexivity.
  - unfold bind at 1.
    destruct (ServerPoolState.find_active_random_server w fuel (Pool.exhaust p) s)
      as [[i|e|] s']; try reflexivity.
    cbn. unfold list_getitem. cbn. destruct (Py.getitem _ i); reflexivity.
  - reflexivity.
Qed.
End GetServer.

(** ** Termination under [exhaust] *)

Section Totality.
Variable w : World.

Lemma scan_total n : forall index bound s,
  (Z.to_nat (bound - index) <= n)%nat ->
  fst (ServerPoolState.scan w n index bound s) <> OutOfFuel.
Proof.
  induction n as [|n IH]; intros index bound s Hn; cbn [ServerPoolState.scan];
    destruct (index <? bound) eqn:E; try (cbn; discriminate).
  - apply Z.ltb_lt in E. lia.
  - apply Z.ltb_lt in E.
    unfold bind at 1. unfold ServerPoolState.get_servers, gets.
    unfold bind at 1. unfold list_getitem.
    destruct (Py.getitem (State.servers (self s)) index); [|cbn; discriminate].
    unfold ret at 1. unfold bind at 1. rewrite check_availability_run.
    destruct (alive w (clock (cenv s)) s0); [cbn; discriminate|].
    apply IH. lia.
Qed.

Lemma find_active_server_total fuel starting s :
  fst (ServerPoolState.find_active_server w (S fuel) starting true s) <> OutOfFuel.
Proof.
  cbn [ServerPoolState.find_active_server].
  unfold bind at 1. unfold ServerPoolState.get_servers, gets. unfold bind at 1.
  pose proof (@scan_total (Z.to_nat (Py.len (State.servers (self s)) - starting))
                starting (Py.len (State.servers (self s))) s (le_n _)) as H1.
  destruct (ServerPoolState.scan w _ starting _ s) as [[[b i]|e|] s1];
    cbn [fst snd] in *; try discriminate; [|congruence].
  destruct b; [cbn; discriminate|].
  unfold bind at 1.
  pose proof (@scan_total (Z.to_nat starting) 0 starting s1) as H2.
  rewrite Z.sub_0_r in H2. specialize (H2 (le_n _)).
  destruct (ServerPoolState.scan w _ 0 starting s1) as [[[b i0]|e|] s2];
    cbn [fst snd] in *; try discriminate; [|congruence].
  destruct b; cbn; discriminate.
Qed.

Lemma pop_length (l : list Server) i x rest :
  Py.pop l i = Some (x, rest) -> S (List.length rest) = List.length l.
Proof.
  unfold Py.pop, Py.getitem.
  set (j := Py.norm l i).
  destruct ((0 <=? j) && (j <? Py.len l)) eqn:E; [|discriminate].
  apply andb_true_iff in E. destruct E as [E1 E2].
  apply Z.leb_le in E1. apply Z.ltb_lt in E2. unfold Py.len in E2.
  destruct (nth_error l (Z.to_nat j)); [|discriminate].
  intros H. injection H as _ <-.
  change (match l with [] => [] | _ :: l0 => skipn (Z.to_nat j) l0 end)
    with (skipn (S (Z.to_nat j)) l).
  rewrite length_app, length_firstn, length_skipn. lia.
Qed.

Lemma sample_total n : forall temp s,
  (List.length temp <= n)%nat ->
  fst (ServerPoolState.sample w n temp s) <> OutOfFuel.
Proof.
  induction n as [|n IH]; intros temp s Hn; destruct temp as [|x0 t0];
    try (cbn; discriminate); [cbn in Hn; lia|].
  cbn [ServerPoolState.sample]. unfold bind at 1.
  destruct (randint w 0 (Py.len (x0 :: t0) - 1) s) as [[i|e|] s1] eqn:R;
    try (cbn; discriminate).
  { unfold bind at 1. unfold list_pop.
    destruct (Py.pop (x0 :: t0) i) as [[y rest]|] eqn:P; [|cbn; discriminate].
    unfold ret at 1. cbn [fst snd]. unfold bind at 1.
    rewrite check_availability_run.
    destruct (alive w (clock (cenv s1)) y).
    - unfold bind, ServerPoolState.get_servers, gets, list_index, ret, raise.
      destruct (Py.index Server_eqb _ y); cbn; discriminate.
    - apply IH. apply pop_length in P. cbn in P, Hn. lia. }
  unfold randint in R. destruct (_ <? _); cbn in R; discriminate.
Qed.

Lemma find_active_random_server_total fuel s :
  fst (ServerPoolState.find_active_random_server w (S fuel) true s) <> OutOfFuel.
Proof.
  cbn [ServerPoolState.find_active_random_server].
  unfold bind at 1. unfold ServerPoolState.get_servers, gets. unfold bind.
  pose proof (@sample_total (List.length (State.servers (self s)))
                (State.servers (self s)) s (le_n _)) as H.
  destruct (ServerPoolState.sample w _ _ s) as [[[r|]|e|] s1];
    cbn [fst snd] in *; try discriminate. congruence.
Qed.

Lemma get_server_total fuel p s :
  Pool.active p = true -> Pool.exhaust p = true ->
  fst (ServerPoolState.get_server w (S fuel) p s) <> OutOfFuel.
Proof.
  intros Ha He.
  destruct (State.servers (self s)) as [|x rest] eqn:Hl.
  - unfold ServerPoolState.get_server, bind, ServerPoolState.get_servers, gets.
    rewrite Hl. cbn. discriminate.
  - rewrite (get_server_active w (S fuel) p s Hl Ha), He.
    destruct (Pool.strategy p).
    + pose proof (find_active_server_total fuel 0 s) as H.
      destruct (ServerPoolState.find_active_server w (S fuel) 0 true s) as [[i|e|] s'];
        cbn [fst snd] in *; try discriminate; [|congruence].
      destruct (Py.getitem _ i); discriminate.
    + pose proof (find_active_server_total fuel (State.last_used_server (self s) + 1) s) as H.
      destruct (ServerPoolState.find_active_server w (S fuel) _ true s) as [[i|e|] s'];
        cbn [fst snd] in *; try discriminate; [|congruence].
      destruct (Py.getitem _ i); discriminate.
    + pose proof (find_active_random_server_total fuel s) as H.
      destruct (ServerPoolState.find_active_random_server w (S fuel) true s) as [[i|e|] s'];
        cbn [fst snd] in *; try discriminate; [|congruence].
      destruct (Py.getitem _ i); discriminate.
    + cbn. discriminate.
Qed.
End Totality.

(** ** The dictionary of cursors *)

Section Registry.
Variable w : World.

Lemma lookup_store_same c v d :
  ServerPool.lookup c (ServerPool.store c v d) = Some v.
Proof.
  induction d as [|[k x] d IH]; cbn.
  - now rewrite Nat.eqb_refl.
  - destruct (Nat.eqb k c) eqn:E; cbn.
    + now rewrite Nat.eqb_refl.
    + now rewrite E.
Qed.

Lemma lookup_store_other c c' v d :
  c' <> c -> ServerPool.lookup c' (ServerPool.store c v d) = ServerPool.lookup c' d.
Proof.
  intros Hne. induction d as [|[k x] d IH]; cbn.
  - destruct (Nat.eqb c c') eqn:E; [apply Nat.eqb_eq in E; congruence|reflexivity].
  - destruct (Nat.eqb k c) eqn:E; cbn.
    + apply Nat.eqb_eq in E. subst k.
      destruct (Nat.eqb c c') eqn:E'; [apply Nat.eqb_eq in E'; congruence|reflexivity].
    + destruct (Nat.eqb k c'); [reflexivity|exact IH].
Qed.

Lemma store_lookup c v d :
  ServerPool.lookup c d = Some v -> ServerPool.store c v d = d.
Proof.
  induction d as [|[k x] d IH]; cbn; [discriminate|].
  destruct (Nat.eqb k c) eqn:E.
  - intros [= ->]. apply Nat.eqb_eq in E. now subst.
  - intros H. now rewrite IH.
Qed.

Lemma store_store c v v' d :
  ServerPool.lookup c d <> None ->
  ServerPool.store c v' (ServerPool.store c v d) = ServerPool.store c v' d.
Proof.
  induction d as [|[k x] d IH]; cbn; [congruence|].
  destruct (Nat.eqb k c) eqn:E; cbn.
  - now rewrite Nat.eqb_refl.
  - rewrite E. intros H. now rewrite IH.
Qed.

Lemma lookup_registered c d :
  ServerPool.lookup c d <> None <-> In c (map fst d).
Proof.
  induction d as [|[k x] d IH]; cbn; [tauto|].
  destruct (Nat.eqb k c) eqn:E.
  - apply Nat.eqb_eq in E. split; [auto|discriminate].
  - apply Nat.eqb_neq in E. rewrite IH. tauto.
Qed.

Lemma contains_In (x : Server) l : Py.contains Server_eqb x l = true <-> In x l.
Proof.
  unfold Py.contains. rewrite existsb_exists. split.
  - intros (y & Hy & E). apply Server_eqb_eq in E. now subst.
  - intros H. exists x. split; [exact H|]. now apply Server_eqb_eq.
Qed.

(** [refresh] on a pool that has servers. *)
Lemma refresh_run p s :
  Pool.servers p <> [] ->
  ServerPoolState.refresh w p s =
    (Return tt,
     drawn 1
       {| self := {| State.servers := Pool.servers p;
                     State.last_used_server :=
                       0 + entropy w (draws (cenv s))
                             mod (Py.len (Pool.servers p) - 1 - 0 + 1) |};
          cenv := cenv s |}).
Proof.
  intros Hne. unfold ServerPoolState.refresh.
  unfold bind, ServerPoolState.set_servers, ServerPoolState.get_servers,
    ServerPoolState.set_last_used_server, modify, gets, map_self.
  cbn [self cenv State.servers].
  rewrite randint_run.
  - reflexivity.
  - destruct (Pool.servers p); [congruence|]. unfold Py.len. cbn [List.length]. lia.
Qed.

(** [refresh] on a pool without servers: the snapshot is emptied and the
    draw over the empty range raises. *)
Lemma refresh_empty p s :
  Pool.servers p = [] ->
  ServerPoolState.refresh w p s =
    (Raise ValueError,
     {| self := {| State.servers := [];
                   State.last_used_server := State.last_used_server (self s) |};
        cenv := cenv s |}).
Proof.
  intros He. unfold ServerPoolState.refresh.
  unfold bind, ServerPoolState.set_servers, ServerPoolState.get_servers,
    ServerPoolState.set_last_used_server, modify, gets, map_self.
  cbn [self cenv State.servers]. rewrite He. reflexivity.
Qed.
End Registry.

(** ** The refresh broadcast *)

Section Broadcast.
Variable w : World.

Lemma on_state_registered (A : Type) c (m : M CState A) s st :
  ServerPool.lookup c (Pool.pool_states (pool s)) = Some st ->
  ServerPool.on_state c m s =
    (fst (m {| self := st; cenv := penv s |}),
     {| pool := ServerPool.with_pool_states
                  (ServerPool.store c (self (snd (m {| self := st; cenv := penv s |})))
                     (Pool.pool_states (pool s)))
                  (pool s);
        penv := cenv (snd (m {| self := st; cenv := penv s |})) |}).
Proof.
  intros H. unfold ServerPool.on_state. rewrite H. reflexivity.
Qed.

Lemma refresh_each_servers cs : forall s,
  Pool.servers (pool (snd (ServerPool.refresh_each w cs s))) = Pool.servers (pool s).
Proof.
  induction cs as [|c cs IH]; intros s; [reflexivity|].
  cbn [ServerPool.refresh_each]. unfold bind at 1. unfold gets at 1.
  unfold bind at 1.
  assert (E : Pool.servers (pool (snd (ServerPool.on_state c
                (ServerPoolState.refresh w (pool s)) s))) = Pool.servers (pool s)).
  { unfold ServerPool.on_state.
    destruct (ServerPool.lookup c _); reflexivity. }
  destruct (ServerPool.on_state c (ServerPoolState.refresh w (pool s)) s)
    as [[[]|e|] s1]; cbn [fst snd] in *; auto.
  rewrite IH. exact E.
Qed.

Lemma refresh_each_raises cs : forall s e,
  fst (ServerPool.refresh_each w cs s) = Raise e ->
  e = ValueError \/ e = KeyError.
Proof.
  induction cs as [|c cs IH]; intros s e; [cbn; discriminate|].
  cbn [ServerPool.refresh_each]. unfold bind at 1. unfold gets at 1.
  unfold bind at 1.
  destruct (ServerPool.on_state c (ServerPoolState.refresh w (pool s)) s)
    as [[[]|e'|] s1] eqn:Hon; cbn [fst snd]; try discriminate.
  - apply IH.
  - intros [= <-]. unfold ServerPool.on_state in Hon.
    destruct (ServerPool.lookup c _) as [st|].
    + destruct (Pool.servers (pool s)) as [|x l] eqn:Hl.
      * rewrite refresh_empty in Hon by exact Hl. cbn in Hon.
        injection Hon as <- _. now left.
      * rewrite refresh_run in Hon by congruence. cbn in Hon. discriminate.
    + injection Hon as <- _. now right.
Qed.

Lemma refresh_each_returns cs : forall s,
  Pool.servers (pool s) <> [] ->
  (forall c, In c cs -> ServerPool.lookup c (Pool.pool_states (pool s)) <> None) ->
  exists s',
    ServerPool.refresh_each w cs s = (Return tt, s') /\
    (forall c, In c cs ->
       exists st, ServerPool.lookup c (Pool.pool_states (pool s')) = Some st /\
                  State.servers st = Pool.servers (pool s) /\
                  0 <= State.last_used_server st < Py.len (State.servers st)) /\
    (forall c, ~ In c cs ->
       ServerPool.lookup c (Pool.pool_states (pool s')) =
       ServerPool.lookup c (Pool.pool_states (pool s))).
Proof.
  induction cs as [|c0 cs IH]; intros s Hne Hreg.
  - exists s. split; [reflexivity|]. split; [intros c []|reflexivity].
  - cbn [ServerPool.refresh_each]. unfold bind at 1. unfold gets at 1.
    unfold bind at 1.
    destruct (ServerPool.lookup c0 (Pool.pool_states (pool s))) as [st0|] eqn:L0;
      [|exfalso; apply (Hreg c0); [now left|exact L0]].
    rewrite (on_state_registered _ _ _ L0), refresh_run by exact Hne.
    cbn [fst snd self cenv drawn].
    set (st1 := {| State.servers := Pool.servers (pool s); State.last_used_server := _ |}).
    set (s1 := {| pool := _; penv := _ |}).
    assert (Hst1 : 0 <= State.last_used_server st1 < Py.len (State.servers st1)).
    { subst st1. cbn [State.last_used_server State.servers].
      assert (1 <= Py.len (Pool.servers (pool s))).
      { destruct (Pool.servers (pool s)); [congruence|].
        unfold Py.len. cbn [List.length]. lia. }
      pose proof (randint_range w (a:=0) (b:=Py.len (Pool.servers (pool s)) - 1)
                    (draws (penv s))). lia. }
    destruct (IH s1) as (s' & Hrun & HA & HB).
    { exact Hne. }
    { intros c Hc. subst s1. cbn.
      destruct (Nat.eq_dec c c0) as [->|Hn].
      - rewrite lookup_store_same. discriminate.
      - rewrite lookup_store_other by exact Hn. apply Hreg. now right. }
    exists s'. split; [exact Hrun|]. split.
    + intros c [<-|Hc].
      * destruct (in_dec Nat.eq_dec c0 cs) as [Hi|Hi].
        -- apply HA. exact Hi.
        -- exists st1. rewrite (HB c0 Hi). subst s1. cbn.
           rewrite lookup_store_same. auto.
      * apply HA. exact Hc.
    + intros c Hc. rewrite HB by (intros Hi; apply Hc; now right).
      subst s1. cbn. apply lookup_store_other. intros ->. apply Hc. now left.
Qed.

(** A broadcast over an empty endpoint list raises at the first cursor. *)
Lemma refresh_each_empty c cs s :
  Pool.servers (pool s) = [] ->
  ServerPool.lookup c (Pool.pool_states (pool s)) <> None ->
  fst (ServerPool.refresh_each w (c :: cs) s) =
    Raise ValueError.
Proof.
  intros He Hreg. cbn [ServerPool.refresh_each]. unfold bind at 1. unfold gets at 1.
  unfold bind at 1.
  destruct (ServerPool.lookup c (Pool.pool_states (pool s))) as [st|] eqn:L;
    [|congruence].
  rewrite (on_state_registered _ _ _ L), refresh_empty by exact He. reflexivity.
Qed.

(** What a broadcast that returns has done. *)
Lemma notify_returns s s' :
  ServerPool.notify w s = (Return tt, s') ->
  Pool.servers (pool s') = Pool.servers (pool s) /\ all_refreshed s s'.
Proof.
  unfold ServerPool.notify. unfold bind, ServerPool.get_pool_states, gets.
  intros Hrun.
  split.
  { rewrite <- (refresh_each_servers (map fst (Pool.pool_states (pool s))) s).
    now rewrite Hrun. }
  destruct (Pool.pool_states (pool s)) as [|[c0 st0] d] eqn:Hd.
  - cbn in Hrun. injection Hrun as <-. intros c. rewrite Hd. cbn. split; congruence.
  - destruct (Pool.servers (pool s)) as [|x l] eqn:Hl.
    + exfalso. cbn [map fst] in Hrun.
      pose proof (@refresh_each_empty c0 (map fst d) s Hl) as H.
      rewrite Hrun in H. cbn in H. rewrite Hd in H. cbn in H.
      rewrite Nat.eqb_refl in H. specialize (H ltac:(discriminate)). discriminate.
    + destruct (@refresh_each_returns (map fst (Pool.pool_states (pool s))) s)
        as (s2 & Hrun2 & HA & HB).
      { congruence. }
      { intros c Hc. apply lookup_registered. exact Hc. }
      rewrite Hd in Hrun2. rewrite Hrun2 in Hrun. injection Hrun as <-.
      assert (Hsv : Pool.servers (pool s2) = Pool.servers (pool s)).
      { rewrite <- (refresh_each_servers (map fst (Pool.pool_states (pool s))) s).
        rewrite Hd. now rewrite Hrun2. }
      intros c. split.
      * intros Hn. rewrite HB; [exact Hn|].
        intros Hi. apply lookup_registered in Hi. congruence.
      * intros Hr. apply lookup_registered in Hr.
        destruct (HA c Hr) as (st & H1 & H2 & H3).
        exists st. rewrite Hsv. auto.
Qed.

Lemma notify_servers s :
  Pool.servers (pool (snd (ServerPool.notify w s))) = Pool.servers (pool s).
Proof.
  unfold ServerPool.notify. unfold bind, ServerPool.get_pool_states, gets.
  apply refresh_each_servers.
Qed.

Lemma notify_raises s e :
  fst (ServerPool.notify w s) = Raise e ->
  e = ValueError \/ e = KeyError.
Proof.
  unfold ServerPool.notify. unfold bind, ServerPool.get_pool_states, gets.
  apply refresh_each_raises.
Qed.
End Broadcast.

(** ** Mutations of the registry *)

Section Mutation.
Variable w : World.

Lemma with_servers_same s :
  ServerPool.map_pool (ServerPool.with_servers (Pool.servers (pool s))) s = s.
Proof. destruct s as [[l d a e g] env]. reflexivity. Qed.

Lemma convert_accepted xs svs : convert xs = Some svs -> accepted xs = svs.
Proof.
  revert svs. induction xs as [|x xs IH]; cbn; intros svs.
  - now intros [= <-].
  - destruct (as_server x); [|discriminate].
    destruct (convert xs) as [r|]; [|discriminate].
    intros [= <-]. now rewrite (IH r).
Qed.

(** The loop of [add] appends the elements it accepts and raises at the
    first one it does not. *)
Lemma add_each_run xs : forall s,
  ServerPool.add_each xs s =
    (match convert xs with
     | Some _ => Return tt
     | None => Raise (LDAPServerPoolError "server in ServerPool must be a Server")
     end,
     ServerPool.map_pool
       (ServerPool.with_servers (Pool.servers (pool s) ++ accepted xs)) s).
Proof.
  induction xs as [|x xs IH]; intros s.
  - cbn. rewrite app_nil_r, with_servers_same. reflexivity.
  - cbn [ServerPool.add_each convert accepted]. unfold bind at 1.
    destruct x as [|sv|a|ys|]; cbn [as_server];
      try (unfold raise; rewrite app_nil_r, with_servers_same; reflexivity).
    + unfold ServerPool.append, modify. rewrite IH. cbn.
      rewrite <- app_assoc. destruct (convert xs); reflexivity.
    + unfold ServerPool.append, modify. rewrite IH. cbn.
      rewrite <- app_assoc. destruct (convert xs); reflexivity.
Qed.

Lemma all_refreshed_from s1 s s' :
  Pool.pool_states (pool s1) = Pool.pool_states (pool s) ->
  all_refreshed s1 s' -> all_refreshed s s'.
Proof. unfold all_refreshed. intros <-. auto. Qed.

Lemma remove_contains (l : list Server) x :
  Py.contains Server_eqb x l = true -> exists r, Py.remove Server_eqb l x = Some r.
Proof.
  induction l as [|y l IH]; cbn; [discriminate|].
  destruct (Server_eqb y x); cbn; [eauto|].
  intros H. destruct (IH H) as [r ->]. eauto.
Qed.

Lemma then_notify_returns (m : M PState unit) s s1 s' :
  m s = (Return tt, s1) ->
  bind m (fun _ => ServerPool.notify w) s = (Return tt, s') ->
  Pool.servers (pool s') = Pool.servers (pool s1) /\ all_refreshed s1 s'.
Proof.
  intros Hm. unfold bind. rewrite Hm. apply notify_returns.
Qed.

Lemma then_notify_pool_error (m : M PState unit) s s1 msg s' :
  m s = (Return tt, s1) ->
  bind m (fun _ => ServerPool.notify w) s <> (Raise (LDAPServerPoolError msg), s').
Proof.
  intros Hm. unfold bind. rewrite Hm. intros H.
  destruct (@notify_raises w s1 (LDAPServerPoolError msg)) as [E|E];
    try discriminate.
  now rewrite H.
Qed.

Lemma then_notify_raised (m : M PState unit) s s1 e :
  m s = (Raise e, s1) ->
  bind m (fun _ => ServerPool.notify w) s = (Raise e, s1).
Proof. intros Hm. unfold bind. now rewrite Hm. Qed.

End Mutation.

(** ** Initialisation of a cursor *)

Lemma initialize_empty_run
  (w : World) (d : list (Conn * State.t)) (g : Strategy) (a e : bool)
  (env : Env) (c : Conn) :
  ServerPool.initialize w c {| pool := policy [] d g a e; penv := env |} =
    (Raise ValueError,
     {| pool := policy [] d g a e; penv := env |}).
Proof. destruct env. reflexivity. Qed.

(** ** The endpoint list after [add] *)

Section AddFacts.
Variable w : World.

Lemma add_servers x s :
  Pool.servers (pool (snd (ServerPool.add w x s))) =
    match x with
    | PyServer e =>
        if Py.contains Server_eqb e (Pool.servers (pool s))
        then Pool.servers (pool s) else Pool.servers (pool s) ++ [e]
    | PyStr a => Pool.servers (pool s) ++ [{| address := a |}]
    | PySeq xs => Pool.servers (pool s) ++ accepted xs
    | _ => Pool.servers (pool s)
    end.
Proof.
  unfold ServerPool.add. unfold bind at 1.
  destruct x as [|e|a|xs|].
  - reflexivity.
  - unfold bind, ServerPool.get_servers, gets.
    destruct (Py.contains Server_eqb e (Pool.servers (pool s))); cbn [negb].
    + apply notify_servers.
    + unfold ServerPool.append, modify. rewrite notify_servers. reflexivity.
  - unfold ServerPool.append, modify. rewrite notify_servers. reflexivity.
  - rewrite add_each_run. destruct (convert xs); [|reflexivity].
    rewrite notify_servers. reflexivity.
  - reflexivity.
Qed.
End AddFacts.

(** ** Round robin *)

Section RoundRobin.
Variable w : World.
Variable fuel : nat.
Variable c : Conn.

Lemma set_cursor_same s st :
  ServerPool.lookup c (Pool.pool_states (pool s)) = Some st -> set_cursor c st s = s.
Proof.
  intros H. unfold set_cursor. rewrite (store_lookup _ _ H).
  destruct s as [[l d a e g] env]. reflexivity.
Qed.

Lemma set_cursor_twice s st st' :
  ServerPool.lookup c (Pool.pool_states (pool s)) <> None ->
  set_cursor c st' (set_cursor c st s) = set_cursor c st' s.
Proof.
  intros H. unfold set_cursor. cbn. now rewrite store_store.
Qed.

Lemma lookup_set_cursor s st :
  ServerPool.lookup c (Pool.pool_states (pool (set_cursor c st s))) = Some st.
Proof. unfold set_cursor. cbn. apply lookup_store_same. Qed.

(** One call under [ROUND_ROBIN] without the liveness filter. *)
Lemma get_server_round_robin s l i x :
  Pool.strategy (pool s) = ROUND_ROBIN ->
  Pool.active (pool s) = false ->
  ServerPool.lookup c (Pool.pool_states (pool s)) = Some (at_index l i) ->
  l <> [] ->
  Py.getitem l (if i + 1 <? Py.len l then i + 1 else 0) = Some x ->
  ServerPool.get_server w fuel c s =
    (Return x,
     set_cursor c (at_index l (if i + 1 <? Py.len l then i + 1 else 0)) s).
Proof.
  intros Hg Ha Hl Hne Hx. unfold ServerPool.get_server.
  unfold bind at 1. unfold ServerPool.get_pool_states at 1. unfold gets at 1.
  rewrite Hl. unfold bind at 1. unfold gets at 1.
  rewrite (on_state_registered _ _ _ Hl).
  unfold ServerPoolState.get_server. rewrite Hg, Ha.
  destruct l as [|y l']; [congruence|].
  unfold bind, ServerPoolState.get_servers, ServerPoolState.get_last_used_server,
    ServerPoolState.set_last_used_server, gets, modify, map_self, list_getitem.
  cbn [self cenv State.servers State.last_used_server at_index fst snd].
  rewrite Hx. reflexivity.
Qed.

Lemma calls_app n m s :
  calls w fuel c (n + m) s =
    (xs <- calls w fuel c n;; ys <- calls w fuel c m;; ret (xs ++ ys)) s.
Proof.
  revert s. induction n as [|n IH]; intros s.
  - cbn. unfold bind, ret. destruct (calls w fuel c m s) as [[ys|e|] s']; reflexivity.
  - cbn [Nat.add calls]. unfold bind, ret.
    destruct (ServerPool.get_server w fuel c s) as [[x|e|] s1]; try reflexivity.
    rewrite IH. unfold bind, ret.
    destruct (calls w fuel c n s1) as [[xs|e|] s2]; try reflexivity.
    destruct (calls w fuel c m s2) as [[ys|e|] s3]; reflexivity.
Qed.

(** Calls that do not reach the end of the snapshot read it in order. *)
Lemma calls_ahead l n : forall i s,
  Pool.strategy (pool s) = ROUND_ROBIN ->
  Pool.active (pool s) = false ->
  ServerPool.lookup c (Pool.pool_states (pool s)) = Some (at_index l i) ->
  -1 <= i -> i + Z.of_nat n < Py.len l ->
  calls w fuel c n s =
    (Return (firstn n (skipn (Z.to_nat (i + 1)) l)),
     set_cursor c (at_index l (i + Z.of_nat n)) s).
Proof.
  induction n as [|n IH]; intros i s Hg Ha Hl Hi Hn.
  - cbn. rewrite Z.add_0_r, (set_cursor_same _ Hl). reflexivity.
  - cbn [calls]. unfold bind at 1.
    assert (Hlt : (i + 1 <? Py.len l) = true) by (apply Z.ltb_lt; lia).
    destruct (getitem_some l (i:=i + 1)) as [x Hx]; [lia|].
    rewrite (@get_server_round_robin s l i x Hg Ha Hl); cycle 1.
    { intros ->. unfold Py.len in Hn. cbn in Hn. lia. }
    { rewrite Hlt. exact Hx. }
    rewrite Hlt. unfold bind at 1.
    rewrite (IH (i + 1)); try assumption; try lia.
    2:{ apply lookup_set_cursor. }
    unfold ret. f_equal.
    + f_equal. rewrite getitem_in_range in Hx by lia.
      rewrite (skipn_nth_error _ _ Hx). cbn [firstn]. f_equal.
      replace (Z.to_nat (i + 1 + 1)) with (S (Z.to_nat (i + 1))) by lia. reflexivity.
    + rewrite set_cursor_twice by (rewrite Hl; discriminate).
      do 2 f_equal. lia.
Qed.

(** A full turn: as many calls as the snapshot has servers. *)
Lemma calls_cycle s l i :
  Pool.strategy (pool s) = ROUND_ROBIN ->
  Pool.active (pool s) = false ->
  ServerPool.lookup c (Pool.pool_states (pool s)) = Some (at_index l i) ->
  0 <= i < Py.len l ->
  calls w fuel c (List.length l) s = (Return (rotation l (i + 1)), s).
Proof.
  intros Hg Ha Hl Hi.
  assert (Hreg : ServerPool.lookup c (Pool.pool_states (pool s)) <> None)
    by (rewrite Hl; discriminate).
  destruct l as [|x0 tl] eqn:El; [unfold Py.len in Hi; cbn in Hi; lia|].
  rewrite <- El in *.
  assert (Hlen : Py.len l = Z.of_nat (List.length l)) by reflexivity.
  replace (List.length l)
    with ((List.length l - 1 - Z.to_nat i) + (1 + Z.to_nat i))%nat by lia.
  rewrite calls_app. unfold bind at 1.
  rewrite (@calls_ahead l _ i s Hg Ha Hl) by lia.
  replace (i + Z.of_nat (List.length l - 1 - Z.to_nat i)) with (Py.len l - 1) by lia.
  set (s1 := set_cursor c _ s).
  unfold bind at 1. rewrite calls_app. unfold bind at 1.
  cbn [calls]. unfold bind at 1.
  rewrite (@get_server_round_robin s1 l (Py.len l - 1) x0); try assumption.
  2:{ apply lookup_set_cursor. }
  2:{ rewrite El. discriminate. }
  2:{ replace (Py.len l - 1 + 1 <? Py.len l) with false
        by (symmetry; apply Z.ltb_ge; lia).
      rewrite El. reflexivity. }
  replace (Py.len l - 1 + 1 <? Py.len l) with false
    by (symmetry; apply Z.ltb_ge; lia).
  subst s1. rewrite set_cursor_twice by exact Hreg.
  unfold bind, ret.
  rewrite (@calls_ahead l _ 0 (set_cursor c (at_index l 0) s)); try assumption;
    try lia.
  2:{ apply lookup_set_cursor. }
  rewrite set_cursor_twice by exact Hreg.
  replace (0 + Z.of_nat (Z.to_nat i)) with i by lia.
  rewrite (set_cursor_same _ Hl).
  unfold ret, rotation. f_equal. f_equal.
  rewrite firstn_all2 by (rewrite length_skipn; lia).
  f_equal. replace (Z.to_nat (i + 1)) with (S (Z.to_nat i)) by lia.
  rewrite El. reflexivity.
Qed.
End RoundRobin.

Lemma rotation_nth (l : list Server) (a : Z) (k : nat) :
  0 <= a <= Py.len l -> (k < List.length l)%nat ->
  nth_error (rotation l a) k =
    nth_error l (Z.to_nat ((a + Z.of_nat k) mod Py.len l)).
Proof.
  intros Ha Hk. unfold rotation, Py.len in *.
  destruct (Z_lt_ge_dec (a + Z.of_nat k) (Z.of_nat (List.length l))) as [H|H].
  - rewrite Z.mod_small by lia.
    rewrite nth_error_app1 by (rewrite length_skipn; lia).
    rewrite nth_error_skipn. f_equal. lia.
  - replace ((a + Z.of_nat k) mod Z.of_nat (List.length l))
      with (a + Z.of_nat k - Z.of_nat (List.length l)).
    2:{ apply Z.mod_unique with (q := 1); lia. }
    rewrite nth_error_app2 by (rewrite length_skipn; lia).
    rewrite length_skipn, nth_error_firstn.
    destruct (Nat.ltb_spec (k - (List.length l - Z.to_nat a)) (Z.to_nat a)); [|lia].
    f_equal. lia.
Qed.

(** ** What a random scan returns *)

Section RandomReturns.
Variable w : World.

(** Whatever the fuel and the exhaustion policy, a random scan that
    returns has just probed a live server and returns where
    [self.servers.index] finds it. *)
Lemma find_active_random_server_returns fuel : forall exhaust s r s',
  ServerPoolState.find_active_random_server w fuel exhaust s = (Return r, s') ->
  exists evs e,
    trace (cenv s') = trace (cenv s) ++ evs ++ [e] /\
    ev_live e = true /\
    Py.index Server_eqb (State.servers (self s)) (ev_server e) = Some r.
Proof.
  induction fuel as [|fuel IH]; intros exhaust s r s' Hrun; [discriminate|].
  cbn [ServerPoolState.find_active_random_server] in Hrun.
  unfold bind at 1 in Hrun. unfold ServerPoolState.get_servers, gets in Hrun.
  unfold bind in Hrun.
  destruct (@sample_spec w (List.length (State.servers (self s)))
              (State.servers (self s)) s (le_n _) (incl_refl _))
    as (evs & rest & Hs & Hh & Hp & Hcase).
  destruct (ServerPoolState.sample w _ _ s) as [o s1].
  cbn [fst snd] in *. subst s1.
  destruct Hcase as [(-> & Hd & ->)|(i & ds & e & -> & -> & Hd & Hl & Hidx)].
  - destruct exhaust; [discriminate|].
    apply IH in Hrun. destruct Hrun as (evs' & e & Ht & Hl & Hidx).
    exists (evs ++ evs'), e. cbn in Ht, Hidx.
    rewrite Ht, <- !app_assoc. auto.
  - unfold ret in Hrun. injection Hrun as <- <-.
    exists ds, e. cbn. auto.
Qed.
End RandomReturns.

(** ** Validity of the cursor *)

Section CursorValidity.
Variable w : World.

Lemma hit_In evs i : hit evs = Some i -> In i (map ev_index evs).
Proof.
  induction evs as [|e r IH]; cbn; [discriminate|].
  destruct (ev_live e); [intros [= <-]; now left|]. intros H. right. auto.
Qed.

Lemma find_active_server_range fuel : forall exhaust starting s,
  0 <= starting <= Py.len (State.servers (self s)) ->
  self (snd (ServerPoolState.find_active_server w fuel starting exhaust s)) = self s /\
  forall i,
    fst (ServerPoolState.find_active_server w fuel starting exhaust s) = Return i ->
    0 <= i < Py.len (State.servers (self s)).
Proof.
  induction fuel as [|fuel IH]; intros exhaust starting s Hs.
  - split; [reflexivity|]. cbn. discriminate.
  - rewrite find_active_server_pass by exact Hs. cbv zeta.
    destruct (hit _) as [i|] eqn:H.
    + split; [reflexivity|]. cbn. intros i' [= <-].
      apply hit_In in H. rewrite probes_index in H.
      * apply circular_In in H; assumption.
      * intros j Hj. apply circular_In in Hj; assumption.
    + destruct exhaust.
      * split; [reflexivity|]. cbn. discriminate.
      * apply (IH false starting (advance _ s)). exact Hs.
Qed.

Lemma find_active_random_server_range fuel : forall exhaust s,
  self (snd (ServerPoolState.find_active_random_server w fuel exhaust s)) = self s /\
  forall i,
    fst (ServerPoolState.find_active_random_server w fuel exhaust s) = Return i ->
    0 <= i < Py.len (State.servers (self s)).
Proof.
  induction fuel as [|fuel IH]; intros exhaust s.
  - split; [reflexivity|]. cbn. discriminate.
  - cbn [ServerPoolState.find_active_random_server].
    unfold bind at 1 3. unfold ServerPoolState.get_servers, gets. unfold bind.
    destruct (@sample_spec w (List.length (State.servers (self s)))
                (State.servers (self s)) s (le_n _) (incl_refl _))
      as (evs & rest & Hs & Hh & Hp & Hcase).
    destruct (ServerPoolState.sample w _ _ s) as [o s1].
    cbn [fst snd] in *. subst s1.
    destruct Hcase as [(-> & Hd & ->)|(i & ds & e & -> & -> & Hd & Hl & Hidx)].
    + destruct exhaust.
      * split; [reflexivity|]. cbn. discriminate.
      * apply (IH false (drawn _ (advance evs s))).
    + split; [reflexivity|]. cbn. intros i' [= <-].
      apply index_first in Hidx. tauto.
Qed.

Lemma get_server_inactive fuel p s x tl :
  State.servers (self s) = x :: tl ->
  Pool.active p = false ->
  ServerPoolState.get_server w fuel p s =
    match
      match Pool.strategy p with
      | FIRST => (Return 0, s)
      | ROUND_ROBIN =>
          (Return (if State.last_used_server (self s) + 1 <? Py.len (x :: tl)
                   then State.last_used_server (self s) + 1 else 0), s)
      | RANDOM => randint w 0 (Py.len (x :: tl)) s
      | UNKNOWN _ =>
          (Raise (LDAPUnknownStrategyError "unknown server pooling strategy"), s)
      end
    with
    | (Return i, s') =>
        (match Py.getitem (State.servers (self s')) i with
         | Some sv => Return sv
         | None => Raise IndexError
         end,
         map_self (fun st => {| State.servers := State.servers st;
                                State.last_used_server := i |}) s')
    | (Raise e, s') => (Raise e, s')
    | (OutOfFuel, s') => (OutOfFuel, s')
    end.
Proof.
  intros Hl Ha. unfold ServerPoolState.get_server.
  unfold bind at 1. unfold ServerPoolState.get_servers at 1. unfold gets at 1.
  rewrite Hl, Ha. unfold bind at 1.
  destruct (Pool.strategy p).
  - cbn. unfold list_getitem. cbn. destruct (Py.getitem _ 0); reflexivity.
  - unfold bind at 1. unfold ServerPoolState.get_last_used_server at 1.
    unfold gets at 1. cbn. unfold list_getitem. cbn.
    destruct (Py.getitem _ _); reflexivity.
  - unfold bind at 1.
    destruct (randint w 0 (Py.len (x :: tl)) s) as [[i|e|] s']; try reflexivity.
    cbn. unfold list_getitem. cbn. destruct (Py.getitem _ i); reflexivity.
  - reflexivity.
Qed.

(** Every way of choosing a server but one leaves the cursor on a valid
    index: the first server, the next server, and the three scans. *)
Lemma get_server_cursor_valid fuel p s :
  In (Pool.strategy p) POOLING_STRATEGIES ->
  (Pool.strategy p = RANDOM -> Pool.active p = true) ->
  State.servers (self s) <> [] ->
  0 <= State.last_used_server (self s) < Py.len (State.servers (self s)) ->
  State.servers (self (snd (ServerPoolState.get_server w fuel p s))) =
    State.servers (self s) /\
  0 <= State.last_used_server (self (snd (ServerPoolState.get_server w fuel p s)))
    < Py.len (State.servers (self s)).
Proof.
  intros Hg Hr Hne Hc.
  destruct (State.servers (self s)) as [|x tl] eqn:Hl; [congruence|].
  assert (Hlen : 1 <= Py.len (x :: tl)) by (unfold Py.len; cbn [List.length]; lia).
  destruct (Pool.active p) eqn:Ha.
  - rewrite (get_server_active w fuel p s Hl Ha).
    destruct (Pool.strategy p) as [| | |tag].
    + destruct (@find_active_server_range fuel (Pool.exhaust p) 0 s) as [Hself Hi].
      { rewrite Hl. lia. }
      destruct (ServerPoolState.find_active_server w fuel 0 (Pool.exhaust p) s)
        as [[i|e|] s']; cbn [fst snd] in *; rewrite ?Hself, ?Hl; auto.
      cbn. rewrite Hself, Hl. split; [reflexivity|].
      specialize (Hi i eq_refl). rewrite Hl in Hi. exact Hi.
    + destruct (@find_active_server_range fuel (Pool.exhaust p)
                  (State.last_used_server (self s) + 1) s) as [Hself Hi].
      { rewrite Hl. lia. }
      destruct (ServerPoolState.find_active_server w fuel _ (Pool.exhaust p) s)
        as [[i|e|] s']; cbn [fst snd] in *; rewrite ?Hself, ?Hl; auto.
      cbn. rewrite Hself, Hl. split; [reflexivity|].
      specialize (Hi i eq_refl). rewrite Hl in Hi. exact Hi.
    + destruct (@find_active_random_server_range fuel (Pool.exhaust p) s) as [Hself Hi].
      destruct (ServerPoolState.find_active_random_server w fuel (Pool.exhaust p) s)
        as [[i|e|] s']; cbn [fst snd] in *; rewrite ?Hself, ?Hl; auto.
      cbn. rewrite Hself, Hl. split; [reflexivity|].
      specialize (Hi i eq_refl). rewrite Hl in Hi. exact Hi.
    + cbn in Hg. intuition discriminate.
  - rewrite (get_server_inactive fuel p s Hl Ha).
    destruct (Pool.strategy p) as [| | |tag].
    + cbn [fst snd self map_self State.servers State.last_used_server].
      rewrite Hl. split; [reflexivity|lia].
    + destruct (State.last_used_server (self s) + 1 <? Py.len (x :: tl)) eqn:E;
        [apply Z.ltb_lt in E|];
        match goal with
        | |- context [Py.getitem ?l ?i] => destruct (Py.getitem l i)
        end; cbn [fst snd self map_self State.servers State.last_used_server];
        rewrite Hl; split; (reflexivity || lia).
    + specialize (Hr eq_refl). discriminate.
    + cbn in Hg. intuition discriminate.
Qed.

(** [refresh] and [__init__] draw over [0 .. len - 1]. *)
Lemma refresh_cursor_valid p s :
  Pool.servers p <> [] ->
  fst (ServerPoolState.refresh w p s) = Return tt /\
  State.servers (self (snd (ServerPoolState.refresh w p s))) = Pool.servers p /\
  0 <= State.last_used_server (self (snd (ServerPoolState.refresh w p s)))
    < Py.len (Pool.servers p).
Proof.
  intros Hne. rewrite refresh_run by exact Hne.
  cbn [fst snd self drawn State.servers State.last_used_server].
  split; [reflexivity|]. split; [reflexivity|].
  assert (1 <= Py.len (Pool.servers p)).
  { destruct (Pool.servers p); [congruence|]. unfold Py.len. cbn [List.length]. lia. }
  pose proof (randint_range w (a:=0) (b:=Py.len (Pool.servers p) - 1)
                (draws (cenv s))). lia.
Qed.

Lemma init_cursor_valid p env :
  Pool.servers p <> [] ->
  exists i env',
    ServerPoolState.init w p {| self := ServerPoolState.blank; cenv := env |} =
      (Return tt, {| self := at_index (Pool.servers p) i; cenv := env' |}) /\
    0 <= i < Py.len (Pool.servers p).
Proof.
  intros Hne.
  assert (Hlen : 1 <= Py.len (Pool.servers p)).
  { destruct (Pool.servers p); [congruence|]. unfold Py.len. cbn [List.length]. lia. }
  unfold ServerPoolState.init.
  unfold bind at 1. unfold ServerPoolState.set_servers at 1.
  unfold modify at 1. unfold bind at 1.
  rewrite refresh_run by exact Hne.
  unfold bind, ServerPoolState.get_servers, ServerPoolState.set_last_used_server,
    gets, modify, map_self.
  cbn [self cenv drawn State.servers State.last_used_server].
  rewrite randint_run by lia.
  cbn [fst snd self drawn State.servers State.last_used_server].
  eexists. eexists. split; [reflexivity|].
  match goal with
  | |- context [entropy w ?n] =>
      pose proof (randint_range w (a:=0) (b:=Py.len (Pool.servers p) - 1) n)
  end. lia.
Qed.
End CursorValidity.

(** ** An emptied registry *)

(** Removing the last server of a registry that owns a cursor applies the
    removal and then raises in the broadcast: [refresh] empties the
    snapshot of the cursor and draws over the empty range. *)
Example remove_last_server :
  ServerPool.remove world_live srvA
    (registry [srvA] [(1%nat, at_index [srvA] 0)] ROUND_ROBIN true false) =
  (Raise ValueError,
   registry [] [(1%nat, at_index [] 0)] ROUND_ROBIN true false).
Proof. reflexivity. Qed.

(** * The claims *)

(** Claim C2 (circular scan).  Entered at [starting], with
    [0 <= starting <= len], a pass of [find_active_server] probes the
    snapshot in the circular order [starting, ..., len-1, 0, ...,
    starting-1], an order that holds every index once.  When the first [k]
    probes of that order answer dead and the next one live, the call
    returns the index probed last, having made exactly these [k + 1]
    probes.  When every probe of the order answers dead, exactly these
    [len] probes were made; the call then raises under [exhaust] and
    otherwise goes on as the same call entered after them. *)
Theorem find_active_server_circular_scan
  (w : World) (fuel : nat) (exhaust : bool) (s : CState) (starting : Z) :
  let l := State.servers (self s) in
  let order := circular starting (Py.len l) in
  let t := clock (cenv s) in
  0 <= starting <= Py.len l ->
  NoDup order /\
  (forall i, In i order <-> 0 <= i < Py.len l) /\
  (forall (k : nat) (live : Server),
     (k < List.length order)%nat ->
     (forall j sv, (j < k)%nat -> Py.getitem l (nth j order 0) = Some sv ->
                   alive w (t + j) sv = false) ->
     Py.getitem l (nth k order 0) = Some live ->
     alive w (t + k) live = true ->
     ServerPoolState.find_active_server w (S fuel) starting exhaust s =
       (Return (nth k order 0), advance (probes w l t (firstn (S k) order)) s) /\
     map ev_index (probes w l t (firstn (S k) order)) = firstn (S k) order) /\
  ((forall j sv, (j < List.length order)%nat ->
                 Py.getitem l (nth j order 0) = Some sv ->
                 alive w (t + j) sv = false) ->
   ServerPoolState.find_active_server w (S fuel) starting exhaust s =
     (if exhaust then
        (Raise (LDAPServerPoolExhaustedError
                  "no active server available in server pool"),
         advance (probes w l t order) s)
      else ServerPoolState.find_active_server w fuel starting exhaust
             (advance (probes w l t order) s)) /\
   map ev_index (probes w l t order) = order).
Proof.
  intros l order t Hs.
  assert (Hv : forall i, In i order -> 0 <= i < Py.len l)
    by (intros i; apply circular_In; exact Hs).
  split; [apply circular_NoDup; exact Hs|].
  split; [intros i; apply circular_In; exact Hs|].
  split.
  - intros k live Hk Hd Hg Hl. split.
    + destruct (@probes_first_live w l order t k live Hv Hd Hk Hg Hl) as [H1 H2].
      rewrite find_active_server_pass by exact Hs.
      fold l t order. rewrite H1, H2. reflexivity.
    + apply probes_index. intros i Hi. apply Hv.
      eapply firstn_In; eauto.
  - intros Hd. split.
    + rewrite find_active_server_pass by exact Hs.
      fold l t order.
      rewrite dead_no_hit by (apply probes_all_dead; exact Hd).
      destruct exhaust; reflexivity.
    + apply probes_index. exact Hv.
Qed.

Lemma find_active_server_circular_scan_witness :
  (ServerPoolState.find_active_server world_only_c 1 1 true
     (cursor [srvA; srvB; srvC] 0) =
   (Return 2,
    advance [ {| ev_index := 1; ev_server := srvB; ev_live := false |};
              {| ev_index := 2; ev_server := srvC; ev_live := true |} ]
            (cursor [srvA; srvB; srvC] 0))) /\
  (ServerPoolState.find_active_server world_dead 1 1 true
     (cursor [srvA; srvB; srvC] 0) =
   (Raise (LDAPServerPoolExhaustedError "no active server available in server pool"),
    advance [ {| ev_index := 1; ev_server := srvB; ev_live := false |};
              {| ev_index := 2; ev_server := srvC; ev_live := false |};
              {| ev_index := 0; ev_server := srvA; ev_live := false |} ]
            (cursor [srvA; srvB; srvC] 0))).
Proof.
  split.
  - refine (proj1 (proj1 (proj2 (proj2
      (@find_active_server_circular_scan world_only_c 0 true
         (cursor [srvA; srvB; srvC] 0) 1 _))) 1%nat srvC _ _ _ _)).
    + vm_compute. split; discriminate.
    + vm_compute. lia.
    + intros j sv Hj. assert (j = 0)%nat by lia. subst j.
      cbn. intros [= <-]. reflexivity.
    + reflexivity.
    + reflexivity.
  - refine (proj1 (proj2 (proj2 (proj2
      (@find_active_server_circular_scan world_dead 0 true
         (cursor [srvA; srvB; srvC] 0) 1 _))) _)).
    + vm_compute. split; discriminate.
    + intros j sv _ _. reflexivity.
Defined.

(** Claim C3 (exhaustion and termination).  With [active] set,
    [get_server] under [exhaust = True] always terminates; on a non-empty
    snapshot with a valid cursor and a known strategy it either returns a
    server whose probe, the last one made, answered live, or raises
    [LDAPServerPoolExhaustedError] after probing every server of the
    snapshot exactly once, all dead (circular and random scan alike).
    Under [exhaust = False], when no server ever answers, no amount of
    fuel lets the call return. *)
Theorem get_server_exhaustion (w : World) (p : Pool.t) :
  Pool.active p = true ->
  (Pool.exhaust p = true ->
   forall fuel s, fst (ServerPoolState.get_server w (S fuel) p s) <> OutOfFuel) /\
  (Pool.exhaust p = true ->
   forall fuel s,
     State.servers (self s) <> [] ->
     0 <= State.last_used_server (self s) < Py.len (State.servers (self s)) ->
     In (Pool.strategy p) POOLING_STRATEGIES ->
     let r := ServerPoolState.get_server w (S fuel) p s in
     exists evs rest,
       trace (cenv (snd r)) = trace (cenv s) ++ evs /\
       honest w (clock (cenv s)) evs /\
       Permutation (map ev_server evs ++ rest) (State.servers (self s)) /\
       ((exists sv ds e,
           fst r = Return sv /\ evs = ds ++ [e] /\ Forall dead ds /\
           ev_live e = true /\ ev_server e = sv) \/
        (exists msg,
           fst r = Raise (LDAPServerPoolExhaustedError msg) /\
           Forall dead evs /\ rest = []))) /\
  (Pool.exhaust p = false ->
   (forall t sv, alive w t sv = false) ->
   forall fuel s,
     State.servers (self s) <> [] ->
     0 <= State.last_used_server (self s) < Py.len (State.servers (self s)) ->
     In (Pool.strategy p) POOLING_STRATEGIES ->
     fst (ServerPoolState.get_server w fuel p s) = OutOfFuel).
Proof.
  intros Ha. split; [|split].
  - intros He fuel s. apply get_server_total; assumption.
  - intros He fuel s Hne Hc Hg r. subst r.
    destruct (State.servers (self s)) as [|x tl] eqn:Hl; [congruence|].
    rewrite (get_server_active w (S fuel) p s Hl Ha), He.
    destruct (Pool.strategy p) as [| | |tag].
    + destruct (@find_active_server_exhaust w fuel 0 s)
        as (evs & rest & Hs & Hh & Hp & Hcase).
      { rewrite Hl. unfold Py.len. cbn [List.length]. lia. }
      destruct (ServerPoolState.find_active_server w (S fuel) 0 true s) as [o s'].
      cbn [fst snd] in *. subst s'. exists evs, rest. rewrite Hl in Hp.
      destruct Hcase as [(i & ds & e & -> & -> & Hd & Hlv & Hgi)|(msg & -> & Hd & ->)].
      * cbn [self advance]. rewrite Hgi. cbn.
        repeat split; auto. left. exists (ev_server e), ds, e. repeat split; auto.
      * cbn. repeat split; auto. right. exists msg. repeat split; auto.
    + destruct (@find_active_server_exhaust w fuel (State.last_used_server (self s) + 1) s)
        as (evs & rest & Hs & Hh & Hp & Hcase).
      { rewrite Hl. lia. }
      destruct (ServerPoolState.find_active_server w (S fuel) _ true s) as [o s'].
      cbn [fst snd] in *. subst s'. exists evs, rest. rewrite Hl in Hp.
      destruct Hcase as [(i & ds & e & -> & -> & Hd & Hlv & Hgi)|(msg & -> & Hd & ->)].
      * cbn [self advance]. rewrite Hgi. cbn.
        repeat split; auto. left. exists (ev_server e), ds, e. repeat split; auto.
      * cbn. repeat split; auto. right. exists msg. repeat split; auto.
    + destruct (@find_active_random_server_exhaust w fuel s)
        as (evs & rest & Hs & Hh & Hp & Hcase).
      destruct (ServerPoolState.find_active_random_server w (S fuel) true s) as [o s'].
      cbn [fst snd] in *. subst s'. exists evs, rest. rewrite Hl in Hp.
      destruct Hcase as [(i & ds & e & -> & -> & Hd & Hlv & Hgi)|(msg & -> & Hd & ->)].
      * apply index_first in Hgi. destruct Hgi as (_ & Hgi & _).
        cbn [self advance drawn]. rewrite Hgi. cbn.
        repeat split; auto. left. exists (ev_server e), ds, e. repeat split; auto.
      * cbn. repeat split; auto. right. exists msg. repeat split; auto.
    + cbn in Hg. intuition discriminate.
  - intros He Hw fuel s Hne Hc Hg.
    destruct (State.servers (self s)) as [|x tl] eqn:Hl; [congruence|].
    rewrite (get_server_active w fuel p s Hl Ha), He.
    destruct (Pool.strategy p) as [| | |tag].
    + pose proof (@find_active_server_diverges w Hw fuel 0 s) as H.
      destruct (ServerPoolState.find_active_server w fuel 0 false s) as [o s'].
      cbn [fst] in H. rewrite H; [reflexivity|].
      rewrite Hl. unfold Py.len. cbn [List.length]. lia.
    + pose proof (@find_active_server_diverges w Hw fuel
                    (State.last_used_server (self s) + 1) s) as H.
      destruct (ServerPoolState.find_active_server w fuel _ false s) as [o s'].
      cbn [fst] in H. rewrite H; [reflexivity|]. rewrite Hl. lia.
    + pose proof (@find_active_random_server_diverges w Hw fuel s) as H.
      destruct (ServerPoolState.find_active_random_server w fuel false s) as [o s'].
      cbn [fst] in H. rewrite H. reflexivity.
    + cbn in Hg. intuition discriminate.
Qed.
Lemma get_server_exhaustion_witness :
  fst (ServerPoolState.get_server world_dead 1
         (policy [srvA; srvB; srvC] [] ROUND_ROBIN true true)
         (cursor [srvA; srvB; srvC] 1)) <> OutOfFuel /\
  (exists evs rest,
     trace (cenv (snd (ServerPoolState.get_server world_only_c 1
                         (policy [srvA; srvB; srvC] [] RANDOM true true)
                         (cursor [srvA; srvB; srvC] 1)))) = trace env0 ++ evs /\
     honest world_only_c 0 evs /\
     Permutation (map ev_server evs ++ rest) [srvA; srvB; srvC] /\
     ((exists sv ds e,
         fst (ServerPoolState.get_server world_only_c 1
                (policy [srvA; srvB; srvC] [] RANDOM true true)
                (cursor [srvA; srvB; srvC] 1)) = Return sv /\
         evs = ds ++ [e] /\ Forall dead ds /\ ev_live e = true /\ ev_server e = sv) \/
      (exists msg,
         fst (ServerPoolState.get_server world_only_c 1
                (policy [srvA; srvB; srvC] [] RANDOM true true)
                (cursor [srvA; srvB; srvC] 1)) = Raise (LDAPServerPoolExhaustedError msg) /\
         Forall dead evs /\ rest = []))) /\
  fst (ServerPoolState.get_server world_dead 9
         (policy [srvA; srvB; srvC] [] FIRST true false)
         (cursor [srvA; srvB; srvC] 1)) = OutOfFuel.
Proof.
  split; [|split].
  - apply (proj1 (@get_server_exhaustion world_dead
                    (policy [srvA; srvB; srvC] [] ROUND_ROBIN true true) eq_refl)).
    reflexivity.
  - apply (proj1 (proj2 (@get_server_exhaustion world_only_c
                    (policy [srvA; srvB; srvC] [] RANDOM true true) eq_refl))).
    + reflexivity.
    + discriminate.
    + vm_compute. split; [discriminate|reflexivity].
    + simpl. tauto.
  - apply (proj2 (proj2 (@get_server_exhaustion world_dead
                    (policy [srvA; srvB; srvC] [] FIRST true false) eq_refl))).
    + reflexivity.
    + reflexivity.
    + discriminate.
    + vm_compute. split; [discriminate|reflexivity].
    + simpl. tauto.
Defined.

(** Claim C4, as amended.  When [add] or [remove] returns, the mutation
    was applied in full and every registered cursor was refreshed: it holds
    the new endpoint list and a valid index.  When [remove] raises
    [LDAPServerPoolError], or [add] of anything but a sequence does, the
    registry is unchanged and no cursor was refreshed.  When [add] of a
    sequence raises [LDAPServerPoolError], no cursor was refreshed and the
    endpoint list has grown by the elements that precede the first
    invalid one. *)
Theorem add_remove_outcomes (w : World) (s : PState) :
  (forall x s',
     ServerPool.add w x s = (Return tt, s') ->
     expected (Pool.servers (pool s)) x = Some (Pool.servers (pool s')) /\
     all_refreshed s s') /\
  (forall x msg s',
     ServerPool.add w x s = (Raise (LDAPServerPoolError msg), s') ->
     Pool.pool_states (pool s') = Pool.pool_states (pool s) /\
     penv s' = penv s /\
     match x with
     | PySeq xs => Pool.servers (pool s') = Pool.servers (pool s) ++ accepted xs
     | _ => s' = s
     end) /\
  (forall sv s',
     ServerPool.remove w sv s = (Return tt, s') ->
     Py.remove Server_eqb (Pool.servers (pool s)) sv = Some (Pool.servers (pool s')) /\
     all_refreshed s s') /\
  (forall sv msg s',
     ServerPool.remove w sv s = (Raise (LDAPServerPoolError msg), s') -> s' = s).
Proof.
  split; [|split; [|split]].
  - intros x s' Hrun. unfold ServerPool.add in Hrun.
    destruct x as [|e|a|xs|]; cbn [expected].
    + unfold bind, raise in Hrun. discriminate.
    + destruct (Py.contains Server_eqb e (Pool.servers (pool s))) eqn:C.
      * apply (@then_notify_returns w _ s (s)) in Hrun.
        2:{ unfold bind, ServerPool.get_servers, gets. now rewrite C. }
        destruct Hrun as [Hs Hr]. now rewrite Hs.
      * apply (@then_notify_returns w _ s (ServerPool.map_pool
                        (ServerPool.with_servers (Pool.servers (pool s) ++ [e])) s))
          in Hrun.
        2:{ unfold bind, ServerPool.get_servers, gets. now rewrite C. }
        destruct Hrun as [Hs Hr]. rewrite Hs. split; [reflexivity|].
        eapply all_refreshed_from; [|exact Hr]. reflexivity.
    + apply (@then_notify_returns w _ s (ServerPool.map_pool
                      (ServerPool.with_servers
                         (Pool.servers (pool s) ++ [{| address := a |}])) s))
        in Hrun; [|reflexivity].
      destruct Hrun as [Hs Hr]. rewrite Hs. split; [reflexivity|].
      eapply all_refreshed_from; [|exact Hr]. reflexivity.
    + pose proof (add_each_run xs s) as Hm.
      destruct (convert xs) as [svs|] eqn:Hc.
      * apply (@then_notify_returns w _ _ _ _ Hm) in Hrun.
        destruct Hrun as [Hs Hr]. rewrite Hs. cbn.
        rewrite (convert_accepted _ Hc). split; [reflexivity|].
        eapply all_refreshed_from; [|exact Hr]. reflexivity.
      * rewrite (@then_notify_raised w _ _ _ _ Hm) in Hrun. discriminate.
    + unfold bind, raise in Hrun. discriminate.
  - intros x msg s' Hrun. unfold ServerPool.add in Hrun.
    destruct x as [|e|a|xs|].
    + unfold bind, raise in Hrun. injection Hrun as _ <-. auto.
    + exfalso. revert Hrun.
      destruct (Py.contains Server_eqb e (Pool.servers (pool s))) eqn:C.
      * apply (@then_notify_pool_error w _ s (s)).
        unfold bind, ServerPool.get_servers, gets. now rewrite C.
      * apply (@then_notify_pool_error w _ s (ServerPool.map_pool
                        (ServerPool.with_servers (Pool.servers (pool s) ++ [e])) s)).
        unfold bind, ServerPool.get_servers, gets. now rewrite C.
    + exfalso. revert Hrun.
      apply (@then_notify_pool_error w _ s (ServerPool.map_pool
                      (ServerPool.with_servers
                         (Pool.servers (pool s) ++ [{| address := a |}])) s)).
      reflexivity.
    + pose proof (add_each_run xs s) as Hm.
      destruct (convert xs) as [svs|] eqn:Hc.
      * exfalso. revert Hrun. apply (@then_notify_pool_error w _ _ _ _ _ Hm).
      * rewrite (@then_notify_raised w _ _ _ _ Hm) in Hrun.
        injection Hrun as _ <-. cbn. auto.
    + unfold bind, raise in Hrun. injection Hrun as _ <-. auto.
  - intros sv s' Hrun. unfold ServerPool.remove in Hrun.
    unfold bind at 1 in Hrun. unfold ServerPool.get_servers, gets in Hrun.
    destruct (Py.contains Server_eqb sv (Pool.servers (pool s))) eqn:C.
    + destruct (remove_contains _ _ C) as [r Hr].
      apply (@then_notify_returns w _ s
               (ServerPool.map_pool (ServerPool.with_servers r) s)) in Hrun.
      2:{ unfold bind, list_remove, ret, modify. rewrite Hr. reflexivity. }
      destruct Hrun as [Hs Ha]. rewrite Hs. split; [exact Hr|].
      eapply all_refreshed_from; [|exact Ha]. reflexivity.
    + rewrite (@then_notify_raised w _ s s
                 (LDAPServerPoolError "server not in server pool")) in Hrun.
      * discriminate.
      * reflexivity.
  - intros sv msg s' Hrun. unfold ServerPool.remove in Hrun.
    unfold bind at 1 in Hrun. unfold ServerPool.get_servers, gets in Hrun.
    destruct (Py.contains Server_eqb sv (Pool.servers (pool s))) eqn:C.
    + exfalso. revert Hrun.
      destruct (remove_contains _ _ C) as [r Hr].
      apply (@then_notify_pool_error w _ s
               (ServerPool.map_pool (ServerPool.with_servers r) s)).
      unfold bind, list_remove, ret, modify. rewrite Hr. reflexivity.
    + rewrite (@then_notify_raised w _ s s
                 (LDAPServerPoolError "server not in server pool")) in Hrun.
      * now injection Hrun as _ <-.
      * reflexivity.
Qed.

(** Claim C4, as stated, fails: an [add] of a sequence whose second
    element is invalid raises and leaves the first element appended. *)
Lemma add_sequence_not_atomic :
  fst (ServerPool.add world_dead (PySeq [PyServer srvC; PyNone]) registry_ab) =
    Raise (LDAPServerPoolError "server in ServerPool must be a Server") /\
  Pool.servers
    (pool (snd (ServerPool.add world_dead (PySeq [PyServer srvC; PyNone]) registry_ab))) =
    [srvA; srvB; srvC] /\
  Pool.servers
    (pool (snd (ServerPool.add world_dead (PySeq [PyServer srvC; PyNone]) registry_ab))) <>
    Pool.servers (pool registry_ab).
Proof.
  vm_compute. split; [reflexivity|]. split; [reflexivity|discriminate].
Qed.

Lemma add_remove_outcomes_witness :
  (expected [srvA; srvB] (PyStr "ldap-c") =
     Some (Pool.servers (pool (snd (ServerPool.add world_live (PyStr "ldap-c") registry_ab)))) /\
   all_refreshed registry_ab
     (snd (ServerPool.add world_live (PyStr "ldap-c") registry_ab))) /\
  (Pool.pool_states
     (pool (snd (ServerPool.add world_live (PySeq [PyServer srvC; PyOther]) registry_ab))) =
     Pool.pool_states (pool registry_ab) /\
   penv (snd (ServerPool.add world_live (PySeq [PyServer srvC; PyOther]) registry_ab)) =
     penv registry_ab /\
   Pool.servers
     (pool (snd (ServerPool.add world_live (PySeq [PyServer srvC; PyOther]) registry_ab))) =
     [srvA; srvB] ++ accepted [PyServer srvC; PyOther]) /\
  (Py.remove Server_eqb [srvA; srvB] srvA =
     Some (Pool.servers (pool (snd (ServerPool.remove world_live srvA registry_ab)))) /\
   all_refreshed registry_ab (snd (ServerPool.remove world_live srvA registry_ab))) /\
  snd (ServerPool.remove world_live srvC registry_ab) = registry_ab.
Proof.
  destruct (add_remove_outcomes world_live registry_ab) as (H1 & H2 & H3 & H4).
  split; [|split; [|split]].
  - apply H1. reflexivity.
  - apply (H2 (PySeq [PyServer srvC; PyOther])
              "server in ServerPool must be a Server"). reflexivity.
  - apply H3. reflexivity.
  - apply (H4 srvC "server not in server pool"). reflexivity.
Defined.
(** Claim C5 (the code misses it).  [initialize] on a registry without
    endpoints registers no cursor and leaves the registry as it was, but
    what it raises is the [ValueError] of [randint] over the empty range
    [0..-1], met in [refresh], not the [LDAPServerPoolError] the pool
    raises elsewhere for an empty pool. *)
Theorem initialize_empty_pool
  (w : World) (d : list (Conn * State.t)) (g : Strategy) (a e : bool)
  (env : Env) (c : Conn) :
  ServerPool.initialize w c {| pool := policy [] d g a e; penv := env |} =
    (Raise ValueError,
     {| pool := policy [] d g a e; penv := env |}) /\
  forall msg,
    fst (ServerPool.initialize w c {| pool := policy [] d g a e; penv := env |}) <>
      Raise (LDAPServerPoolError msg).
Proof.
  rewrite initialize_empty_run. split; [reflexivity|]. cbn. discriminate.
Qed.

(** Claim C10 (empty construction).  [ServerPool(None, g, a, e)] with a
    known strategy and without [exhaust and not active] returns a pool of
    length 0 that holds no cursor.  The empty pool is turned down later:
    [initialize] raises and registers nothing, and [get_server] raises for
    whatever connection asks. *)
Theorem empty_construction
  (w : World) (g : Strategy) (a e : bool) (env : Env) :
  In g POOLING_STRATEGIES ->
  (e = true -> a = true) ->
  ServerPool.new w PyNone g a e env = (Return (policy [] [] g a e), env) /\
  fst (ServerPool.len {| pool := policy [] [] g a e; penv := env |}) = Return 0 /\
  (forall c,
     exists err,
       ServerPool.initialize w c {| pool := policy [] [] g a e; penv := env |} =
         (Raise err, {| pool := policy [] [] g a e; penv := env |})) /\
  (forall fuel c,
     exists err,
       ServerPool.get_server w fuel c {| pool := policy [] [] g a e; penv := env |} =
         (Raise err, {| pool := policy [] [] g a e; penv := env |})).
Proof.
  intros Hg He.
  assert (Hx : e && negb a = false).
  { destruct e, a; auto. specialize (He eq_refl). discriminate. }
  split; [|split; [|split]].
  - unfold ServerPool.new, ServerPool.init.
    cbn in Hg. destruct Hg as [<-|[<-|[<-|[]]]]; cbn; rewrite Hx; destruct env; reflexivity.
  - reflexivity.
  - intros c. eexists. apply initialize_empty_run.
  - intros fuel c. eexists. reflexivity.
Qed.

Lemma empty_construction_witness :
  ServerPool.new world_live PyNone ROUND_ROBIN true false env0 =
    (Return (policy [] [] ROUND_ROBIN true false), env0).
Proof.
  refine (proj1 (@empty_construction world_live ROUND_ROBIN true false env0 _ _)).
  - simpl. tauto.
  - discriminate.
Defined.

(** Claim C7 (dedup asymmetry of [add]).  [add] of a single [Server]
    leaves the endpoint list as it is when an equal server is present and
    appends the server otherwise; [add] of a sequence whose elements are
    all valid appends every one of them, present or not.  So, for a server
    already present, adding it as a one-element sequence makes a duplicate
    and adding it alone does not. *)
Theorem add_dedup_asymmetry (w : World) (s : PState) (e : Server) (xs : list PyObj) :
  (In e (Pool.servers (pool s)) ->
   Pool.servers (pool (snd (ServerPool.add w (PyServer e) s))) = Pool.servers (pool s)) /\
  (~ In e (Pool.servers (pool s)) ->
   Pool.servers (pool (snd (ServerPool.add w (PyServer e) s))) =
     Pool.servers (pool s) ++ [e]) /\
  (forall svs,
     convert xs = Some svs ->
     Pool.servers (pool (snd (ServerPool.add w (PySeq xs) s))) =
       Pool.servers (pool s) ++ svs) /\
  (In e (Pool.servers (pool s)) ->
   Pool.servers (pool (snd (ServerPool.add w (PySeq [PyServer e]) s))) =
     Pool.servers (pool s) ++ [e] /\
   Pool.servers (pool (snd (ServerPool.add w (PySeq [PyServer e]) s))) <>
     Pool.servers (pool (snd (ServerPool.add w (PyServer e) s)))).
Proof.
  assert (Hin : In e (Pool.servers (pool s)) ->
                Pool.servers (pool (snd (ServerPool.add w (PyServer e) s))) =
                Pool.servers (pool s)).
  { intros H. rewrite add_servers. apply contains_In in H. now rewrite H. }
  split; [exact Hin|]. split; [|split].
  - intros H. rewrite add_servers.
    destruct (Py.contains Server_eqb e (Pool.servers (pool s))) eqn:C; [|reflexivity].
    apply contains_In in C. contradiction.
  - intros svs Hc. rewrite add_servers. now rewrite (convert_accepted _ Hc).
  - intros H. split.
    + rewrite add_servers. reflexivity.
    + rewrite (Hin H), add_servers. cbn [accepted as_server].
      intros E. apply (f_equal (@List.length Server)) in E.
      rewrite length_app in E. cbn in E. lia.
Qed.

Lemma add_dedup_asymmetry_witness :
  Pool.servers (pool (snd (ServerPool.add world_live (PyServer srvA) registry_ab))) =
    [srvA; srvB] /\
  Pool.servers (pool (snd (ServerPool.add world_live (PyServer srvC) registry_ab))) =
    [srvA; srvB; srvC] /\
  Pool.servers
    (pool (snd (ServerPool.add world_live (PySeq [PyServer srvA; PyStr "ldap-b"])
                  registry_ab))) =
    [srvA; srvB; srvA; srvB] /\
  Pool.servers (pool (snd (ServerPool.add world_live (PySeq [PyServer srvA]) registry_ab))) =
    [srvA; srvB; srvA].
Proof.
  split; [|split; [|split]].
  - apply (proj1 (add_dedup_asymmetry world_live registry_ab srvA [])).
    simpl. tauto.
  - apply (proj1 (proj2 (add_dedup_asymmetry world_live registry_ab srvC []))).
    simpl. intros [H|[H|[]]]; discriminate.
  - apply (proj1 (proj2 (proj2 (add_dedup_asymmetry world_live registry_ab srvA
                                  [PyServer srvA; PyStr "ldap-b"])))
             [srvA; srvB]).
    reflexivity.
  - apply (proj1 (proj2 (proj2 (proj2
             (add_dedup_asymmetry world_live registry_ab srvA [])))
             ltac:(simpl; tauto))).
Defined.

(** Claim C8 (a string is never deduplicated).  [add] of an address
    appends [Server(address)] whatever the endpoint list holds, whereas
    [add] of the equal [Server] object leaves a list that holds it
    unchanged. *)
Theorem add_string_never_dedups (w : World) (s : PState) (a : string) :
  Pool.servers (pool (snd (ServerPool.add w (PyStr a) s))) =
    Pool.servers (pool s) ++ [{| address := a |}] /\
  (In {| address := a |} (Pool.servers (pool s)) ->
   Pool.servers (pool (snd (ServerPool.add w (PyServer {| address := a |}) s))) =
     Pool.servers (pool s)).
Proof.
  split.
  - rewrite add_servers. reflexivity.
  - intros H. rewrite add_servers. apply contains_In in H. now rewrite H.
Qed.

Lemma add_string_never_dedups_witness :
  Pool.servers (pool (snd (ServerPool.add world_live (PyStr "ldap-a") registry_ab))) =
    [srvA; srvB; srvA] /\
  Pool.servers (pool (snd (ServerPool.add world_live (PyServer srvA) registry_ab))) =
    [srvA; srvB].
Proof.
  split.
  - apply (proj1 (add_string_never_dedups world_live registry_ab "ldap-a")).
  - apply (proj2 (add_string_never_dedups world_live registry_ab "ldap-a")).
    simpl. tauto.
Defined.

(** Claim C6 (round-robin cycle).  Under [ROUND_ROBIN] without the
    liveness filter, on a connection whose cursor stands at a valid index
    [i] of a snapshot of [N] servers (so [N >= 1]), [N] consecutive calls
    of [get_server] return the snapshot read from index [i + 1] on,
    wrapping around: the [k]-th answer is the server at index
    [(i + 1 + k) mod N], every server is returned once, and the registry
    is back in the state it started from, so the next [N] calls return the
    same sequence again. *)
Theorem round_robin_cycle
  (w : World) (fuel : nat) (c : Conn) (s : PState) (st : State.t) :
  Pool.strategy (pool s) = ROUND_ROBIN ->
  Pool.active (pool s) = false ->
  ServerPool.lookup c (Pool.pool_states (pool s)) = Some st ->
  0 <= State.last_used_server st < Py.len (State.servers st) ->
  let l := State.servers st in
  let turn := rotation l (State.last_used_server st + 1) in
  calls w fuel c (List.length l) s = (Return turn, s) /\
  calls w fuel c (List.length l + List.length l) s = (Return (turn ++ turn), s) /\
  Permutation turn l /\
  forall k, (k < List.length l)%nat ->
    nth_error turn k =
      nth_error l (Z.to_nat ((State.last_used_server st + 1 + Z.of_nat k) mod Py.len l)).
Proof.
  intros Hg Ha Hl Hi l turn.
  assert (Hturn : calls w fuel c (List.length l) s = (Return turn, s)).
  { destruct st as [l0 i0]. apply calls_cycle; assumption. }
  split; [exact Hturn|]. split; [|split].
  - rewrite calls_app. unfold bind. rewrite Hturn, Hturn. reflexivity.
  - apply rotation_Permutation.
  - intros k Hk. apply rotation_nth; [subst l; lia|exact Hk].
Qed.

Lemma round_robin_cycle_witness :
  calls world_dead 0 1%nat 3
    (registry [srvA; srvB; srvC] [(1%nat, at_index [srvA; srvB; srvC] 1)]
       ROUND_ROBIN false false) =
    (Return [srvC; srvA; srvB],
     registry [srvA; srvB; srvC] [(1%nat, at_index [srvA; srvB; srvC] 1)]
       ROUND_ROBIN false false).
Proof.
  refine (proj1 (@round_robin_cycle world_dead 0 1%nat
                   (registry [srvA; srvB; srvC]
                      [(1%nat, at_index [srvA; srvB; srvC] 1)]
                      ROUND_ROBIN false false)
                   (at_index [srvA; srvB; srvC] 1) _ _ _ _)).
  - reflexivity.
  - reflexivity.
  - reflexivity.
  - vm_compute. split; [discriminate|reflexivity].
Defined.

(** Claim C9 (the random scan answers a first occurrence).  Whenever
    [find_active_random_server] returns [r], the last probe made answered
    live, [r] is a valid index of the snapshot, the server at [r] equals
    the server probed, and no smaller index holds an equal server.  With
    a snapshot that holds a server twice, [r] can differ from the position
    popped: on [[srvA; srvA]] the scan pops position 1 and returns 0. *)
Theorem random_scan_first_occurrence :
  (forall (w : World) (fuel : nat) (exhaust : bool) (s s' : CState) (r : Z),
     ServerPoolState.find_active_random_server w fuel exhaust s = (Return r, s') ->
     exists evs e,
       trace (cenv s') = trace (cenv s) ++ evs ++ [e] /\
       ev_live e = true /\
       0 <= r < Py.len (State.servers (self s)) /\
       Py.getitem (State.servers (self s)) r = Some (ev_server e) /\
       forall j, 0 <= j < r ->
         Py.getitem (State.servers (self s)) j <> Some (ev_server e)) /\
  (exists s',
     ServerPoolState.find_active_random_server world_live 1 true
       (cursor [srvA; srvA] 0) = (Return 0, s') /\
     trace (cenv s') = [{| ev_index := 1; ev_server := srvA; ev_live := true |}]).
Proof.
  split.
  - intros w fuel exhaust s s' r Hrun.
    destruct (find_active_random_server_returns _ _ _ _ Hrun)
      as (evs & e & Ht & Hl & Hidx).
    apply index_first in Hidx. destruct Hidx as (Hr & Hg & Hf).
    exists evs, e. auto.
  - eexists. split; reflexivity.
Qed.

Lemma random_scan_first_occurrence_witness :
  exists evs e,
    trace (cenv (snd (ServerPoolState.find_active_random_server world_only_c 1 false
                        (cursor [srvA; srvB; srvC] 0)))) = trace env0 ++ evs ++ [e] /\
    ev_live e = true /\
    0 <= 2 < Py.len [srvA; srvB; srvC] /\
    Py.getitem [srvA; srvB; srvC] 2 = Some (ev_server e) /\
    forall j, 0 <= j < 2 -> Py.getitem [srvA; srvB; srvC] j <> Some (ev_server e).
Proof.
  apply (proj1 random_scan_first_occurrence world_only_c 1%nat false
           (cursor [srvA; srvB; srvC] 0)).
  reflexivity.
Defined.

(** Claim C1 (the code misses it).  Under [RANDOM] without the liveness
    filter the cursor is drawn by [randint(0, len(self.servers))], whose
    upper bound is inclusive: whenever the draw comes out at the upper
    bound, [get_server] leaves [last_used_server] equal to the length of
    the non-empty snapshot, one past its last index, and the indexing that
    follows raises [IndexError]. *)
Theorem get_server_random_inactive_out_of_range
  (w : World) (fuel : nat) (p : Pool.t) (s : CState) :
  Pool.strategy p = RANDOM ->
  Pool.active p = false ->
  State.servers (self s) <> [] ->
  entropy w (draws (cenv s)) mod (Py.len (State.servers (self s)) + 1) =
    Py.len (State.servers (self s)) ->
  fst (ServerPoolState.get_server w fuel p s) =
    Raise IndexError /\
  State.servers (self (snd (ServerPoolState.get_server w fuel p s))) =
    State.servers (self s) /\
  State.last_used_server (self (snd (ServerPoolState.get_server w fuel p s))) =
    Py.len (State.servers (self s)).
Proof.
  intros Hg Ha Hne Hr.
  destruct (State.servers (self s)) as [|x tl] eqn:Hl; [congruence|].
  rewrite (get_server_inactive w fuel p s Hl Ha), Hg.
  rewrite randint_run by (unfold Py.len; cbn [List.length]; lia).
  replace (Py.len (x :: tl) - 0 + 1) with (Py.len (x :: tl) + 1) by lia.
  rewrite Hr. cbn [self drawn State.servers]. rewrite Hl.
  rewrite (getitem_out_of_range (x :: tl) (i:=0 + Py.len (x :: tl))) by lia.
  cbn [fst snd self map_self drawn State.servers State.last_used_server].
  rewrite ?Hl. split; [reflexivity|]. split; [reflexivity|lia].
Qed.

Lemma get_server_random_inactive_out_of_range_witness :
  fst (ServerPoolState.get_server world_live 0
         (policy [srvA] [] RANDOM false false) (cursor [srvA] 0)) =
    Raise IndexError /\
  State.servers (self (snd (ServerPoolState.get_server world_live 0
         (policy [srvA] [] RANDOM false false) (cursor [srvA] 0)))) = [srvA] /\
  State.last_used_server (self (snd (ServerPoolState.get_server world_live 0
         (policy [srvA] [] RANDOM false false) (cursor [srvA] 0)))) = 1.
Proof.
  apply (@get_server_random_inactive_out_of_range world_live 0
           (policy [srvA] [] RANDOM false false) (cursor [srvA] 0)).
  - reflexivity.
  - reflexivity.
  - discriminate.
  - reflexivity.
Defined.

(** * Further properties of the module *)

(** ** Selection leaves the snapshot alone *)

Section SnapshotKept.
Variable w : World.

Lemma scan_self n : forall index bound s,
  self (snd (ServerPoolState.scan w n index bound s)) = self s.
Proof.
  induction n as [|n IH]; intros index bound s; cbn [ServerPoolState.scan];
    destruct (index <? bound); try reflexivity.
  unfold bind at 1. unfold ServerPoolState.get_servers, gets.
  unfold bind at 1. unfold list_getitem.
  destruct (Py.getitem (State.servers (self s)) index) as [sv|]; [|reflexivity].
  unfold ret at 1. unfold bind at 1. rewrite check_availability_run.
  destruct (alive w (clock (cenv s)) sv); [reflexivity|].
  rewrite IH. reflexivity.
Qed.

Lemma find_active_server_self fuel : forall starting exhaust s,
  self (snd (ServerPoolState.find_active_server w fuel starting exhaust s)) = self s.
Proof.
  induction fuel as [|fuel IH]; intros starting exhaust s; [reflexivity|].
  cbn [ServerPoolState.find_active_server].
  unfold bind at 1. unfold ServerPoolState.get_servers, gets. unfold bind at 1.
  pose proof (scan_self (Z.to_nat (Py.len (State.servers (self s)) - starting))
                starting (Py.len (State.servers (self s))) s) as H1.
  destruct (ServerPoolState.scan w _ starting _ s) as [[[b i]|e|] s1];
    cbn [fst snd] in *; try exact H1.
  destruct b; [exact H1|].
  unfold bind at 1.
  pose proof (scan_self (Z.to_nat starting) 0 starting s1) as H2.
  destruct (ServerPoolState.scan w _ 0 starting s1) as [[[b i0]|e|] s2];
    cbn [fst snd] in *; try congruence.
  destruct b; [cbn; congruence|].
  destruct exhaust; [cbn; congruence|].
  rewrite IH. congruence.
Qed.

Lemma sample_self n : forall temp s,
  self (snd (ServerPoolState.sample w n temp s)) = self s.
Proof.
  induction n as [|n IH]; intros temp s; destruct temp as [|x0 t0];
    try reflexivity.
  cbn [ServerPoolState.sample]. unfold bind at 1.
  assert (Hr : self (snd (randint w 0 (Py.len (x0 :: t0) - 1) s)) = self s).
  { unfold randint. destruct (_ <? _); reflexivity. }
  destruct (randint w 0 (Py.len (x0 :: t0) - 1) s) as [[i|e|] s1];
    cbn [fst snd] in *; try exact Hr.
  unfold bind at 1. unfold list_pop.
  destruct (Py.pop (x0 :: t0) i) as [[y rest]|]; [|exact Hr].
  unfold ret at 1. cbn [fst snd]. unfold bind at 1.
  rewrite check_availability_run.
  destruct (alive w (clock (cenv s1)) y).
  - unfold bind, ServerPoolState.get_servers, gets, list_index, ret, raise.
    destruct (Py.index Server_eqb _ y); exact Hr.
  - rewrite IH. exact Hr.
Qed.

Lemma find_active_random_server_self fuel : forall exhaust s,
  self (snd (ServerPoolState.find_active_random_server w fuel exhaust s)) = self s.
Proof.
  induction fuel as [|fuel IH]; intros exhaust s; [reflexivity|].
  cbn [ServerPoolState.find_active_random_server].
  unfold bind at 1. unfold ServerPoolState.get_servers, gets. unfold bind.
  pose proof (sample_self (List.length (State.servers (self s)))
                (State.servers (self s)) s) as H.
  destruct (ServerPoolState.sample w _ _ s) as [[[r|]|e|] s1];
    cbn [fst snd] in *; try exact H.
  destruct exhaust; [exact H|]. rewrite IH. exact H.
Qed.

(** The state [get_server] leaves and the answer it gives, from the index
    it chose. *)
Lemma get_server_snapshot fuel p s :
  State.servers (self (snd (ServerPoolState.get_server w fuel p s))) =
    State.servers (self s) /\
  forall x,
    fst (ServerPoolState.get_server w fuel p s) = Return x ->
    Py.getitem (State.servers (self s))
      (State.last_used_server (self (snd (ServerPoolState.get_server w fuel p s)))) =
      Some x.
Proof.
  destruct (State.servers (self s)) as [|y tl] eqn:Hl.
  { unfold ServerPoolState.get_server, bind, ServerPoolState.get_servers, gets.
    rewrite Hl. cbn. split; [exact Hl|discriminate]. }
  destruct (Pool.active p) eqn:Ha.
  - rewrite (get_server_active w fuel p s Hl Ha).
    destruct (Pool.strategy p) as [| | |tag].
    + pose proof (find_active_server_self fuel 0 (Pool.exhaust p) s) as H.
      destruct (ServerPoolState.find_active_server w fuel 0 (Pool.exhaust p) s)
        as [[i|e|] s']; cbn [fst snd] in *; rewrite ?H, ?Hl;
        try (split; [reflexivity|discriminate]).
      cbn [self map_self State.servers State.last_used_server]. rewrite H, Hl.
      split; [reflexivity|]. intros x. destruct (Py.getitem (y :: tl) i); congruence.
    + pose proof (find_active_server_self fuel (State.last_used_server (self s) + 1)
                    (Pool.exhaust p) s) as H.
      destruct (ServerPoolState.find_active_server w fuel _ (Pool.exhaust p) s)
        as [[i|e|] s']; cbn [fst snd] in *; rewrite ?H, ?Hl;
        try (split; [reflexivity|discriminate]).
      cbn [self map_self State.servers State.last_used_server]. rewrite H, Hl.
      split; [reflexivity|]. intros x. destruct (Py.getitem (y :: tl) i); congruence.
    + pose proof (find_active_random_server_self fuel (Pool.exhaust p) s) as H.
      destruct (ServerPoolState.find_active_random_server w fuel (Pool.exhaust p) s)
        as [[i|e|] s']; cbn [fst snd] in *; rewrite ?H, ?Hl;
        try (split; [reflexivity|discriminate]).
      cbn [self map_self State.servers State.last_used_server]. rewrite H, Hl.
      split; [reflexivity|]. intros x. destruct (Py.getitem (y :: tl) i); congruence.
    + cbn. split; [exact Hl|discriminate].
  - rewrite (get_server_inactive w fuel p s Hl Ha).
    destruct (Pool.strategy p) as [| | |tag].
    + cbn [fst snd self map_self State.servers State.last_used_server]. rewrite Hl.
      split; [reflexivity|]. intros x. destruct (Py.getitem (y :: tl) 0); congruence.
    + cbn [fst snd self map_self State.servers State.last_used_server]. rewrite Hl.
      split; [reflexivity|]. intros x.
      match goal with
      | |- context [Py.getitem ?l ?i] => destruct (Py.getitem l i)
      end; congruence.
    + assert (Hr : self (snd (randint w 0 (Py.len (y :: tl)) s)) = self s).
      { unfold randint. destruct (_ <? _); reflexivity. }
      destruct (randint w 0 (Py.len (y :: tl)) s) as [[i|e|] s'];
        cbn [fst snd] in *; rewrite ?Hr, ?Hl;
        try (split; [reflexivity|discriminate]).
      cbn [self map_self State.servers State.last_used_server]. rewrite Hr, Hl.
      split; [reflexivity|]. intros x. destruct (Py.getitem (y :: tl) i); congruence.
    + cbn. split; [exact Hl|discriminate].
Qed.
End SnapshotKept.

Lemma getitem_member (A : Type) (l : list A) i x : Py.getitem l i = Some x -> In x l.
Proof.
  unfold Py.getitem. destruct (_ && _); [|discriminate].
  apply nth_error_In.
Qed.

(** Property X1.  Whatever the strategy, the flags, the fuel and the
    outcome, [get_server] leaves the snapshot of its cursor as it was:
    only [refresh] writes [self.servers]. *)
Theorem get_server_keeps_snapshot
  (w : World) (fuel : nat) (p : Pool.t) (s : CState) :
  State.servers (self (snd (ServerPoolState.get_server w fuel p s))) =
    State.servers (self s).
Proof. apply (proj1 (get_server_snapshot w fuel p s)). Qed.

(** Property X2.  A server that [get_server] returns is a member of the
    snapshot, the one at the index the cursor was left on, and
    [get_current_server] called next returns the same server and changes
    nothing. *)
Theorem get_current_server_after_get_server
  (w : World) (fuel : nat) (p : Pool.t) (s : CState) (x : Server) :
  fst (ServerPoolState.get_server w fuel p s) = Return x ->
  In x (State.servers (self s)) /\
  ServerPoolState.get_current_server (snd (ServerPoolState.get_server w fuel p s)) =
    (Return x, snd (ServerPoolState.get_server w fuel p s)).
Proof.
  intros Hx. destruct (get_server_snapshot w fuel p s) as [Hs Hg].
  specialize (Hg x Hx). split.
  - eapply getitem_member. exact Hg.
  - unfold ServerPoolState.get_current_server, bind,
      ServerPoolState.get_servers, ServerPoolState.get_last_used_server,
      gets, list_getitem.
    rewrite Hs, Hg. reflexivity.
Qed.

Lemma get_current_server_after_get_server_witness :
  In srvC [srvA; srvB; srvC] /\
  ServerPoolState.get_current_server
    (snd (ServerPoolState.get_server world_only_c 1
            (policy [srvA; srvB; srvC] [] FIRST true false)
            (cursor [srvA; srvB; srvC] 1))) =
    (Return srvC,
     snd (ServerPoolState.get_server world_only_c 1
            (policy [srvA; srvB; srvC] [] FIRST true false)
            (cursor [srvA; srvB; srvC] 1))).
Proof.
  apply (@get_current_server_after_get_server world_only_c 1
           (policy [srvA; srvB; srvC] [] FIRST true false)
           (cursor [srvA; srvB; srvC] 1) srvC).
  reflexivity.
Defined.

(** ** Selection without the liveness filter *)

(** Property X3.  Without the liveness filter [get_server] makes no probe
    and needs no fuel: the clock and the trace are as before, whatever the
    strategy, and under [FIRST] and [ROUND_ROBIN] no random number is drawn
    either. *)
Theorem get_server_inactive_no_probe
  (w : World) (fuel : nat) (p : Pool.t) (s : CState) :
  Pool.active p = false ->
  fst (ServerPoolState.get_server w fuel p s) <> OutOfFuel /\
  clock (cenv (snd (ServerPoolState.get_server w fuel p s))) = clock (cenv s) /\
  trace (cenv (snd (ServerPoolState.get_server w fuel p s))) = trace (cenv s) /\
  (Pool.strategy p <> RANDOM ->
   cenv (snd (ServerPoolState.get_server w fuel p s)) = cenv s).
Proof.
  intros Ha.
  destruct (State.servers (self s)) as [|y tl] eqn:Hl.
  { unfold ServerPoolState.get_server, bind, ServerPoolState.get_servers, gets.
    rewrite Hl. cbn. repeat split; auto. discriminate. }
  rewrite (get_server_inactive w fuel p s Hl Ha).
  destruct (Pool.strategy p) as [| | |tag].
  - cbn. destruct (Py.getitem _ 0); repeat split; auto; discriminate.
  - cbn [fst snd]. 
    match goal with
    | |- context [Py.getitem ?l ?i] => destruct (Py.getitem l i)
    end; cbn; repeat split; auto; discriminate.
  - rewrite randint_run by (unfold Py.len; lia).
    cbn [fst snd self drawn cenv clock trace map_self].
    match goal with
    | |- context [Py.getitem ?l ?i] => destruct (Py.getitem l i)
    end; cbn; repeat split; auto; try discriminate; congruence.
  - cbn. repeat split; auto. discriminate.
Qed.

Lemma get_server_inactive_no_probe_witness :
  fst (ServerPoolState.get_server world_dead 0
         (policy [srvA; srvB] [] ROUND_ROBIN false false)
         (cursor [srvA; srvB] 0)) <> OutOfFuel /\
  clock (cenv (snd (ServerPoolState.get_server world_dead 0
         (policy [srvA; srvB] [] ROUND_ROBIN false false)
         (cursor [srvA; srvB] 0)))) = 0%nat /\
  trace (cenv (snd (ServerPoolState.get_server world_dead 0
         (policy [srvA; srvB] [] ROUND_ROBIN false false)
         (cursor [srvA; srvB] 0)))) = [] /\
  (ROUND_ROBIN <> RANDOM ->
   cenv (snd (ServerPoolState.get_server world_dead 0
         (policy [srvA; srvB] [] ROUND_ROBIN false false)
         (cursor [srvA; srvB] 0))) = env0).
Proof.
  apply (@get_server_inactive_no_probe world_dead 0
           (policy [srvA; srvB] [] ROUND_ROBIN false false)
           (cursor [srvA; srvB] 0)).
  reflexivity.
Defined.

Section FirstStrategy.
Variable w : World.
Variable fuel : nat.
Variable c : Conn.

(** One call under [FIRST] without the liveness filter. *)
Lemma get_server_first s st x tl :
  Pool.strategy (pool s) = FIRST ->
  Pool.active (pool s) = false ->
  ServerPool.lookup c (Pool.pool_states (pool s)) = Some st ->
  State.servers st = x :: tl ->
  ServerPool.get_server w fuel c s =
    (Return x, set_cursor c (at_index (x :: tl) 0) s).
Proof.
  intros Hg Ha Hl Hs. unfold ServerPool.get_server.
  unfold bind at 1. unfold ServerPool.get_pool_states at 1. unfold gets at 1.
  rewrite Hl. unfold bind at 1. unfold gets at 1.
  rewrite (on_state_registered _ _ _ Hl).
  unfold ServerPoolState.get_server. rewrite Hg, Ha.
  destruct st as [l i]. cbn in Hs. subst l. reflexivity.
Qed.

Lemma calls_first n : forall s st x tl,
  Pool.strategy (pool s) = FIRST ->
  Pool.active (pool s) = false ->
  ServerPool.lookup c (Pool.pool_states (pool s)) = Some st ->
  State.servers st = x :: tl ->
  calls w fuel c (S n) s =
    (Return (repeat x (S n)), set_cursor c (at_index (x :: tl) 0) s).
Proof.
  induction n as [|n IH]; intros s st x tl Hg Ha Hl Hs.
  - cbn [calls]. unfold bind.
    rewrite (get_server_first _ Hg Ha Hl Hs). reflexivity.
  - change (calls w fuel c (S (S n)) s)
      with ((y <- ServerPool.get_server w fuel c;;
             ys <- calls w fuel c (S n);; ret (y :: ys)) s).
    unfold bind at 1. rewrite (get_server_first _ Hg Ha Hl Hs).
    unfold bind at 1.
    rewrite (IH _ (at_index (x :: tl) 0) x tl); try assumption.
    + rewrite set_cursor_twice by (rewrite Hl; discriminate). reflexivity.
    + apply lookup_set_cursor.
    + reflexivity.
Qed.
End FirstStrategy.

(** Property X4.  Under [FIRST] without the liveness filter, any number of
    consecutive calls of [get_server] on a connection whose snapshot is not
    empty return the first server of the snapshot every time, wherever the
    cursor stood, and leave the cursor on index 0; the endpoint list and
    the cursors of the other connections are not touched. *)
Theorem first_strategy_constant
  (w : World) (fuel : nat) (c : Conn) (s : PState) (st : State.t)
  (x : Server) (tl : list Server) (n : nat) :
  Pool.strategy (pool s) = FIRST ->
  Pool.active (pool s) = false ->
  ServerPool.lookup c (Pool.pool_states (pool s)) = Some st ->
  State.servers st = x :: tl ->
  calls w fuel c (S n) s =
    (Return (repeat x (S n)), set_cursor c (at_index (x :: tl) 0) s).
Proof. intros. eapply calls_first; eassumption. Qed.

Lemma first_strategy_constant_witness :
  calls world_dead 0 1%nat 3
    (registry [srvA; srvB; srvC] [(1%nat, at_index [srvA; srvB; srvC] 2)]
       FIRST false false) =
  (Return [srvA; srvA; srvA],
   registry [srvA; srvB; srvC] [(1%nat, at_index [srvA; srvB; srvC] 0)]
     FIRST false false).
Proof.
  apply (@first_strategy_constant world_dead 0 1%nat
           (registry [srvA; srvB; srvC] [(1%nat, at_index [srvA; srvB; srvC] 2)]
              FIRST false false)
           (at_index [srvA; srvB; srvC] 2) srvA [srvB; srvC] 2);
    reflexivity.
Defined.

(** ** Connections and their cursors *)

Section Frame.
Variable w : World.

Lemma store_keys c v d :
  ServerPool.lookup c d <> None ->
  map fst (ServerPool.store c v d) = map fst d.
Proof.
  induction d as [|[k x] d IH]; cbn; [congruence|].
  destruct (Nat.eqb k c) eqn:E; cbn.
  - apply Nat.eqb_eq in E. now subst.
  - intros H. now rewrite IH.
Qed.

Lemma store_new_key c v d :
  ServerPool.lookup c d = None ->
  ServerPool.store c v d = d ++ [(c, v)].
Proof.
  induction d as [|[k x] d IH]; cbn; [reflexivity|].
  destruct (Nat.eqb k c); [discriminate|]. intros H. now rewrite IH.
Qed.


Lemma get_current_server_run (cs : CState) :
  ServerPoolState.get_current_server cs =
    (match Py.getitem (State.servers (self cs)) (State.last_used_server (self cs)) with
     | Some x => Return x
     | None => Raise IndexError
     end, cs).
Proof.
  unfold ServerPoolState.get_current_server, bind,
    ServerPoolState.get_servers, ServerPoolState.get_last_used_server,
    gets, list_getitem.
  destruct (Py.getitem _ _); reflexivity.
Qed.
End Frame.


(** Property X6.  [ServerPool.get_current_server] is a pure read: for a
    registered connection it answers the server at the cursor, or
    [IndexError] when the cursor is outside the snapshot, and the registry
    is exactly as before. *)
Theorem get_current_server_reads
  (c : Conn) (s : PState) (st : State.t) :
  ServerPool.lookup c (Pool.pool_states (pool s)) = Some st ->
  ServerPool.get_current_server c s =
    (match Py.getitem (State.servers st) (State.last_used_server st) with
     | Some x => Return x
     | None => Raise IndexError
     end, s).
Proof.
  intros L. unfold ServerPool.get_current_server.
  unfold bind at 1. unfold ServerPool.get_pool_states, gets. rewrite L.
  rewrite (on_state_registered _ _ _ L), get_current_server_run.
  cbn [fst snd self cenv]. rewrite (store_lookup _ _ L).
  destruct s as [[l d a e g] env]. reflexivity.
Qed.

Lemma get_current_server_reads_witness :
  ServerPool.get_current_server 1%nat registry_ab = (Return srvA, registry_ab).
Proof.
  apply (@get_current_server_reads 1%nat registry_ab
           {| State.servers := [srvA; srvB]; State.last_used_server := 0 |}).
  reflexivity.
Defined.

(** ** Construction *)

Section Construction.
Variable w : World.

Lemma notify_no_cursors s :
  Pool.pool_states (pool s) = [] -> ServerPool.notify w s = (Return tt, s).
Proof.
  intros H. unfold ServerPool.notify, bind, ServerPool.get_pool_states, gets.
  rewrite H. reflexivity.
Qed.

Lemma init_sequence_run xs g a e env :
  In g POOLING_STRATEGIES ->
  e && negb a = false ->
  ServerPool.init w (PySeq xs) g a e {| pool := ServerPool.blank; penv := env |} =
    match convert xs with
    | Some l => (Return tt, {| pool := policy l [] g a e; penv := env |})
    | None =>
        (Raise (LDAPServerPoolError "server in ServerPool must be a Server"),
         {| pool := policy (accepted xs) [] (UNKNOWN "unset") a e; penv := env |})
    end.
Proof.
  intros Hg He. unfold ServerPool.init.
  assert (Hk : negb (existsb (Strategy_eqb g) POOLING_STRATEGIES) = false).
  { cbn in Hg. destruct Hg as [<-|[<-|[<-|[]]]]; reflexivity. }
  rewrite Hk, He.
  unfold bind at 1. unfold modify at 1. unfold bind at 1.
  unfold ServerPool.add. unfold bind at 1. rewrite add_each_run.
  cbn [ServerPool.map_pool pool Pool.servers app].
  destruct (convert xs) as [l|] eqn:Hc; [|reflexivity].
  rewrite notify_no_cursors by reflexivity.
  rewrite (convert_accepted _ Hc). reflexivity.
Qed.

(** What the constructor does once its two checks have passed. *)
Lemma new_run x g a e env :
  In g POOLING_STRATEGIES ->
  e && negb a = false ->
  ServerPool.new w x g a e env =
    match x with
    | PySeq xs =>
        match convert xs with
        | Some l => (Return (policy l [] g a e), env)
        | None =>
            (Raise (LDAPServerPoolError "server in ServerPool must be a Server"), env)
        end
    | PyServer sv => (Return (policy [sv] [] g a e), env)
    | PyStr ad => (Return (policy [{| address := ad |}] [] g a e), env)
    | _ => (Return (policy [] [] g a e), env)
    end.
Proof.
  intros Hg He.
  destruct x as [|sv|ad|xs|].
  5:{ unfold ServerPool.new, ServerPool.init.
      cbn in Hg. destruct Hg as [<-|[<-|[<-|[]]]]; cbn; rewrite He; reflexivity. }
  4:{ unfold ServerPool.new. rewrite init_sequence_run by assumption.
      destruct (convert xs); reflexivity. }
  all: unfold ServerPool.new, ServerPool.init;
    cbn in Hg; destruct Hg as [<-|[<-|[<-|[]]]]; cbn; rewrite He; reflexivity.
Qed.
End Construction.

(** Property X7.  The constructor checks the strategy first and the
    policy second, before it looks at [servers]: an unknown strategy
    raises [LDAPUnknownStrategyError] whatever else is passed, and
    [exhaust] without [active] raises [LDAPServerPoolError] for every known
    strategy; in neither case is anything drawn or probed. *)
Theorem new_validates
  (w : World) (x : PyObj) (g : Strategy) (a e : bool) (env : Env) :
  (~ In g POOLING_STRATEGIES ->
   ServerPool.new w x g a e env =
     (Raise (LDAPUnknownStrategyError "unknown pooling strategy"), env)) /\
  (In g POOLING_STRATEGIES -> e = true -> a = false ->
   ServerPool.new w x g a e env =
     (Raise (LDAPServerPoolError
               "pools can be exhausted only when checking for active servers"),
      env)).
Proof.
  split.
  - intros Hg. unfold ServerPool.new, ServerPool.init.
    destruct g as [| | |tag]; try (exfalso; apply Hg; cbn; tauto).
    reflexivity.
  - intros Hg -> ->. unfold ServerPool.new, ServerPool.init.
    cbn in Hg. destruct Hg as [<-|[<-|[<-|[]]]]; reflexivity.
Qed.

Lemma new_validates_witness :
  ServerPool.new world_live (PyServer srvA) (UNKNOWN "LEAST_USED") false true env0 =
    (Raise (LDAPUnknownStrategyError "unknown pooling strategy"), env0) /\
  ServerPool.new world_live (PyServer srvA) RANDOM false true env0 =
    (Raise (LDAPServerPoolError
              "pools can be exhausted only when checking for active servers"),
     env0).
Proof.
  split.
  - apply (proj1 (new_validates world_live (PyServer srvA) (UNKNOWN "LEAST_USED")
                    false true env0)).
    simpl. intros [H|[H|[H|[]]]]; discriminate.
  - apply (proj2 (new_validates world_live (PyServer srvA) RANDOM false true env0));
      [simpl; tauto|reflexivity|reflexivity].
Defined.

(** Property X8.  Once the checks have passed, the constructor builds the
    endpoint list from [servers] and registers no cursor: a sequence of
    valid elements gives their servers in order, duplicates included; a
    sequence with an invalid element makes the construction fail; an
    address gives the same pool as the [Server] built from it; and an
    argument of any other type is ignored, where [add] of it on the pool
    so built raises. *)
Theorem new_from_servers
  (w : World) (g : Strategy) (a e : bool) (env : Env) :
  In g POOLING_STRATEGIES ->
  (e = true -> a = true) ->
  (forall xs l, convert xs = Some l ->
     ServerPool.new w (PySeq xs) g a e env = (Return (policy l [] g a e), env)) /\
  (forall xs, convert xs = None ->
     ServerPool.new w (PySeq xs) g a e env =
       (Raise (LDAPServerPoolError "server in ServerPool must be a Server"), env)) /\
  (forall ad,
     ServerPool.new w (PyStr ad) g a e env =
       (Return (policy [{| address := ad |}] [] g a e), env) /\
     ServerPool.new w (PyStr ad) g a e env =
       ServerPool.new w (PyServer {| address := ad |}) g a e env) /\
  (ServerPool.new w PyOther g a e env = (Return (policy [] [] g a e), env) /\
   ServerPool.add w PyOther {| pool := policy [] [] g a e; penv := env |} =
     (Raise (LDAPServerPoolError "server must be a Server or a list of Server"),
      {| pool := policy [] [] g a e; penv := env |})).
Proof.
  intros Hg He.
  assert (Hx : e && negb a = false).
  { destruct e, a; auto. specialize (He eq_refl). discriminate. }
  split; [|split; [|split]].
  - intros xs l Hc. rewrite new_run by assumption. now rewrite Hc.
  - intros xs Hc. rewrite new_run by assumption. now rewrite Hc.
  - intros ad. rewrite !new_run by assumption. split; reflexivity.
  - rewrite new_run by assumption. split; reflexivity.
Qed.

Lemma new_from_servers_witness :
  ServerPool.new world_live (PySeq [PyServer srvA; PyStr "ldap-b"; PyServer srvA])
    ROUND_ROBIN true false env0 =
    (Return (policy [srvA; srvB; srvA] [] ROUND_ROBIN true false), env0) /\
  ServerPool.new world_live (PySeq [PyServer srvA; PyNone]) ROUND_ROBIN true false env0 =
    (Raise (LDAPServerPoolError "server in ServerPool must be a Server"), env0).
Proof.
  destruct (@new_from_servers world_live ROUND_ROBIN true false env0)
    as (H1 & H2 & _).
  - simpl. tauto.
  - discriminate.
  - split.
    + apply H1. reflexivity.
    + apply H2. reflexivity.
Defined.

(** ** Initialisation on a registry that has servers *)

Section Initialize.
Variable w : World.

Lemma init_run p env :
  Pool.servers p <> [] ->
  ServerPoolState.init w p {| self := ServerPoolState.blank; cenv := env |} =
    (Return tt,
     {| self := at_index (Pool.servers p)
                  (entropy w (S (draws env)) mod Py.len (Pool.servers p));
        cenv := {| clock := clock env; draws := S (S (draws env));
                   trace := trace env |} |}).
Proof.
  intros Hne.
  assert (Hlen : 1 <= Py.len (Pool.servers p)).
  { destruct (Pool.servers p); [congruence|]. unfold Py.len. cbn [List.length]. lia. }
  unfold ServerPoolState.init.
  unfold bind at 1. unfold ServerPoolState.set_servers at 1.
  unfold modify at 1. unfold bind at 1.
  rewrite refresh_run by exact Hne.
  unfold bind, ServerPoolState.get_servers, ServerPoolState.set_last_used_server,
    gets, modify, map_self.
  cbn [self cenv drawn State.servers State.last_used_server].
  rewrite randint_run by lia.
  cbn [fst snd self cenv drawn State.servers State.last_used_server draws clock trace].
  replace (Py.len (Pool.servers p) - 1 - 0 + 1) with (Py.len (Pool.servers p)) by lia.
  rewrite !Nat.add_1_r, Z.add_0_l. reflexivity.
Qed.

Lemma initialize_run c s :
  Pool.servers (pool s) <> [] ->
  ServerPool.initialize w c s =
    (Return tt,
     {| pool := ServerPool.with_pool_states
                  (ServerPool.store c
                     (at_index (Pool.servers (pool s))
                        (entropy w (S (draws (penv s))) mod Py.len (Pool.servers (pool s))))
                     (Pool.pool_states (pool s)))
                  (pool s);
        penv := {| clock := clock (penv s); draws := S (S (draws (penv s)));
                   trace := trace (penv s) |} |}).
Proof.
  intros Hne. unfold ServerPool.initialize.
  unfold bind at 1. unfold gets at 1. unfold bind at 1.
  unfold ServerPool.construct. rewrite init_run by exact Hne. reflexivity.
Qed.
End Initialize.

(** Property X9.  On a registry that has servers, [initialize] returns
    and gives the connection a cursor whose snapshot is the endpoint list
    and whose index is valid; two random numbers are drawn and the index
    comes from the second.  A connection already registered keeps its
    place in the dictionary and has its cursor replaced, a new connection
    is added at the end; nothing else changes and no probe is made. *)
Theorem initialize_registers (w : World) (c : Conn) (s : PState) :
  Pool.servers (pool s) <> [] ->
  let l := Pool.servers (pool s) in
  let d := Pool.pool_states (pool s) in
  let i := entropy w (S (draws (penv s))) mod Py.len l in
  ServerPool.initialize w c s =
    (Return tt,
     {| pool := ServerPool.with_pool_states (ServerPool.store c (at_index l i) d) (pool s);
        penv := {| clock := clock (penv s); draws := S (S (draws (penv s)));
                   trace := trace (penv s) |} |}) /\
  0 <= i < Py.len l /\
  (ServerPool.lookup c d <> None ->
   map fst (ServerPool.store c (at_index l i) d) = map fst d) /\
  (ServerPool.lookup c d = None ->
   ServerPool.store c (at_index l i) d = d ++ [(c, at_index l i)]) /\
  (forall c', c' <> c ->
   ServerPool.lookup c' (ServerPool.store c (at_index l i) d) = ServerPool.lookup c' d).
Proof.
  intros Hne l d i.
  assert (Hlen : 1 <= Py.len l).
  { subst l. destruct (Pool.servers (pool s)); [congruence|].
    unfold Py.len. cbn [List.length]. lia. }
  split; [|split; [|split; [|split]]].
  - apply initialize_run. exact Hne.
  - subst i. apply Z.mod_pos_bound. lia.
  - apply store_keys.
  - apply store_new_key.
  - intros c' Hc. apply lookup_store_other. exact Hc.
Qed.

Lemma initialize_registers_witness :
  ServerPool.initialize world_live 2%nat registry_ab =
    (Return tt,
     {| pool := policy [srvA; srvB]
                  [(1%nat, at_index [srvA; srvB] 0); (2%nat, at_index [srvA; srvB] 1)]
                  ROUND_ROBIN true false;
        penv := {| clock := 0; draws := 2; trace := [] |} |}).
Proof.
  refine (proj1 (@initialize_registers world_live 2%nat registry_ab _)).
  discriminate.
Defined.

(** ** What selection can raise *)

Section Errors.
Variable w : World.

Lemma find_active_server_raises fuel : forall exhaust starting s e,
  0 <= starting <= Py.len (State.servers (self s)) ->
  fst (ServerPoolState.find_active_server w fuel starting exhaust s) = Raise e ->
  exhaust = true /\
  e = LDAPServerPoolExhaustedError "no active server available in server pool".
Proof.
  induction fuel as [|fuel IH]; intros exhaust starting s e Hs; [discriminate|].
  rewrite find_active_server_pass by exact Hs. cbv zeta.
  destruct (hit _) as [i|]; [discriminate|].
  destruct exhaust.
  - cbn. intros [= <-]. auto.
  - intros H. apply IH in H; [exact H|exact Hs].
Qed.

Lemma find_active_random_server_raises fuel : forall exhaust s e,
  fst (ServerPoolState.find_active_random_server w fuel exhaust s) = Raise e ->
  exhaust = true /\
  e = LDAPServerPoolExhaustedError "no random active server in server pool".
Proof.
  induction fuel as [|fuel IH]; intros exhaust s e; [discriminate|].
  cbn [ServerPoolState.find_active_random_server].
  unfold bind at 1. unfold ServerPoolState.get_servers, gets. unfold bind.
  destruct (@sample_spec w (List.length (State.servers (self s)))
              (State.servers (self s)) s (le_n _) (incl_refl _))
    as (evs & rest & Hs & Hh & Hp & Hcase).
  destruct (ServerPoolState.sample w _ _ s) as [o s1].
  cbn [fst snd] in *. subst s1.
  destruct Hcase as [(-> & Hd & ->)|(i & ds & e' & -> & -> & Hd & Hl & Hidx)].
  - destruct exhaust.
    + cbn. intros [= <-]. auto.
    + apply IH.
  - discriminate.
Qed.
End Errors.

(** Property X10.  With the cursor on a valid index, [get_server] can
    raise in three ways only: [LDAPUnknownStrategyError] for a strategy
    that is none of the three; [LDAPServerPoolExhaustedError], and then
    both [active] and [exhaust] are set; [IndexError], and then the
    strategy is [RANDOM] without the liveness filter.  It never raises
    [LDAPServerPoolError], [ValueError] or [KeyError]. *)
Theorem get_server_errors
  (w : World) (fuel : nat) (p : Pool.t) (s : CState) (e : Exn) :
  0 <= State.last_used_server (self s) < Py.len (State.servers (self s)) ->
  fst (ServerPoolState.get_server w fuel p s) = Raise e ->
  (exists tag, Pool.strategy p = UNKNOWN tag /\
               e = LDAPUnknownStrategyError "unknown server pooling strategy") \/
  (Pool.active p = true /\ Pool.exhaust p = true /\
   exists msg, e = LDAPServerPoolExhaustedError msg) \/
  (Pool.strategy p = RANDOM /\ Pool.active p = false /\ e = IndexError).
Proof.
  intros Hc.
  destruct (State.servers (self s)) as [|y tl] eqn:Hl.
  { unfold Py.len in Hc. cbn in Hc. lia. }
  assert (Hlen : 1 <= Py.len (y :: tl)) by (unfold Py.len; cbn [List.length]; lia).
  destruct (Pool.active p) eqn:Ha.
  - rewrite (get_server_active w fuel p s Hl Ha).
    destruct (Pool.strategy p) as [| | |tag] eqn:Hg.
    + destruct (@find_active_server_range w fuel (Pool.exhaust p) 0 s) as [Hself Hi].
      { rewrite Hl. lia. }
      pose proof (@find_active_server_raises w fuel (Pool.exhaust p) 0 s) as Hr.
      destruct (ServerPoolState.find_active_server w fuel 0 (Pool.exhaust p) s)
        as [[i|e'|] s']; cbn [fst snd] in *; try discriminate.
      * specialize (Hi i eq_refl). rewrite Hself.
        destruct (getitem_some (State.servers (self s)) (i:=i)) as [x ->]; [exact Hi|].
        discriminate.
      * intros [= <-]. destruct (Hr e') as [He ->]; [rewrite Hl; lia|reflexivity|].
        right. left. eauto.
    + destruct (@find_active_server_range w fuel (Pool.exhaust p)
                  (State.last_used_server (self s) + 1) s) as [Hself Hi].
      { rewrite Hl. lia. }
      pose proof (@find_active_server_raises w fuel (Pool.exhaust p)
                    (State.last_used_server (self s) + 1) s) as Hr.
      destruct (ServerPoolState.find_active_server w fuel _ (Pool.exhaust p) s)
        as [[i|e'|] s']; cbn [fst snd] in *; try discriminate.
      * specialize (Hi i eq_refl). rewrite Hself.
        destruct (getitem_some (State.servers (self s)) (i:=i)) as [x ->]; [exact Hi|].
        discriminate.
      * intros [= <-]. destruct (Hr e') as [He ->]; [rewrite Hl; lia|reflexivity|].
        right. left. eauto.
    + destruct (@find_active_random_server_range w fuel (Pool.exhaust p) s)
        as [Hself Hi].
      pose proof (@find_active_random_server_raises w fuel (Pool.exhaust p) s) as Hr.
      destruct (ServerPoolState.find_active_random_server w fuel (Pool.exhaust p) s)
        as [[i|e'|] s']; cbn [fst snd] in *; try discriminate.
      * specialize (Hi i eq_refl). rewrite Hself.
        destruct (getitem_some (State.servers (self s)) (i:=i)) as [x ->]; [exact Hi|].
        discriminate.
      * intros [= <-]. destruct (Hr e') as [He ->]; [reflexivity|].
        right. left. eauto.
    + cbn. intros [= <-]. left. eauto.
  - rewrite (get_server_inactive w fuel p s Hl Ha).
    destruct (Pool.strategy p) as [| | |tag] eqn:Hg.
    + cbn [fst snd]. rewrite Hl.
      destruct (getitem_some (y :: tl) (i:=0)) as [x ->]; [lia|]. discriminate.
    + cbn [fst snd]. rewrite Hl.
      match goal with
      | |- context [Py.getitem ?l ?i] =>
          destruct (getitem_some l (i:=i)) as [x ->]
      end; [|discriminate].
      destruct (_ <? _) eqn:E; [apply Z.ltb_lt in E|]; lia.
    + rewrite randint_run by lia. cbn [fst snd self drawn]. rewrite Hl.
      match goal with
      | |- context [Py.getitem ?l ?i] => destruct (Py.getitem l i)
      end; [discriminate|].
      cbn. intros [= <-]. right. right. auto.
    + cbn. intros [= <-]. left. eauto.
Qed.

Lemma get_server_errors_witness :
  (exists tag, RANDOM = UNKNOWN tag /\
               LDAPServerPoolExhaustedError "no random active server in server pool" =
               LDAPUnknownStrategyError "unknown server pooling strategy") \/
  (true = true /\ true = true /\
   exists msg, LDAPServerPoolExhaustedError "no random active server in server pool" =
               LDAPServerPoolExhaustedError msg) \/
  (RANDOM = RANDOM /\ true = false /\
   LDAPServerPoolExhaustedError "no random active server in server pool" = IndexError).
Proof.
  apply (@get_server_errors world_dead 1
           (policy [srvA; srvB] [] RANDOM true true) (cursor [srvA; srvB] 0)
           (LDAPServerPoolExhaustedError "no random active server in server pool")).
  - vm_compute. split; [discriminate|reflexivity].
  - reflexivity.
Defined.

(** ** Selection with the liveness filter *)

(** Property X11.  Under [FIRST] and [ROUND_ROBIN] with the liveness
    filter, [get_server] returns the first server that answers live in the
    circular order entered at index 0 ([FIRST]) or right after the cursor
    ([ROUND_ROBIN]), leaves the cursor on it, and has probed the servers
    before it and no other; the [exhaust] flag plays no part. *)
Theorem get_server_first_live
  (w : World) (fuel : nat) (p : Pool.t) (s : CState)
  (starting : Z) (k : nat) (live : Server) :
  let l := State.servers (self s) in
  let order := circular starting (Py.len l) in
  let t := clock (cenv s) in
  Pool.active p = true ->
  (Pool.strategy p = FIRST /\ starting = 0 \/
   Pool.strategy p = ROUND_ROBIN /\ starting = State.last_used_server (self s) + 1) ->
  0 <= starting <= Py.len l ->
  (k < List.length order)%nat ->
  (forall j sv, (j < k)%nat -> Py.getitem l (nth j order 0) = Some sv ->
                alive w (t + j) sv = false) ->
  Py.getitem l (nth k order 0) = Some live ->
  alive w (t + k) live = true ->
  ServerPoolState.get_server w (S fuel) p s =
    (Return live,
     {| self := at_index l (nth k order 0);
        cenv := cenv (advance (probes w l t (firstn (S k) order)) s) |}).
Proof.
  intros l order t Ha Hg Hs Hk Hd Hgi Hlv. subst l order t.
  assert (Hv : forall i, In i (circular starting (Py.len (State.servers (self s)))) ->
                         0 <= i < Py.len (State.servers (self s)))
    by (intros i; apply circular_In; exact Hs).
  destruct (@probes_first_live w _ _ _ k live Hv Hd Hk Hgi Hlv) as [H1 H2].
  assert (Hrun : ServerPoolState.find_active_server w (S fuel) starting
                   (Pool.exhaust p) s =
                 (Return (nth k (circular starting (Py.len (State.servers (self s)))) 0),
                  advance (probes w (State.servers (self s)) (clock (cenv s))
                             (firstn (S k)
                                (circular starting (Py.len (State.servers (self s))))))
                    s)).
  { rewrite find_active_server_pass by exact Hs. cbv zeta.
    rewrite H1, H2. reflexivity. }
  destruct (State.servers (self s)) as [|y tl] eqn:Hl.
  { apply getitem_member in Hgi. destruct Hgi. }
  rewrite (get_server_active w (S fuel) p s Hl Ha).
  destruct Hg as [[Hg ->]|[Hg ->]]; rewrite Hg, Hrun;
    cbn [self advance State.servers]; rewrite Hl, Hgi;
    unfold map_self, advance, at_index; cbn [self cenv State.servers];
    rewrite Hl; reflexivity.
Qed.

Lemma get_server_first_live_witness :
  ServerPoolState.get_server world_only_c 1
    (policy [srvA; srvB; srvC] [] ROUND_ROBIN true false)
    (cursor [srvA; srvB; srvC] 0) =
  (Return srvC,
   {| self := at_index [srvA; srvB; srvC] 2;
      cenv := {| clock := 2; draws := 0;
                 trace := [ {| ev_index := 1; ev_server := srvB; ev_live := false |};
                            {| ev_index := 2; ev_server := srvC; ev_live := true |} ] |} |}).
Proof.
  apply (@get_server_first_live world_only_c 0
           (policy [srvA; srvB; srvC] [] ROUND_ROBIN true false)
           (cursor [srvA; srvB; srvC] 0) 1 1 srvC).
  - reflexivity.
  - right. split; reflexivity.
  - vm_compute. split; discriminate.
  - vm_compute. lia.
  - intros j sv Hj. assert (j = 0)%nat by lia. subst j.
    cbn. intros [= <-]. reflexivity.
  - reflexivity.
  - reflexivity.
Defined.

Lemma Server_eq_dec (a b : Server) : {a = b} + {a <> b}.
Proof.
  destruct (Server_eqb a b) eqn:E.
  - left. now apply Server_eqb_eq.
  - right. intros H. apply Server_eqb_eq in H. congruence.
Qed.

Section SoleLive.
Variable w : World.
Variable x : Server.
Hypothesis x_alive : forall t, alive w t x = true.
Hypothesis others_dead : forall t sv, sv <> x -> alive w t sv = false.

Lemma honest_In t evs e :
  honest w t evs -> In e evs -> exists t', ev_live e = alive w t' (ev_server e).
Proof.
  revert t. induction evs as [|e0 r IH]; intros t; cbn; [tauto|].
  intros [H0 Hr] [<-|Hi]; [eauto|]. eapply IH; eauto.
Qed.

Lemma live_is_x t evs e :
  honest w t evs -> In e evs -> ev_live e = true -> ev_server e = x.
Proof.
  intros Hh Hi Hl. destruct (@honest_In _ _ _ Hh Hi) as [t' Ht].
  destruct (Server_eq_dec (ev_server e) x) as [E|E]; [exact E|].
  rewrite (others_dead t' E) in Ht. congruence.
Qed.

Lemma not_all_dead t evs :
  honest w t evs -> In x (map ev_server evs) -> Forall dead evs -> False.
Proof.
  intros Hh Hi Hd. apply in_map_iff in Hi. destruct Hi as (e & Hx & Hi).
  destruct (@honest_In _ _ _ Hh Hi) as [t' Ht].
  rewrite Forall_forall in Hd. specialize (Hd e Hi). unfold dead in Hd.
  rewrite Hx, x_alive in Ht. congruence.
Qed.

Lemma find_active_server_sole fuel exhaust starting s :
  0 <= starting <= Py.len (State.servers (self s)) ->
  In x (State.servers (self s)) ->
  exists i,
    fst (ServerPoolState.find_active_server w (S fuel) starting exhaust s) = Return i /\
    Py.getitem (State.servers (self s)) i = Some x.
Proof.
  intros Hs Hin. rewrite find_active_server_pass by exact Hs. cbv zeta.
  set (l := State.servers (self s)) in *.
  set (evs := probes w l (clock (cenv s)) (circular starting (Py.len l))).
  pose proof (probes_honest w l (clock (cenv s)) (circular starting (Py.len l))) as Hh.
  fold evs in Hh.
  destruct (hit evs) as [i|] eqn:H.
  - exists i. split; [reflexivity|].
    destruct (hit_cut_some _ H) as (ds & e & Hc & Hd & Hl & Hi).
    destruct (cut_prefix evs) as [rest Hrest].
    assert (He : In e evs).
    { rewrite Hrest, Hc. apply in_or_app. left. apply in_or_app. right. now left. }
    rewrite <- Hi, <- (@live_is_x _ _ _ Hh He Hl).
    apply (@probes_getitem w l (clock (cenv s)) (circular starting (Py.len l))).
    exact He.
  - exfalso. apply (@not_all_dead _ _ Hh).
    + subst evs. rewrite probes_servers_circular by exact Hs.
      eapply Permutation_in; [symmetry; apply rotation_Permutation|exact Hin].
    + apply hit_none_dead. exact H.
Qed.

Lemma find_active_random_server_sole fuel exhaust s :
  In x (State.servers (self s)) ->
  exists i,
    fst (ServerPoolState.find_active_random_server w (S fuel) exhaust s) = Return i /\
    Py.getitem (State.servers (self s)) i = Some x.
Proof.
  intros Hin. cbn [ServerPoolState.find_active_random_server].
  unfold bind at 1. unfold ServerPoolState.get_servers, gets. unfold bind.
  destruct (@sample_spec w (List.length (State.servers (self s)))
              (State.servers (self s)) s (le_n _) (incl_refl _))
    as (evs & rest & Hs & Hh & Hp & Hcase).
  destruct (ServerPoolState.sample w _ _ s) as [o s1].
  cbn [fst snd] in *. subst s1.
  destruct Hcase as [(-> & Hd & ->)|(i & ds & e & -> & -> & Hd & Hl & Hidx)].
  - exfalso. apply (@not_all_dead _ _ Hh); [|exact Hd].
    rewrite app_nil_r in Hp.
    eapply Permutation_in; [symmetry; exact Hp|exact Hin].
  - exists i. split; [reflexivity|].
    apply index_first in Hidx. destruct Hidx as (_ & Hg & _).
    rewrite Hg. f_equal.
    apply (@live_is_x _ (ds ++ [e]) e Hh); [|exact Hl].
    apply in_or_app. right. now left.
Qed.
End SoleLive.

(** Property X12.  When one server of the snapshot answers live at all
    times and every other server never does, [get_server] with the
    liveness filter returns that server, under each of the three
    strategies and whatever the [exhaust] flag, within one pass. *)
Theorem get_server_sole_live
  (w : World) (fuel : nat) (p : Pool.t) (s : CState) (x : Server) :
  (forall t, alive w t x = true) ->
  (forall t sv, sv <> x -> alive w t sv = false) ->
  Pool.active p = true ->
  In (Pool.strategy p) POOLING_STRATEGIES ->
  In x (State.servers (self s)) ->
  0 <= State.last_used_server (self s) < Py.len (State.servers (self s)) ->
  fst (ServerPoolState.get_server w (S fuel) p s) = Return x.
Proof.
  intros Hx Ho Ha Hg Hin Hc.
  destruct (State.servers (self s)) as [|y tl] eqn:Hl; [destruct Hin|].
  rewrite (get_server_active w (S fuel) p s Hl Ha).
  destruct (Pool.strategy p) as [| | |tag].
  - destruct (@find_active_server_sole w x Hx Ho fuel (Pool.exhaust p) 0 s)
      as (i & Hr & Hgi); [rewrite Hl; unfold Py.len; lia|rewrite Hl; exact Hin|].
    pose proof (find_active_server_self w (S fuel) 0 (Pool.exhaust p) s) as Hself.
    destruct (ServerPoolState.find_active_server w (S fuel) 0 (Pool.exhaust p) s)
      as [o s']. cbn [fst snd] in *. subst o. rewrite Hself, Hgi. reflexivity.
  - destruct (@find_active_server_sole w x Hx Ho fuel (Pool.exhaust p)
                (State.last_used_server (self s) + 1) s)
      as (i & Hr & Hgi); [rewrite Hl; lia|rewrite Hl; exact Hin|].
    pose proof (find_active_server_self w (S fuel)
                  (State.last_used_server (self s) + 1) (Pool.exhaust p) s) as Hself.
    destruct (ServerPoolState.find_active_server w (S fuel) _ (Pool.exhaust p) s)
      as [o s']. cbn [fst snd] in *. subst o. rewrite Hself, Hgi. reflexivity.
  - destruct (@find_active_random_server_sole w x Hx Ho fuel (Pool.exhaust p) s)
      as (i & Hr & Hgi); [rewrite Hl; exact Hin|].
    pose proof (find_active_random_server_self w (S fuel) (Pool.exhaust p) s) as Hself.
    destruct (ServerPoolState.find_active_random_server w (S fuel) (Pool.exhaust p) s)
      as [o s']. cbn [fst snd] in *. subst o. rewrite Hself, Hgi. reflexivity.
  - cbn in Hg. intuition discriminate.
Qed.

Lemma get_server_sole_live_witness :
  fst (ServerPoolState.get_server world_only_c 1
         (policy [srvA; srvB; srvC] [] RANDOM true true)
         (cursor [srvA; srvB; srvC] 0)) = Return srvC.
Proof.
  apply (@get_server_sole_live world_only_c 0
           (policy [srvA; srvB; srvC] [] RANDOM true true)
           (cursor [srvA; srvB; srvC] 0) srvC).
  - reflexivity.
  - intros t sv Hne. simpl. destruct (Server_eqb sv srvC) eqn:E; [|reflexivity].
    apply Server_eqb_eq in E. contradiction.
  - reflexivity.
  - simpl. tauto.
  - simpl. tauto.
  - vm_compute. split; [discriminate|reflexivity].
Defined.

(** ** Mutations of the endpoint list *)

Section EndpointList.
Variable w : World.

Lemma py_remove_first (l : list Server) sv :
  In sv l ->
  exists l1 l2,
    l = l1 ++ sv :: l2 /\ ~ In sv l1 /\ Py.remove Server_eqb l sv = Some (l1 ++ l2).
Proof.
  induction l as [|y l IH]; cbn; [tauto|].
  destruct (Server_eqb y sv) eqn:E.
  - intros _. apply Server_eqb_eq in E. subst y.
    exists [], l. cbn. auto.
  - intros [->|H].
    + assert (Server_eqb sv sv = true) by now apply Server_eqb_eq. congruence.
    + destruct (IH H) as (l1 & l2 & -> & Hn & ->).
      exists (y :: l1), l2. cbn. repeat split; auto.
      intros [->|Hi]; [|contradiction].
      assert (Server_eqb sv sv = true) by now apply Server_eqb_eq. congruence.
Qed.

Lemma py_remove_appended (l : list Server) sv :
  ~ In sv l -> Py.remove Server_eqb (l ++ [sv]) sv = Some l.
Proof.
  induction l as [|y l IH]; cbn.
  - intros _. now replace (Server_eqb sv sv) with true
      by (symmetry; now apply Server_eqb_eq).
  - intros H. destruct (Server_eqb y sv) eqn:E.
    + apply Server_eqb_eq in E. subst. tauto.
    + rewrite IH by tauto. reflexivity.
Qed.

(** The endpoint list after [remove], whatever the broadcast does. *)
Lemma remove_servers sv s :
  Pool.servers (pool (snd (ServerPool.remove w sv s))) =
    match Py.remove Server_eqb (Pool.servers (pool s)) sv with
    | Some r => r
    | None => Pool.servers (pool s)
    end.
Proof.
  unfold ServerPool.remove.
  unfold bind at 1. unfold ServerPool.get_servers, gets.
  destruct (Py.contains Server_eqb sv (Pool.servers (pool s))) eqn:C.
  - destruct (remove_contains _ _ C) as [r Hr]. rewrite Hr.
    unfold bind at 1. unfold bind at 1. unfold list_remove. rewrite Hr.
    unfold ret at 1. unfold modify at 1. rewrite notify_servers. reflexivity.
  - unfold bind, raise. cbn.
    destruct (Py.remove Server_eqb (Pool.servers (pool s)) sv) as [r|] eqn:Hr;
      [|reflexivity].
    exfalso. assert (Hin : In sv (Pool.servers (pool s))).
    { clear C. revert r Hr. induction (Pool.servers (pool s)) as [|y l IH]; cbn;
        [discriminate|].
      intros r. destruct (Server_eqb y sv) eqn:E.
      - apply Server_eqb_eq in E. auto.
      - destruct (Py.remove Server_eqb l sv); [|discriminate]. eauto. }
    apply contains_In in Hin. congruence.
Qed.
End EndpointList.

(** Property X13.  [remove] takes out the first server equal to its
    argument and nothing else: the servers before it and after it keep
    their order, and a second occurrence stays in the list.  This holds
    for the endpoint list whatever becomes of the refresh broadcast. *)
Theorem remove_first_occurrence (w : World) (sv : Server) (s : PState) :
  In sv (Pool.servers (pool s)) ->
  exists l1 l2,
    Pool.servers (pool s) = l1 ++ sv :: l2 /\
    ~ In sv l1 /\
    Pool.servers (pool (snd (ServerPool.remove w sv s))) = l1 ++ l2.
Proof.
  intros H. destruct (py_remove_first _ _ H) as (l1 & l2 & E & Hn & Hr).
  exists l1, l2. rewrite remove_servers, Hr. auto.
Qed.

Lemma remove_first_occurrence_witness :
  exists l1 l2,
    [srvA; srvB; srvA] = l1 ++ srvA :: l2 /\
    ~ In srvA l1 /\
    Pool.servers
      (pool (snd (ServerPool.remove world_live srvA
                    (registry [srvA; srvB; srvA] [] RANDOM true false)))) = l1 ++ l2.
Proof.
  apply (@remove_first_occurrence world_live srvA
           (registry [srvA; srvB; srvA] [] RANDOM true false)).
  simpl. tauto.
Defined.

(** Property X14.  [remove] undoes [add]: adding a server that is not in
    the endpoint list and removing it again gives the endpoint list back. *)
Theorem add_then_remove (w : World) (e : Server) (s : PState) :
  ~ In e (Pool.servers (pool s)) ->
  Pool.servers
    (pool (snd (ServerPool.remove w e (snd (ServerPool.add w (PyServer e) s))))) =
    Pool.servers (pool s).
Proof.
  intros H. rewrite remove_servers, add_servers.
  destruct (Py.contains Server_eqb e (Pool.servers (pool s))) eqn:C.
  - apply contains_In in C. contradiction.
  - now rewrite py_remove_appended.
Qed.

Lemma add_then_remove_witness :
  Pool.servers
    (pool (snd (ServerPool.remove world_live srvC
                  (snd (ServerPool.add world_live (PyServer srvC) registry_ab))))) =
    [srvA; srvB].
Proof.
  apply (@add_then_remove world_live srvC registry_ab).
  simpl. intros [H|[H|[]]]; discriminate.
Defined.

(** Property X15.  [add] of a [Server] object is idempotent on the
    endpoint list: adding the same server a second time changes nothing,
    whether or not it was there before the first. *)
Theorem add_server_idempotent (w : World) (e : Server) (s : PState) :
  Pool.servers
    (pool (snd (ServerPool.add w (PyServer e) (snd (ServerPool.add w (PyServer e) s))))) =
    Pool.servers (pool (snd (ServerPool.add w (PyServer e) s))).
Proof.
  rewrite (add_servers w (PyServer e) (snd (ServerPool.add w (PyServer e) s))).
  replace (Py.contains Server_eqb e
             (Pool.servers (pool (snd (ServerPool.add w (PyServer e) s)))))
    with true; [reflexivity|].
  symmetry. apply contains_In. rewrite add_servers.
  destruct (Py.contains Server_eqb e (Pool.servers (pool s))) eqn:C.
  - now apply contains_In.
  - apply in_or_app. right. now left.
Qed.

(** ** Selection after a mutation *)

Section AfterMutation.
Variable w : World.

Lemma pool_get_server_run fuel c s st :
  ServerPool.lookup c (Pool.pool_states (pool s)) = Some st ->
  ServerPool.get_server w fuel c s =
    ServerPool.on_state c (ServerPoolState.get_server w fuel (pool s)) s.
Proof.
  intros L. unfold ServerPool.get_server, bind, ServerPool.get_pool_states, gets.
  rewrite L. reflexivity.
Qed.




End AfterMutation.



(** ** A registry that is emptied *)

Section Emptied.
Variable w : World.

(** [get_server] reads the policy of the pool and nothing else of it. *)
Lemma get_server_policy fuel p p' cs :
  Pool.strategy p = Pool.strategy p' ->
  Pool.active p = Pool.active p' ->
  Pool.exhaust p = Pool.exhaust p' ->
  ServerPoolState.get_server w fuel p cs = ServerPoolState.get_server w fuel p' cs.
Proof.
  intros Hg Ha He. unfold ServerPoolState.get_server. rewrite Hg, Ha, He.
  reflexivity.
Qed.

Lemma remove_last_run sv s c0 st0 d :
  Pool.servers (pool s) = [sv] ->
  Pool.pool_states (pool s) = (c0, st0) :: d ->
  ServerPool.remove w sv s =
    (Raise ValueError,
     {| pool := {| Pool.servers := [];
                   Pool.pool_states :=
                     (c0, {| State.servers := [];
                             State.last_used_server := State.last_used_server st0 |})
                       :: d;
                   Pool.active := Pool.active (pool s);
                   Pool.exhaust := Pool.exhaust (pool s);
                   Pool.strategy := Pool.strategy (pool s) |};
        penv := penv s |}).
Proof.
  intros Hl Hd. unfold ServerPool.remove.
  unfold bind at 1. unfold ServerPool.get_servers, gets. rewrite Hl.
  assert (E : Server_eqb sv sv = true) by now apply Server_eqb_eq.
  cbn [Py.contains existsb]. rewrite E. cbn [orb].
  unfold bind at 1. unfold bind at 1. unfold list_remove.
  cbn [Py.remove]. rewrite E. unfold ret at 1. unfold modify at 1.
  unfold ServerPool.notify. unfold bind at 1.
  unfold ServerPool.get_pool_states, gets.
  cbn [pool ServerPool.map_pool ServerPool.with_servers Pool.pool_states].
  rewrite Hd. cbn [map fst ServerPool.refresh_each].
  unfold bind at 1. unfold gets at 1. unfold bind at 1.
  unfold ServerPool.on_state.
  cbn [pool ServerPool.map_pool ServerPool.with_servers Pool.pool_states penv].
  rewrite Hd. cbn [ServerPool.lookup]. rewrite Nat.eqb_refl.
  rewrite refresh_empty by reflexivity.
  cbn [fst snd self cenv ServerPool.store ServerPool.with_pool_states
       Pool.servers Pool.pool_states Pool.active Pool.exhaust Pool.strategy].
  rewrite Nat.eqb_refl. reflexivity.
Qed.
End Emptied.

(** Property X17.  Removing the only server of a registry that owns
    cursors applies the removal and then raises [ValueError]: the
    broadcast stops at the first cursor, whose snapshot it has emptied and
    whose index it has left as it was.  That connection is turned down by
    [get_server] from then on; every other connection keeps its old
    snapshot and is answered exactly as before the removal, the removed
    server included. *)
Theorem remove_last_server_stale
  (w : World) (sv : Server) (s : PState) (c0 : Conn) (st0 : State.t)
  (d : list (Conn * State.t)) :
  Pool.servers (pool s) = [sv] ->
  Pool.pool_states (pool s) = (c0, st0) :: d ->
  fst (ServerPool.remove w sv s) = Raise ValueError /\
  Pool.servers (pool (snd (ServerPool.remove w sv s))) = [] /\
  Pool.pool_states (pool (snd (ServerPool.remove w sv s))) =
    (c0, {| State.servers := [];
            State.last_used_server := State.last_used_server st0 |}) :: d /\
  (forall fuel,
     fst (ServerPool.get_server w fuel c0 (snd (ServerPool.remove w sv s))) =
       Raise (LDAPServerPoolError "no servers in server pool")) /\
  (forall fuel c1, c1 <> c0 ->
     fst (ServerPool.get_server w fuel c1 (snd (ServerPool.remove w sv s))) =
     fst (ServerPool.get_server w fuel c1 s)).
Proof.
  intros Hl Hd. rewrite (@remove_last_run w sv s c0 st0 d Hl Hd). cbn [fst snd pool].
  split; [reflexivity|]. split; [reflexivity|]. split; [reflexivity|]. split.
  - intros fuel.
    unfold ServerPool.get_server, bind, ServerPool.get_pool_states, gets.
    cbn [pool Pool.pool_states ServerPool.lookup]. rewrite Nat.eqb_refl.
    unfold ServerPool.on_state.
    cbn [pool Pool.pool_states ServerPool.lookup]. rewrite Nat.eqb_refl.
    reflexivity.
  - intros fuel c1 Hc.
    assert (Hneq : Nat.eqb c0 c1 = false) by (apply Nat.eqb_neq; congruence).
    unfold ServerPool.get_server, bind, ServerPool.get_pool_states, gets.
    cbn [pool Pool.pool_states ServerPool.lookup]. rewrite Hd.
    cbn [ServerPool.lookup]. rewrite Hneq.
    destruct (ServerPool.lookup c1 d) as [st1|] eqn:L1; [|reflexivity].
    unfold ServerPool.on_state.
    cbn [pool Pool.pool_states ServerPool.lookup penv]. rewrite Hd.
    cbn [ServerPool.lookup]. rewrite Hneq, L1. cbn [fst].
    f_equal; try (apply get_server_policy; reflexivity).
Qed.

Lemma remove_last_server_stale_witness :
  fst (ServerPool.remove world_live srvA
         (registry [srvA] [(1%nat, at_index [srvA] 0); (2%nat, at_index [srvA] 0)]
            FIRST false false)) = Raise ValueError /\
  fst (ServerPool.get_server world_live 0 2%nat
         (snd (ServerPool.remove world_live srvA
                 (registry [srvA]
                    [(1%nat, at_index [srvA] 0); (2%nat, at_index [srvA] 0)]
                    FIRST false false)))) = Return srvA.
Proof.
  destruct (@remove_last_server_stale world_live srvA
              (registry [srvA] [(1%nat, at_index [srvA] 0); (2%nat, at_index [srvA] 0)]
                 FIRST false false)
              1%nat (at_index [srvA] 0) [(2%nat, at_index [srvA] 0)]
              eq_refl eq_refl) as (H1 & _ & _ & _ & H5).
  split; [exact H1|].
  rewrite (H5 0%nat 2%nat ltac:(discriminate)). reflexivity.
Defined.

(** Property X18.  Under [ROUND_ROBIN] without the liveness filter, a
    connection that is initialised on a registry of [N >= 1] servers and
    then calls [get_server] [N] times is handed every server of the
    registry once, in the order of the endpoint list, entered right after
    the index that [initialize] drew. *)
Theorem initialize_then_round_robin
  (w : World) (fuel : nat) (c : Conn) (s : PState) :
  Pool.strategy (pool s) = ROUND_ROBIN ->
  Pool.active (pool s) = false ->
  Pool.servers (pool s) <> [] ->
  let l := Pool.servers (pool s) in
  let i := entropy w (S (draws (penv s))) mod Py.len l in
  fst ((ServerPool.initialize w c;; calls w fuel c (List.length l)) s) =
    Return (rotation l (i + 1)) /\
  Permutation (rotation l (i + 1)) l.
Proof.
  intros Hg Ha Hne l i. split; [|apply rotation_Permutation].
  unfold bind. rewrite initialize_run by exact Hne. fold l i.
  rewrite (@calls_cycle w fuel c _ l i); try assumption.
  - reflexivity.
  - cbn. apply lookup_store_same.
  - subst i. apply Z.mod_pos_bound.
    subst l. destruct (Pool.servers (pool s)); [congruence|].
    unfold Py.len. cbn [List.length]. lia.
Qed.

Lemma initialize_then_round_robin_witness :
  fst ((ServerPool.initialize world_live 1%nat;; calls world_live 0 1%nat 3)
         (registry [srvA; srvB; srvC] [] ROUND_ROBIN false false)) =
    Return [srvC; srvA; srvB].
Proof.
  refine (proj1 (@initialize_then_round_robin world_live 0 1%nat
                   (registry [srvA; srvB; srvC] [] ROUND_ROBIN false false) _ _ _));
    [reflexivity|reflexivity|discriminate].
Defined.

(** ** Display *)

Section Strings.
Local Open Scope string_scope.

Lemma append_assoc (a b c : string) : (a ++ b) ++ c = a ++ (b ++ c).
Proof. induction a as [|ch a IH]; cbn; [reflexivity|]. now rewrite IH. Qed.

Lemma append_length (a b : string) :
  String.length (a ++ b) = (String.length a + String.length b)%nat.
Proof. induction a as [|ch a IH]; cbn; [reflexivity|]. now rewrite IH. Qed.

Lemma substring_prefix (a b : string) : substring 0 (String.length a) (a ++ b) = a.
Proof.
  induction a as [|ch a IH]; cbn.
  - destruct b; reflexivity.
  - now rewrite IH.
Qed.

(** Dropping the last two characters takes a trailing separator off. *)
Lemma drop_last2_separator (a : string) : Py.drop_last2 (a ++ ", ") = a.
Proof.
  unfold Py.drop_last2. rewrite append_length. cbn [String.length].
  replace (String.length a + 2 - 2)%nat with (String.length a) by lia.
  apply substring_prefix.
Qed.
End Strings.

Section DisplayFacts.
Variable repr_server : Server -> string.
Variable repr_strategy : Strategy -> string.

Lemma repr_items_joined x tl : forall r,
  ServerPool.repr_items repr_server (x :: tl) r =
    ((r ++ String.concat ", " (map repr_server (x :: tl))) ++ ", ")%string.
Proof.
  revert x. induction tl as [|y tl IH]; intros x r.
  - cbn. now rewrite append_assoc.
  - change (ServerPool.repr_items repr_server (x :: y :: tl) r)
      with (ServerPool.repr_items repr_server (y :: tl)
              (r ++ (repr_server x ++ ", "))%string).
    rewrite IH.
    change (String.concat ", " (map repr_server (x :: y :: tl)))
      with (repr_server x ++ (", " ++ String.concat ", " (map repr_server (y :: tl))))%string.
    now rewrite !append_assoc.
Qed.
End DisplayFacts.

(** Property X19.  [ServerPool.__repr__] never fails and leaves the pool
    alone.  For a pool that has servers it shows them between brackets,
    separated by a comma and a space with no separator after the last one;
    for an empty pool it shows [None]; the strategy and the two flags
    follow. *)
Theorem repr_format
  (repr_server : Server -> string) (repr_strategy : Strategy -> string)
  (s : PState) :
  ServerPool.repr repr_server repr_strategy s =
    (Return
       ("ServerPool(servers="
        ++ match Pool.servers (pool s) with
           | [] => "None"
           | _ :: _ =>
               "[" ++ String.concat ", " (map repr_server (Pool.servers (pool s))) ++ "]"
           end
        ++ ", pool_strategy=" ++ repr_strategy (Pool.strategy (pool s))
        ++ ", active=" ++ (if Pool.active (pool s) then "True" else "False")
        ++ ", exhaust=" ++ (if Pool.exhaust (pool s) then "True" else "False")
        ++ ")")%string,
     s).
Proof.
  unfold ServerPool.repr, bind, ServerPool.get_servers, gets, ret,
    ServerPool.repr_bool.
  f_equal. f_equal.
  destruct (Pool.servers (pool s)) as [|x tl].
  - rewrite !append_assoc. reflexivity.
  - rewrite repr_items_joined, drop_last2_separator, !append_assoc. reflexivity.
Qed.

Section StrFacts.
Variable linesep : string.
Variable str_server : Server -> string.

Lemma append_nil_r (a : string) : (a ++ EmptyString)%string = a.
Proof. induction a as [|ch a IH]; cbn; [reflexivity|]. now rewrite IH. Qed.

Lemma str_lines_concat l : forall s,
  ServerPoolState.str_lines linesep str_server l s =
    (s ++ String.concat EmptyString
            (map (fun sv => (str_server sv ++ linesep)%string) l))%string.
Proof.
  induction l as [|x tl IH]; intros s.
  - cbn. now rewrite append_nil_r.
  - cbn [ServerPoolState.str_lines]. rewrite IH, append_assoc.
    destruct tl as [|y tl]; cbn; [now rewrite append_nil_r|reflexivity].
Qed.
End StrFacts.

(** Property X20.  [ServerPoolState.__str__] leaves the cursor alone and
    returns the snapshot, one server a line ([None] for an empty one), the
    strategy and the server at the cursor ([None] when the index is -1).
    It fails with [IndexError] exactly when the index is not -1 and lies
    outside the snapshot, so on every empty snapshot whose index is not
    -1. *)
Theorem str_outcome
  (linesep : string) (str_server : Server -> string)
  (str_strategy : Strategy -> string) (p : Pool.t) (s : CState) :
  let l := State.servers (self s) in
  let last := State.last_used_server (self s) in
  let head :=
    ("servers: " ++ linesep
     ++ match l with
        | [] => "None" ++ linesep
        | _ :: _ =>
            String.concat EmptyString
              (map (fun sv => (str_server sv ++ linesep)%string) l)
        end
     ++ "Pool strategy: " ++ str_strategy (Pool.strategy p) ++ linesep
     ++ " - Last used server: ")%string in
  ServerPoolState.str linesep str_server str_strategy p s =
    (if last =? -1 then Return (head ++ "None")%string
     else match Py.getitem l last with
          | Some x => Return (head ++ str_server x)%string
          | None => Raise IndexError
          end,
     s) /\
  (l = [] -> last <> -1 ->
   fst (ServerPoolState.str linesep str_server str_strategy p s) = Raise IndexError).
Proof.
  intros l last head. subst l last head.
  set (l := State.servers (self s)).
  set (last := State.last_used_server (self s)).
  assert (Hhead : forall acc : string,
    (match l with
     | [] => (acc ++ ("None" ++ linesep))%string
     | _ :: _ => ServerPoolState.str_lines linesep str_server l acc
     end ++ (("Pool strategy: " ++ str_strategy (Pool.strategy p)) ++ linesep))%string =
    (acc ++ match l with
            | [] => "None" ++ linesep
            | _ :: _ =>
                String.concat EmptyString
                  (map (fun sv => (str_server sv ++ linesep)%string) l)
            end
         ++ "Pool strategy: " ++ str_strategy (Pool.strategy p) ++ linesep)%string).
  { intros acc. destruct l as [|y tl]; [|rewrite str_lines_concat];
      rewrite !append_assoc; reflexivity. }
  assert (E : ServerPoolState.str linesep str_server str_strategy p s =
    (if last =? -1
     then Return
            (("servers: " ++ linesep
              ++ match l with
                 | [] => "None" ++ linesep
                 | _ :: _ =>
                     String.concat EmptyString
                       (map (fun sv => (str_server sv ++ linesep)%string) l)
                 end
              ++ "Pool strategy: " ++ str_strategy (Pool.strategy p) ++ linesep
              ++ " - Last used server: ") ++ "None")%string
     else match Py.getitem l last with
          | Some x =>
              Return
                (("servers: " ++ linesep
                  ++ match l with
                     | [] => "None" ++ linesep
                     | _ :: _ =>
                         String.concat EmptyString
                           (map (fun sv => (str_server sv ++ linesep)%string) l)
                     end
                  ++ "Pool strategy: " ++ str_strategy (Pool.strategy p) ++ linesep
                  ++ " - Last used server: ") ++ str_server x)%string
          | None => Raise IndexError
          end, s)).
  { unfold ServerPoolState.str, bind, ServerPoolState.get_servers,
      ServerPoolState.get_last_used_server, gets, list_getitem, ret, raise.
    fold l last.
    destruct (last =? -1) eqn:E1.
    - rewrite Hhead, !append_assoc. reflexivity.
    - change (State.servers (self s)) with l.
      destruct (Py.getitem l last) as [x|]; [|reflexivity].
      rewrite Hhead, !append_assoc. reflexivity. }
  split; [exact E|].
  intros Hl Hn. rewrite E. cbn [fst].
  destruct (last =? -1) eqn:E1; [apply Z.eqb_eq in E1; contradiction|].
  destruct (Py.getitem l last) as [x|] eqn:G; [|reflexivity].
  apply getitem_member in G. rewrite Hl in G. destruct G.
Qed.

Lemma str_outcome_witness :
  fst (ServerPoolState.str "; " address (fun _ => "FIRST")
         (policy [] [] FIRST true false) (cursor [] 0)) = Raise IndexError.
Proof.
  refine (proj2 (@str_outcome "; " address (fun _ => "FIRST")
                   (policy [] [] FIRST true false) (cursor [] 0)) _ _).
  - reflexivity.
  - discriminate.
Defined.

(** ** Indexing the pool *)

Section Indexing.
Variable A : Type.

Lemma getitem_last (l : list A) (e : A) : Py.getitem (l ++ [e]) (-1) = Some e.
Proof.
  unfold Py.getitem, Py.norm, Py.len. rewrite length_app. cbn [List.length].
  replace (-1 <? 0) with true by reflexivity.
  replace (0 <=? -1 + Z.of_nat (List.length l + 1)) with true
    by (symmetry; apply Z.leb_le; lia).
  replace (-1 + Z.of_nat (List.length l + 1) <? Z.of_nat (List.length l + 1)) with true
    by (symmetry; apply Z.ltb_lt; lia).
  cbn [andb].
  replace (Z.to_nat (-1 + Z.of_nat (List.length l + 1))) with (List.length l) by lia.
  rewrite nth_error_app2 by lia. rewrite Nat.sub_diag. reflexivity.
Qed.

Lemma getitem_app_l (l : list A) (e : A) i :
  0 <= i < Py.len l -> Py.getitem (l ++ [e]) i = Py.getitem l i.
Proof.
  intros H. rewrite !getitem_in_range.
  - apply nth_error_app1. unfold Py.len in H. lia.
  - exact H.
  - unfold Py.len in *. rewrite length_app. cbn [List.length]. lia.
Qed.
End Indexing.

(** Property X21.  A server that [add] appends, an address or a [Server]
    not yet in the pool, goes to the end of the pool: [len(pool)] grows by
    one, [pool[-1]] is the new server, and every index that was valid
    still holds the server it held. *)
Theorem add_appends_at_end
  (w : World) (s : PState) (x : PyObj) (e : Server) :
  x = PyStr (address e) \/
  (x = PyServer e /\ ~ In e (Pool.servers (pool s))) ->
  fst (ServerPool.len (snd (ServerPool.add w x s))) =
    Return (Py.len (Pool.servers (pool s)) + 1) /\
  fst (ServerPool.getitem (-1) (snd (ServerPool.add w x s))) = Return e /\
  forall i, 0 <= i < Py.len (Pool.servers (pool s)) ->
    fst (ServerPool.getitem i (snd (ServerPool.add w x s))) =
    fst (ServerPool.getitem i s).
Proof.
  intros Hx.
  assert (E : Pool.servers (pool (snd (ServerPool.add w x s))) =
              Pool.servers (pool s) ++ [e]).
  { rewrite add_servers. destruct Hx as [->|[-> Hn]].
    - destruct e. reflexivity.
    - destruct (Py.contains Server_eqb e (Pool.servers (pool s))) eqn:C;
        [|reflexivity].
      apply contains_In in C. contradiction. }
  unfold ServerPool.len, ServerPool.getitem, bind, ServerPool.get_servers,
    gets, ret, list_getitem.
  rewrite E. split; [|split].
  - cbn [fst]. unfold Py.len. rewrite length_app. cbn [List.length].
    f_equal. lia.
  - rewrite getitem_last. reflexivity.
  - intros i Hi. rewrite getitem_app_l by exact Hi.
    destruct (Py.getitem (Pool.servers (pool s)) i); reflexivity.
Qed.

Lemma add_appends_at_end_witness :
  fst (ServerPool.len (snd (ServerPool.add world_live (PyStr "ldap-c") registry_ab))) =
    Return 3 /\
  fst (ServerPool.getitem (-1)
         (snd (ServerPool.add world_live (PyStr "ldap-c") registry_ab))) = Return srvC /\
  forall i, 0 <= i < 2 ->
    fst (ServerPool.getitem i
           (snd (ServerPool.add world_live (PyStr "ldap-c") registry_ab))) =
    fst (ServerPool.getitem i registry_ab).
Proof.
  apply (@add_appends_at_end world_live registry_ab (PyStr "ldap-c") srvC).
  left. reflexivity.
Defined.

(** ** Waiting for a server to come back *)

Section Recovery.
Variable w : World.
Variable T : nat.
Hypothesis dead_before : forall t sv, (t < T)%nat -> alive w t sv = false.
Hypothesis live_from : forall t sv, (T <= t)%nat -> alive w t sv = true.

(** Without [exhaust] the circular scan goes round until the first probe
    that falls at time [T] or later, and returns the index probed then. *)
Lemma find_active_server_recovers fuel : forall starting s,
  let l := State.servers (self s) in
  let order := circular starting (Py.len l) in
  l <> [] ->
  0 <= starting <= Py.len l ->
  (clock (cenv s) <= T)%nat ->
  ((T - clock (cenv s)) / List.length l < fuel)%nat ->
  fst (ServerPoolState.find_active_server w fuel starting false s) =
    Return (nth ((T - clock (cenv s)) mod List.length l) order 0) /\
  clock (cenv (snd (ServerPoolState.find_active_server w fuel starting false s))) =
    S T.
Proof.
  induction fuel as [|fuel IH]; intros starting s l order Hne Hs Hc Hf; [lia|].
  subst l order.
  set (l := State.servers (self s)) in *.
  set (order := circular starting (Py.len l)).
  set (k := (T - clock (cenv s))%nat) in *.
  assert (Hn : List.length order = List.length l).
  { subst order. unfold circular. rewrite length_app, !zseq_length.
    unfold Py.len in *. lia. }
  assert (Hpos : (0 < List.length l)%nat).
  { destruct l; [congruence|cbn; lia]. }
  assert (Hv : forall i, In i order -> 0 <= i < Py.len l)
    by (intros i; apply circular_In; exact Hs).
  pose proof (@find_active_server_pass w fuel starting false s Hs) as Hpass.
  cbv zeta in Hpass. fold l order in Hpass.
  destruct (Nat.lt_ge_cases k (List.length l)) as [Hk|Hk].
  - rewrite Nat.mod_small by exact Hk.
    destruct (getitem_some l (i:=nth k order 0)) as [sv Hsv].
    { apply Hv. apply nth_In. lia. }
    destruct (@probes_first_live w l order (clock (cenv s)) k sv Hv) as [H1 H2].
    + intros j sv' Hj _. apply dead_before. subst k. lia.
    + lia.
    + exact Hsv.
    + apply live_from. subst k. lia.
    + rewrite Hpass, H1, H2. cbn [fst snd advance cenv clock].
      split; [reflexivity|].
      rewrite probes_length.
      * rewrite length_firstn. subst k. lia.
      * intros i Hi. apply Hv. eapply firstn_In; eauto.
  - assert (Hdead : Forall dead (probes w l (clock (cenv s)) order)).
    { apply probes_all_dead. intros j sv Hj _. apply dead_before. subst k. lia. }
    rewrite Hpass, (dead_no_hit Hdead).
    set (s1 := advance (probes w l (clock (cenv s)) order) s).
    assert (Hc1 : clock (cenv s1) = (clock (cenv s) + List.length l)%nat).
    { subst s1. cbn. rewrite probes_length by exact Hv. lia. }
    destruct (IH starting s1) as [Hr Hclk].
    + exact Hne.
    + exact Hs.
    + rewrite Hc1. subst k. lia.
    + rewrite Hc1. change (State.servers (self s1)) with l.
      replace (T - (clock (cenv s) + List.length l))%nat
        with (k - List.length l)%nat by (subst k; lia).
      assert (k / List.length l = S ((k - List.length l) / List.length l))%nat.
      { replace k with ((k - List.length l) + 1 * List.length l)%nat at 1 by lia.
        rewrite Nat.div_add by lia. lia. }
      lia.
    + split; [|exact Hclk].
      rewrite Hr. f_equal. f_equal. rewrite Hc1.
      change (State.servers (self s1)) with l.
      replace (T - (clock (cenv s) + List.length l))%nat
        with (k - List.length l)%nat by (subst k; lia).
      replace k with ((k - List.length l) + 1 * List.length l)%nat at 2 by lia.
      rewrite Nat.Div0.mod_add. reflexivity.
Qed.
End Recovery.

(** Property X22.  Under [FIRST] and [ROUND_ROBIN] with the liveness
    filter and without [exhaust], [get_server] waits for a server to come
    back: when no server answers before the [T]-th probe and every server
    answers from then on, the call goes round the snapshot, returns the
    server it probes at time [T], the one at place [(T - clock) mod N] of
    the circular order, and has made no probe after that one.  The fuel
    counts the passes this takes. *)
Theorem get_server_waits
  (w : World) (T fuel : nat) (p : Pool.t) (s : CState) (starting : Z) :
  let l := State.servers (self s) in
  let order := circular starting (Py.len l) in
  (forall t sv, (t < T)%nat -> alive w t sv = false) ->
  (forall t sv, (T <= t)%nat -> alive w t sv = true) ->
  Pool.active p = true ->
  Pool.exhaust p = false ->
  (Pool.strategy p = FIRST /\ starting = 0 \/
   Pool.strategy p = ROUND_ROBIN /\ starting = State.last_used_server (self s) + 1) ->
  l <> [] ->
  0 <= starting <= Py.len l ->
  (clock (cenv s) <= T)%nat ->
  ((T - clock (cenv s)) / List.length l < fuel)%nat ->
  exists sv,
    fst (ServerPoolState.get_server w fuel p s) = Return sv /\
    Py.getitem l (nth ((T - clock (cenv s)) mod List.length l) order 0) = Some sv /\
    clock (cenv (snd (ServerPoolState.get_server w fuel p s))) = S T.
Proof.
  intros l order Hd Hl Ha He Hg Hne Hs Hc Hf. subst l order.
  destruct (@find_active_server_recovers w T Hd Hl fuel starting s Hne Hs Hc Hf)
    as [Hr Hclk].
  assert (Hpos : (0 < List.length (State.servers (self s)))%nat).
  { destruct (State.servers (self s)); [congruence|cbn; lia]. }
  destruct (getitem_some (State.servers (self s))
              (i:=nth ((T - clock (cenv s)) mod List.length (State.servers (self s)))
                    (circular starting (Py.len (State.servers (self s)))) 0))
    as [sv Hsv].
  { apply (circular_In (n:=Py.len (State.servers (self s))) _ Hs). apply nth_In.
    unfold circular. rewrite length_app, !zseq_length.
    pose proof (Nat.mod_upper_bound (T - clock (cenv s))
                  (List.length (State.servers (self s)))).
    unfold Py.len in *. lia. }
  exists sv.
  pose proof (find_active_server_self w fuel starting false s) as Hself.
  destruct (State.servers (self s)) as [|y tl] eqn:Hsn; [congruence|].
  rewrite (get_server_active w fuel p s Hsn Ha), He.
  assert (Hrun : ServerPoolState.find_active_server w fuel
                   match Pool.strategy p with
                   | ROUND_ROBIN => State.last_used_server (self s) + 1
                   | _ => 0
                   end false s =
                 ServerPoolState.find_active_server w fuel starting false s).
  { destruct Hg as [[Hg ->]|[Hg ->]]; rewrite Hg; reflexivity. }
  destruct Hg as [[Hg E]|[Hg E]]; rewrite Hg in *; rewrite Hrun;
    destruct (ServerPoolState.find_active_server w fuel starting false s) as [o s'];
    cbn [fst snd] in *; subst o; rewrite Hself, Hsn, Hsv;
    cbn [fst snd map_self cenv]; auto.
Qed.

Lemma get_server_waits_witness :
  exists sv,
    fst (ServerPoolState.get_server
           (world_back_at 4) 2
           (policy [srvA; srvB; srvC] [] FIRST true false)
           (cursor [srvA; srvB; srvC] 0)) = Return sv /\
    Py.getitem [srvA; srvB; srvC]
      (nth ((4 - 0) mod 3) (circular 0 (Py.len [srvA; srvB; srvC])) 0) = Some sv /\
    clock (cenv (snd (ServerPoolState.get_server
           (world_back_at 4) 2
           (policy [srvA; srvB; srvC] [] FIRST true false)
           (cursor [srvA; srvB; srvC] 0)))) = 5%nat.
Proof.
  apply (@get_server_waits (world_back_at 4)
           4 2 (policy [srvA; srvB; srvC] [] FIRST true false)
           (cursor [srvA; srvB; srvC] 0) 0).
  - intros t sv H. apply Nat.leb_gt. exact H.
  - intros t sv H. apply Nat.leb_le. exact H.
  - reflexivity.
  - reflexivity.
  - left. split; reflexivity.
  - discriminate.
  - vm_compute. split; discriminate.
  - simpl. lia.
  - vm_compute. lia.
Defined.
Section AnyState.
Variable w : World.

Lemma scan_raises n : forall index bound s e,
  fst (ServerPoolState.scan w n index bound s) = Raise e -> e = IndexError.
Proof.
  induction n as [|n IH]; intros index bound s e; cbn [ServerPoolState.scan];
    destruct (index <? bound); try (cbn; discriminate).
  unfold bind at 1. unfold ServerPoolState.get_servers, gets.
  unfold bind at 1. unfold list_getitem.
  destruct (Py.getitem (State.servers (self s)) index) as [sv|];
    [|cbn; congruence].
  unfold ret at 1. unfold bind at 1. rewrite check_availability_run.
  destruct (alive w (clock (cenv s)) sv); [cbn; discriminate|].
  apply IH.
Qed.

Lemma find_active_server_raises_any fuel : forall starting exhaust s e,
  fst (ServerPoolState.find_active_server w fuel starting exhaust s) = Raise e ->
  e = IndexError \/ exists msg, e = LDAPServerPoolExhaustedError msg.
Proof.
  induction fuel as [|fuel IH]; intros starting exhaust s e; [discriminate|].
  cbn [ServerPoolState.find_active_server].
  unfold bind at 1. unfold ServerPoolState.get_servers, gets. unfold bind at 1.
  pose proof (scan_raises (Z.to_nat (Py.len (State.servers (self s)) - starting))
                starting (Py.len (State.servers (self s))) s) as H1.
  destruct (ServerPoolState.scan w _ starting _ s) as [[[b i]|e1|] s1];
    cbn [fst snd] in *; try discriminate.
  2:{ intros [= <-]. left. now apply H1. }
  destruct b; [cbn; discriminate|].
  unfold bind at 1.
  pose proof (scan_raises (Z.to_nat starting) 0 starting s1) as H2.
  destruct (ServerPoolState.scan w _ 0 starting s1) as [[[b i0]|e2|] s2];
    cbn [fst snd] in *; try discriminate.
  2:{ intros [= <-]. left. now apply H2. }
  destruct b; [cbn; discriminate|].
  destruct exhaust.
  - cbn. intros [= <-]. right. eauto.
  - apply IH.
Qed.

(** [get_server] of a cursor never raises the error of the registry for
    a connection that it does not know. *)
Lemma get_server_not_unregistered fuel p s :
  fst (ServerPoolState.get_server w fuel p s) <>
    Raise (LDAPServerPoolError "connection not in ServerPoolState").
Proof.
  destruct (State.servers (self s)) as [|y tl] eqn:Hl.
  { unfold ServerPoolState.get_server, bind, ServerPoolState.get_servers, gets.
    rewrite Hl. cbn. discriminate. }
  destruct (Pool.active p) eqn:Ha.
  - rewrite (get_server_active w fuel p s Hl Ha).
    destruct (Pool.strategy p) as [| | |tag].
    + pose proof (find_active_server_raises_any fuel 0 (Pool.exhaust p) s) as H.
      destruct (ServerPoolState.find_active_server w fuel 0 (Pool.exhaust p) s)
        as [[i|e|] s']; cbn [fst snd] in *; try discriminate.
      * destruct (Py.getitem _ i); discriminate.
      * intros [= ->]. destruct (H _ eq_refl) as [E|[m E]]; discriminate.
    + pose proof (find_active_server_raises_any fuel
                    (State.last_used_server (self s) + 1) (Pool.exhaust p) s) as H.
      destruct (ServerPoolState.find_active_server w fuel _ (Pool.exhaust p) s)
        as [[i|e|] s']; cbn [fst snd] in *; try discriminate.
      * destruct (Py.getitem _ i); discriminate.
      * intros [= ->]. destruct (H _ eq_refl) as [E|[m E]]; discriminate.
    + pose proof (@find_active_random_server_raises w fuel (Pool.exhaust p) s) as H.
      destruct (ServerPoolState.find_active_random_server w fuel (Pool.exhaust p) s)
        as [[i|e|] s']; cbn [fst snd] in *; try discriminate.
      * destruct (Py.getitem _ i); discriminate.
      * intros [= ->]. destruct (H _ eq_refl) as [_ E]. discriminate.
    + cbn. discriminate.
  - rewrite (get_server_inactive w fuel p s Hl Ha).
    destruct (Pool.strategy p) as [| | |tag].
    + cbn. destruct (Py.getitem _ 0); discriminate.
    + cbn [fst snd].
      match goal with
      | |- context [Py.getitem ?l ?i] => destruct (Py.getitem l i)
      end; discriminate.
    + unfold randint. destruct (_ <? _); [cbn; discriminate|].
      unfold bind, gets, modify, ret. cbn [fst snd].
      match goal with
      | |- context [Py.getitem ?l ?i] => destruct (Py.getitem l i)
      end; discriminate.
    + cbn. discriminate.
Qed.
End AnyState.

(** Property X23.  [get_server] and [get_current_server] of the registry
    raise [LDAPServerPoolError] for a connection exactly when it was never
    initialised, with the message that says so, and then leave the
    registry as it is; no other failure of a registered connection is
    reported under that message. *)
Theorem unregistered_connection
  (w : World) (fuel : nat) (c : Conn) (s : PState) :
  (ServerPool.lookup c (Pool.pool_states (pool s)) = None <->
   fst (ServerPool.get_server w fuel c s) =
     Raise (LDAPServerPoolError "connection not in ServerPoolState")) /\
  (ServerPool.lookup c (Pool.pool_states (pool s)) = None <->
   fst (ServerPool.get_current_server c s) =
     Raise (LDAPServerPoolError "connection not in ServerPoolState")) /\
  (ServerPool.lookup c (Pool.pool_states (pool s)) = None ->
   snd (ServerPool.get_server w fuel c s) = s /\
   snd (ServerPool.get_current_server c s) = s).
Proof.
  destruct (ServerPool.lookup c (Pool.pool_states (pool s))) as [st|] eqn:L.
  - split; [|split].
    + split; [discriminate|]. intros H. exfalso.
      rewrite (pool_get_server_run w fuel _ _ L), (on_state_registered _ _ _ L) in H.
      cbn [fst] in H. revert H. apply get_server_not_unregistered.
    + split; [discriminate|]. intros H. exfalso.
      unfold ServerPool.get_current_server in H.
      unfold bind at 1 in H. unfold ServerPool.get_pool_states, gets in H.
      rewrite L in H.
      rewrite (on_state_registered _ _ _ L), get_current_server_run in H.
      cbn [fst] in H. destruct (Py.getitem _ _); discriminate.
    + discriminate.
  - unfold ServerPool.get_server, ServerPool.get_current_server.
    unfold bind, ServerPool.get_pool_states, gets. rewrite L. cbn.
    repeat split; auto.
Qed.

Lemma unregistered_connection_witness :
  snd (ServerPool.get_server world_live 3 2%nat registry_ab) = registry_ab /\
  snd (ServerPool.get_current_server 2%nat registry_ab) = registry_ab.
Proof.
  apply (proj2 (proj2 (@unregistered_connection world_live 3 2%nat registry_ab))).
  reflexivity.
Defined.
